(** * Conversation orchestration of the "Brainteaser of the Day" bot

    A shallow embedding of the orchestration core of the bot:
    - [LLM]: the per-thread operation queue of [src/llm.ts]
      ([enqueueOperation], [processQueue]) and the run driver [runAssistant];
    - [Bot]: the chat-to-thread map of the bot class ([getThreadId],
      [addMessage], [response]);
    - [DiscordInterface]: the subscription list, the activation of direct
      message channels and the broadcast of [src/discord_interface.ts].

    Conventions.  JavaScript runs every job to completion; the only points at
    which another job may run are the [await]s.  Asynchronous code is therefore
    cut at its [await]s: each piece between two [await]s is a function on the
    state, and a schedule is a list of such pieces.  Objects used as
    dictionaries ([Record<string, _>]) are finite maps keyed by strings.
    The keys of the threads, queues and promises are Discord snowflakes and
    OpenAI identifiers, and those of the assistants are three fixed names:
    none of them names a property inherited from [Object.prototype].  The
    names of tools are sent by the service, and [LLM.callTool] reads the
    object of tools as the program does, inherited functions included.  A
    rejected promise or a thrown value is identified with the
    text that [String(error)] yields for it, which is all the program ever
    does with one.  What [console.log] and [console.error] print is left
    out. *)

From stdpp Require Import gmap strings list.

(** ** Settled promises *)

Inductive Settled (A : Type) : Type :=
| Fulfilled (value : A)
| Rejected (error : string).
Arguments Fulfilled {A} value.
Arguments Rejected {A} error.

Definition isRejected {A} (r : Settled A) : bool :=
  match r with Rejected _ => true | Fulfilled _ => false end.

(** * The serialized queue of [LLM] *)

Module Queue.

(** A queued operation is a closure; the model names each one by the rank of
    its [enqueueOperation] call. *)
Definition OpId := nat.

(** Control state of the async arrow function of [processQueue] (the block
    whose promise is stored in [processingPromise]): suspended at
    [await operation()], woken by the settled operation but not yet resumed,
    or returned.  Its promise is pending in the first two states and
    fulfilled in the third. *)
Inductive AsyncBlock : Type :=
| Awaiting (op : OpId)
| Resuming
| Returned.

Inductive Event : Type :=
| Enqueued (key : string) (op : OpId)
| Started (key : string) (op : OpId)
| Finished (key : string) (op : OpId) (r : Settled string)
| Delivered (op : OpId) (r : Settled string).

(** The two private fields of [LLM], the number of operations submitted so
    far, and the history of what happened.  [processingPromise] holds
    [Some None] where the source holds [null]. *)
Record LLM : Type := mkLLM {
  operationQueue : gmap string (list OpId);
  processingPromise : gmap string (option AsyncBlock);
  submitted : nat;
  trace : list Event
}.

Definition init : LLM := mkLLM ∅ ∅ 0 [].

(** [if (this.processingPromise[threadId])]: a promise is truthy, [null] and
    [undefined] are not. *)
Definition truthy (p : option (option AsyncBlock)) : bool :=
  match p with Some (Some _) => true | _ => false end.

(** The queue under a key; the source only reads it after [enqueueOperation]
    has created it. *)
Definition queueOf (s : LLM) (k : string) : list OpId :=
  default [] (operationQueue s !! k).

(** The async block from its entry or from a resumption up to its next
    [await] (lines 30-39): either the queue is empty and the block returns,
    or the first operation is shifted out and called. *)
Definition runBlock (k : string) (s : LLM) : LLM :=
  match queueOf s k with
  | [] =>
      mkLLM (operationQueue s) (<[k := Some Returned]> (processingPromise s))
            (submitted s) (trace s)
  | op :: rest =>
      mkLLM (<[k := rest]> (operationQueue s))
            (<[k := Some (Awaiting op)]> (processingPromise s))
            (submitted s) (trace s ++ [Started k op])
  end.

(** [processQueue] up to its first [await] (lines 21-43).  With a promise in
    place the call only waits for it and returns; otherwise it starts the
    async block and stores its promise. *)
Definition processQueue (k : string) (s : LLM) : LLM :=
  if truthy (processingPromise s !! k) then s else runBlock k s.

(** [enqueueOperation] (lines 49-64): the executor of the new promise runs at
    once; it creates the queue if need be, pushes the wrapped operation and
    calls [processQueue]. *)
Definition enqueueOperation (k : string) (s : LLM) : LLM :=
  let op := submitted s in
  processQueue k
    (mkLLM (<[k := queueOf s k ++ [op]]> (operationQueue s))
           (processingPromise s) (S op) (trace s ++ [Enqueued k op])).

(** The operation awaited by the block under [k] settles with [r]: the
    wrapper of lines 54-61 hands [r] to [resolve] or [reject] of the promise
    returned to the caller that enqueued it, and returns normally, so the
    [catch] of lines 35-37 never sees an error; the block is woken. *)
Definition settle (k : string) (r : Settled string) (s : LLM) : option LLM :=
  match processingPromise s !! k with
  | Some (Some (Awaiting op)) =>
      Some (mkLLM (operationQueue s)
                  (<[k := Some Resuming]> (processingPromise s))
                  (submitted s)
                  (trace s ++ [Finished k op r; Delivered op r]))
  | _ => None
  end.

(** The woken block runs on: back to the loop test. *)
Definition resume (k : string) (s : LLM) : option LLM :=
  match processingPromise s !! k with
  | Some (Some Resuming) => Some (runBlock k s)
  | _ => None
  end.

(** The continuation of the [processQueue] call that started the block
    (lines 45-46): once the block's promise is fulfilled it stores [null]. *)
Definition clear (k : string) (s : LLM) : option LLM :=
  match processingPromise s !! k with
  | Some (Some Returned) =>
      Some (mkLLM (operationQueue s) (<[k := None]> (processingPromise s))
                  (submitted s) (trace s))
  | _ => None
  end.

(** One job of the event loop that touches the queue. *)
Inductive Job : Type :=
| Enqueue (key : string)
| Settle (key : string) (r : Settled string)
| Resume (key : string)
| Clear (key : string).

Definition step (j : Job) (s : LLM) : option LLM :=
  match j with
  | Enqueue k => Some (enqueueOperation k s)
  | Settle k r => settle k r s
  | Resume k => resume k s
  | Clear k => clear k s
  end.

Fixpoint exec (js : list Job) (s : LLM) : option LLM :=
  match js with
  | [] => Some s
  | j :: js' => match step j s with Some s' => exec js' s' | None => None end
  end.

Definition reachable (s : LLM) : Prop := ∃ js, exec js init = Some s.

(** *** Reading a history *)

Definition enqueuedOn (k : string) (tr : list Event) : list OpId :=
  omap (λ e, match e with
             | Enqueued k' op => if decide (k' = k) then Some op else None
             | _ => None end) tr.

Definition startedOn (k : string) (tr : list Event) : list OpId :=
  omap (λ e, match e with
             | Started k' op => if decide (k' = k) then Some op else None
             | _ => None end) tr.

Definition finishedOn (k : string) (tr : list Event) : list OpId :=
  omap (λ e, match e with
             | Finished k' op _ => if decide (k' = k) then Some op else None
             | _ => None end) tr.

(** [o1] was submitted under [k] before [o2] was. *)
Definition enqueuedBefore (k : string) (o1 o2 : OpId) (tr : list Event) : Prop :=
  ∃ l1 l2 l3, enqueuedOn k tr = l1 ++ o1 :: l2 ++ o2 :: l3.

(** The operation in flight under a key, if any. *)
Definition inFlight (s : LLM) (k : string) : list OpId :=
  match processingPromise s !! k with
  | Some (Some (Awaiting op)) => [op]
  | _ => []
  end.

(** What holds of the state after any schedule: under every key the
    operations enqueued are those started followed by those still queued, the
    operations started are those finished followed by the one in flight, and
    the names of the operations are fresh. *)
Definition queueInv (s : LLM) : Prop :=
  ∀ k,
    enqueuedOn k (trace s) = startedOn k (trace s) ++ queueOf s k
    ∧ startedOn k (trace s) = finishedOn k (trace s) ++ inFlight s k
    ∧ (∀ op, op ∈ enqueuedOn k (trace s) → op < submitted s)
    ∧ NoDup (enqueuedOn k (trace s)).

(** What holds of a history: at the moment an operation starts under a key,
    everything started before it under that key has finished, and it is the
    next one in the order of submission. *)
Definition startsInTurn (tr : list Event) : Prop :=
  ∀ k o t1 t2,
    tr = t1 ++ Started k o :: t2 →
    startedOn k t1 = finishedOn k t1
    ∧ (startedOn k t1 ++ [o]) `prefix_of` enqueuedOn k tr.

(** The jobs by which the block under [k] works through its queue when the
    operations it awaits settle with the outcomes [rs], one after the other. *)
Fixpoint drainJobs (k : string) (rs : list (Settled string)) : list Job :=
  match rs with
  | [] => []
  | r :: rs' => Settle k r :: Resume k :: drainJobs k rs'
  end.

(** A caller that retries at once,
    [try { await llm.runAssistant(t, ..) } catch { await llm.runAssistant(t, ..) }],
    its first run failing.  The wrapper calls [reject], which queues the
    settling of the caller's promise, and then returns, which queues the
    resumption of the block; the block finds the queue empty and returns,
    which queues line 46.  The continuation of the caller, queued by the
    settling of its promise, thus runs after the return of the block and
    before line 46, and it submits again under the same key. *)
Definition retryAtOnce : list Job :=
  [ Enqueue "thread_1";
    Settle "thread_1" (Rejected "Error: Run failed with code server_error: overloaded");
    Resume "thread_1";
    Enqueue "thread_1";
    Clear "thread_1" ].

(** Where [retryAtOnce] leaves the queue. *)
Definition stranded : LLM :=
  mkLLM {[ "thread_1" := [1] ]} {[ "thread_1" := None ]} 2
    [ Enqueued "thread_1" 0; Started "thread_1" 0;
      Finished "thread_1" 0 (Rejected "Error: Run failed with code server_error: overloaded");
      Delivered 0 (Rejected "Error: Run failed with code server_error: overloaded");
      Enqueued "thread_1" 1 ].

Definition twoQueued : LLM :=
  enqueueOperation "thread_1" (enqueueOperation "thread_1" init).

End Queue.


(** * Sequential code: the state of the process and thrown errors *)

(** A computation runs from a state to a value or a thrown error, and a new
    state; [await] on a rejected promise throws. *)
Definition M (St A : Type) : Type := St → Settled A * St.

Definition ret {St A} (a : A) : M St A := λ s, (Fulfilled a, s).

Definition throw {St A} (e : string) : M St A := λ s, (Rejected e, s).

Definition bind {St A B} (m : M St A) (f : A → M St B) : M St B :=
  λ s, match m s with
       | (Fulfilled a, s') => f a s'
       | (Rejected e, s') => (Rejected e, s')
       end.

(** [try { m } catch (error) { handler error }] *)
Definition tryCatch {St A} (m : M St A) (handler : string → M St A) : M St A :=
  λ s, match m s with
       | (Fulfilled a, s') => (Fulfilled a, s')
       | (Rejected e, s') => handler e s'
       end.

Notation "'let!' x ':=' m 'in' k" := (bind m (λ x, k))
  (at level 10, x name, m at level 100, k at level 200).
Notation "m ';;' k" := (bind m (λ _, k))
  (at level 100, k at level 200, right associativity).

(** [for (const x of l) { await f(x) }] *)
Fixpoint forEach {St A} (f : A → M St unit) (l : list A) : M St unit :=
  match l with
  | [] => ret tt
  | x :: l' => f x ;; forEach f l'
  end.

(** [await Promise.all(l.map(async x => f(x)))]: the results in the order
    of [l]; the first rejection rejects the whole. *)
Fixpoint promiseAll {St A B} (f : A → M St B) (l : list A) : M St (list B) :=
  match l with
  | [] => ret []
  | x :: l' => let! y := f x in let! ys := promiseAll f l' in ret (y :: ys)
  end.

(** ** Data exchanged with the collaborators *)

(** A requested tool call: [id], [function.name], [function.arguments]. *)
Record ToolCall : Type := mkToolCall {
  id : string;
  name : string;
  arguments : string
}.

Record ToolOutput : Type := mkToolOutput {
  tool_call_id : string;
  output : string
}.

Record RequiredAction : Type := mkRequiredAction {
  type : string;
  tool_calls : list ToolCall
}.

Record LastError : Type := mkLastError {
  code : string;
  message : string
}.

(** A run as [runs.retrieve] returns it.  [incomplete_details] holds the
    text that [JSON.stringify] gives for the field. *)
Record Run : Type := mkRun {
  run_id : string;
  status : string;
  required_action : option RequiredAction;
  last_error : option LastError;
  incomplete_details : string
}.

(** The blocks a thread message is made of. *)
Inductive MessageContent : Type :=
| TextContentBlock (value : string)
| ImageFileContentBlock
| ImageURLContentBlock
| RefusalContentBlock.

Definition contentType (c : MessageContent) : string :=
  match c with
  | TextContentBlock _ => "text"
  | ImageFileContentBlock => "image_file"
  | ImageURLContentBlock => "image_url"
  | RefusalContentBlock => "refusal"
  end.

Record ThreadMessage : Type := mkThreadMessage {
  content : list MessageContent
}.

(** The object that [Bot.addMessage] serializes into the message text. *)
Record MessageInChat : Type := mkMessageInChat {
  channel_id : string;
  user_id : string;
  user_name : string;
  message_text : string
}.

Record MessageCreateParams : Type := mkMessageCreateParams {
  role : string;
  body : MessageInChat
}.

Record Author : Type := mkAuthor {
  author_id : string;
  author_name : string
}.

(** [MockMessage] of [types.ts]; a Discord message is read through the same
    fields. *)
Record MockMessage : Type := mkMockMessage {
  channelId : string;
  channelName : string;
  fromMe : bool;
  text : string;
  author : Author
}.

(** An identifier as the caller passes it: [this.threadIds[chatId]] and
    [await this.assistants[assistantName]] may be [undefined]. *)
Definition Handle := option string.

(** The requests the process sends out, in the order it sends them. *)
Inductive Request : Type :=
| CreateThread
| CreateMessage (thread : Handle) (params : MessageCreateParams)
| CreateRun (thread assistant : Handle) (last_messages : nat)
| RetrieveRun (thread : Handle) (run : string)
| SubmitToolOutputs (thread : Handle) (run : string) (outs : list ToolOutput)
| ListMessages (thread : Handle)
| CallTool (call : ToolCall)
| Sleep (ms : nat)
| FetchMessages (channel : string) (limit : nat)
| FetchChannel (channel : string)
| UpsertChannel (channel : string) (subscribed : bool)
| GetSubscribedChannelIds
| SelectNextBrainteaser
| Send (channel : string) (text : string).

Section Process.

(** Everything outside the process: the OpenAI service, the database and
    Discord. *)
Context {W : Type}.
(** Parsed JSON values. *)
Context {json : Type}.

(** The collaborators, each call a transition of the outside world that
    settles with a value or an error. *)
Record Service : Type := mkService {
  JSON_parse : string → Settled json;
  (* [String(value[property])]; throws when [value] is [null] *)
  JSON_get : json → string → Settled string;
  threads_create : W → Settled string * W;
  messages_create : Handle → MessageCreateParams → W → Settled unit * W;
  runs_create : Handle → Handle → nat → W → Settled Run * W;
  runs_retrieve : Handle → string → W → Settled Run * W;
  runs_submitToolOutputs :
    Handle → string → list ToolOutput → W → Settled Run * W;
  messages_list : Handle → W → Settled (list ThreadMessage) * W;
  channel_messages_fetch : string → nat → W → Settled (list MockMessage) * W;
  channel_isSendable : string → W → Settled bool * W;
  channel_send : string → string → W → Settled unit * W;
  db_upsertChannel : string → bool → W → Settled unit * W;
  db_getSubscribedChannelIds : W → Settled (list string) * W;
  db_selectNextBrainteaserOfTheDay : W → Settled string * W;
  (* the functions that every object inherits from [Object.prototype], by
     name, each by what a call with the given argument returns or throws;
     a call of one of them reaches nothing outside the engine *)
  Object_prototype : gmap string (json → Settled string)
}.

(** A tool handler: [(args: any) => Promise<string>].  The handlers the
    bot registers call the database or throw at once; none of them reads or
    writes a field of the bot or of the interface, so a handler is a
    transition of the outside world. *)
Definition Handler : Type := json → W → Settled string * W.

(** The mutable fields of the process, the world around it and the requests
    sent so far. *)
Record Process : Type := mkProcess {
  world : W;
  log : list Request;
  threadIds : gmap string string;
  subscriberChannels : list string;
  activeDMChannels : list string
}.

Definition setWorld (w : W) (rq : Request) (p : Process) : Process :=
  mkProcess w (log p ++ [rq]) (threadIds p) (subscriberChannels p)
            (activeDMChannels p).

(** Send a request and await its outcome. *)
Definition request {A} (rq : Request) (f : W → Settled A * W) : M Process A :=
  λ p, let '(r, w) := f (world p) in (r, setWorld w rq p).

(** A settled value met by synchronous code: a rejection is a throw. *)
Definition settled {A} (r : Settled A) : M Process A :=
  match r with Fulfilled a => ret a | Rejected e => throw e end.

End Process.

Arguments Service : clear implicits.
Arguments Handler : clear implicits.
Arguments Process : clear implicits.

(** * [LLM]: messages and runs *)

Module LLM.
Section LLM.

Context {W json : Type}.
Variable svc : Service W json.

Local Abbreviation Process := (Process W).
Local Abbreviation Handler := (Handler W json).

(** Texts of the errors the JavaScript engine raises by itself (V8's
    wording). *)
Definition notAFunction : string :=
  "TypeError: tools[tool_call.function.name] is not a function".
Definition noRequiredAction : string :=
  "TypeError: Cannot read properties of null (reading 'type')".
Definition noMessage : string :=
  "TypeError: Cannot read properties of undefined (reading 'content')".
Definition noContent : string :=
  "TypeError: Cannot read properties of undefined (reading 'type')".
Definition noText : string :=
  "TypeError: Cannot read properties of undefined (reading 'value')".

(** The text put in place of the output of a tool call that raised [error]
    (line 122). *)
Definition toolErrorOutput (name error : string) : string :=
  "Error occured while performing call to tool " +:+ name +:+ ": " +:+ error.

(** In a sequential run an operation is enqueued on an idle key and
    [Queue.enqueueOperation] starts it at once; its outcome is what the
    promise returned to the caller settles with. *)
Definition enqueueOperation {A} (threadId : Handle) (operation : M Process A)
  : M Process A := operation.

(** [createThread] (lines 67-69) *)
Definition createThread : M Process string :=
  request CreateThread (threads_create svc).

(** [addMessage] (lines 71-75) *)
Definition addMessage (threadId : Handle) (message : MessageCreateParams)
  : M Process unit :=
  enqueueOperation threadId
    (request (CreateMessage threadId message)
             (messages_create svc threadId message)).

(** One requested tool call (the callback of lines 110-125).  The callee
    [tools[name]] is read first, then the arguments are parsed, then the
    call is made; whatever is thrown on the way becomes the output.
    [tools] is a plain object: a name that is not a tool's may still be
    that of a function the object inherits, which is then the callee. *)
Definition callTool (tools : gmap string Handler) (tool_call : ToolCall)
  : M Process ToolOutput :=
  tryCatch
    (let callee := tools !! name tool_call in
     let inherited := Object_prototype svc !! name tool_call in
     let! args := settled (JSON_parse svc (arguments tool_call)) in
     match callee, inherited with
     | Some handler, _ =>
         let! out := request (CallTool tool_call) (handler args) in
         ret (mkToolOutput (id tool_call) out)
     | None, Some method =>
         let! out := settled (method args) in
         ret (mkToolOutput (id tool_call) out)
     | None, None => throw notAFunction
     end)
    (λ error,
       ret (mkToolOutput (id tool_call)
                         (toolErrorOutput (name tool_call) error))).

(** What one turn of the polling loop leads to. *)
Inductive Turn : Type :=
| Again (run : Run)
| Return (text : string).

(** The branch for [requires_action] (lines 102-131). *)
Definition requiresAction (threadId : Handle) (tools : gmap string Handler)
    (run : Run) : M Process Turn :=
  match required_action run with
  | None => throw noRequiredAction
  | Some action =>
      if decide (type action = "submit_tool_outputs") then
        tryCatch
          (let! tool_outputs := promiseAll (callTool tools) (tool_calls action) in
           let! run' :=
             request (SubmitToolOutputs threadId (run_id run) tool_outputs)
                     (runs_submitToolOutputs svc threadId (run_id run)
                                             tool_outputs) in
           ret (Again run'))
          (λ _, ret (Again run))
      else ret (Again run)
  end.

(** The branch for [completed] (lines 132-138). *)
Definition completed (threadId : Handle) : M Process Turn :=
  let! messages := request (ListMessages threadId) (messages_list svc threadId) in
  match messages with
  | [] => throw noMessage
  | message :: _ =>
      match content message with
      | [] => throw noContent
      | block :: _ =>
          if decide (contentType block = "text") then
            match block with
            | TextContentBlock value => ret (Return value)
            | _ => throw noText
            end
          else throw ("Error: Unknown message type: " +:+ contentType block)
      end
  end.

Definition showCode (e : option LastError) : string :=
  match e with Some e => code e | None => "undefined" end.
Definition showMessage (e : option LastError) : string :=
  match e with Some e => message e | None => "undefined" end.

(** One turn of [while (true)] (lines 100-148). *)
Definition turn (threadId : Handle) (tools : gmap string Handler) (run : Run)
  : M Process Turn :=
  let! run := request (RetrieveRun threadId (run_id run))
                      (runs_retrieve svc threadId (run_id run)) in
  if decide (status run = "requires_action") then
    requiresAction threadId tools run
  else if decide (status run = "completed") then
    completed threadId
  else if decide (status run = "failed") then
    throw ("Error: Run failed with code " +:+ showCode (last_error run)
             +:+ ": " +:+ showMessage (last_error run))
  else if decide (status run = "queued" ∨ status run = "in_progress") then
    request (Sleep 1000) (λ w, (Fulfilled tt, w)) ;; ret (Again run)
  else if decide (status run = "incomplete") then
    throw ("Error: Run is incomplete: " +:+ incomplete_details run)
  else
    throw ("Error: Unknown run status: " +:+ status run).

(** The loop, cut off after [fuel] turns: [None] when it is still polling. *)
Fixpoint poll (fuel : nat) (threadId : Handle) (tools : gmap string Handler)
    (run : Run) : M Process (option string) :=
  match fuel with
  | 0 => ret None
  | S fuel' =>
      let! t := turn threadId tools run in
      match t with
      | Again run' => poll fuel' threadId tools run'
      | Return text => ret (Some text)
      end
  end.

(** [runAssistant] (lines 85-150) *)
Definition runAssistant (fuel : nat) (threadId assistantId : Handle)
    (tools : gmap string Handler) : M Process (option string) :=
  enqueueOperation threadId
    (let! run := request (CreateRun threadId assistantId 50)
                         (runs_create svc threadId assistantId 50) in
     poll fuel threadId tools run).

End LLM.
End LLM.

(** ** What a tool output must be *)

Section Answers.

Context {W json : Type}.
Variable svc : Service W json.
Variable tools : gmap string (Handler W json).

(** The handler of the call is reached: the arguments parse and the tool is
    registered. *)
Definition invocable (tool_call : ToolCall) : bool :=
  match JSON_parse svc (arguments tool_call), tools !! name tool_call with
  | Fulfilled _, Some _ => true
  | _, _ => false
  end.

(** [o] answers [tool_call]: it carries the identifier of the call, and its
    text is what the handler returned, or the error text naming the tool
    and the error when the arguments do not parse, the handler raised, or
    the name is neither that of a registered tool nor that of a function
    every object inherits; a call that names an inherited function is
    answered by what that function returns, or by the error text when it
    throws. *)
Definition answers (tool_call : ToolCall) (o : ToolOutput) : Prop :=
  tool_call_id o = id tool_call
  ∧ match JSON_parse svc (arguments tool_call), tools !! name tool_call with
    | Rejected e, _ =>
        output o = LLM.toolErrorOutput (name tool_call) e
    | Fulfilled args, None =>
        match Object_prototype svc !! name tool_call with
        | None =>
            output o = LLM.toolErrorOutput (name tool_call) LLM.notAFunction
        | Some method =>
            match method args with
            | Fulfilled out => output o = out
            | Rejected e => output o = LLM.toolErrorOutput (name tool_call) e
            end
        end
    | Fulfilled args, Some handler =>
        ∃ w, match fst (handler args w) with
             | Fulfilled out => output o = out
             | Rejected e => output o = LLM.toolErrorOutput (name tool_call) e
             end
    end.

(** The handler invocations of one batch of calls. *)
Definition invocations (calls : list ToolCall) : list Request :=
  CallTool <$> filter (λ c, invocable c) calls.

(** The text of the most recent message when its first block is text. *)
Definition latestText (messages : list ThreadMessage) : option string :=
  match messages with
  | mkThreadMessage (TextContentBlock value :: _) :: _ => Some value
  | _ => None
  end.

(** The statuses on which the loop goes on. *)
Definition ongoing (status : string) : Prop :=
  status = "queued" ∨ status = "in_progress" ∨ status = "requires_action".

(** The statuses the loop does not know. *)
Definition unknown (status : string) : Prop :=
  ¬ ongoing status ∧ status ≠ "completed" ∧ status ≠ "failed"
  ∧ status ≠ "incomplete".

End Answers.

(** * [Bot]: one thread per chat *)

Module Bot.

Inductive MessageResponse : Type :=
| do_nothing
| react (content : string)
| reply (content : string).

(** Where a call of [getThreadId] stands after its first piece: it has
    returned the cached handle, or it has sent [createThread] and awaits the
    outcome (which the model already holds). *)
Inductive Entered : Type :=
| Cached (threadId : string)
| Allocating (outcome : Settled string).

Section Bot.

Context {W json : Type}.
Variable svc : Service W json.
(** [this.tools] and [this.assistants], filled by the constructor and not
    written afterwards; a promise of [assistants] is given by what it
    settles with. *)
Variable tools : gmap string (Handler W json).
Variable assistants : gmap string (Settled string).

Local Abbreviation Process := (Process W).

(** [if (this.threadIds[chatId])]: [undefined] and the empty string are
    falsy. *)
Definition cachedThread (chatId : string) (p : Process) : option string :=
  match threadIds p !! chatId with
  | Some threadId => if decide (threadId = "") then None else Some threadId
  | None => None
  end.

(** What [getThreadId] sends for a chat: nothing when a handle is cached. *)
Definition allocation (chatId : string) (p : Process) : list Request :=
  match cachedThread chatId p with
  | Some _ => []
  | None => [CreateThread]
  end.

Definition setThreadId (chatId threadId : string) (p : Process) : Process :=
  mkProcess (world p) (log p) (<[chatId := threadId]> (threadIds p))
            (subscriberChannels p) (activeDMChannels p).

(** [getThreadId] up to its [await] (lines 277-281 of the bot class). *)
Definition getThreadId_enter (chatId : string) (p : Process)
  : Entered * Process :=
  match cachedThread chatId p with
  | Some threadId => (Cached threadId, p)
  | None => let '(r, p') := LLM.createThread svc p in (Allocating r, p')
  end.

(** [getThreadId] after its [await] (lines 281-283). *)
Definition getThreadId_resume (chatId : string) (outcome : Settled string)
  : M Process string :=
  match outcome with
  | Fulfilled threadId => λ p, (Fulfilled threadId, setThreadId chatId threadId p)
  | Rejected e => throw e
  end.

(** [getThreadId] run without interruption. *)
Definition getThreadId (chatId : string) : M Process string :=
  λ p, match getThreadId_enter chatId p with
       | (Cached threadId, p') => (Fulfilled threadId, p')
       | (Allocating r, p') => getThreadId_resume chatId r p'
       end.

(** The message that [addMessage] creates for a chat message. *)
Definition toParams (message : MockMessage) : MessageCreateParams :=
  mkMessageCreateParams
    (if fromMe message then "assistant" else "user")
    (mkMessageInChat (channelId message) (author_id (author message))
                     (author_name (author message)) (text message)).

(** [addMessage] *)
Definition addMessage (chatId : string) (message : MockMessage)
  : M Process unit :=
  let! threadId := getThreadId chatId in
  LLM.addMessage svc (Some threadId) (toParams message).

(** [addMessages] *)
Definition addMessages (chatId : string) (messages : list MockMessage)
  : M Process unit :=
  forEach (addMessage chatId) messages.

(** [await this.assistants[assistantName]] *)
Definition awaitAssistant (assistantName : string) : M Process Handle :=
  match assistants !! assistantName with
  | Some (Fulfilled assistantId) => ret (Some assistantId)
  | Some (Rejected e) => throw e
  | None => ret None
  end.

(** The end of [response]: the text of the run is parsed and the action it
    names is turned into a [MessageResponse] ([None]: the loop was cut off
    before the run ended). *)
Definition interpret (answer : option string)
  : M Process (option MessageResponse) :=
  match answer with
  | None => ret None
  | Some text =>
      let! response := settled (JSON_parse svc text) in
      let! action := settled (JSON_get svc response "action") in
      if decide (action = "do_nothing") then ret (Some do_nothing)
      else if decide (action = "react") then
        let! emoji := settled (JSON_get svc response "emoji_if_action_is_react") in
        ret (Some (react emoji))
      else if decide (action = "reply") then
        let! content := settled (JSON_get svc response "content_if_action_is_reply") in
        ret (Some (reply content))
      else throw ("Error: Unknown action: " +:+ action)
  end.

(** [response]: the arguments of [runAssistant] are evaluated from left to
    right, the thread handle first. *)
Definition response (fuel : nat) (chatId assistantName : string)
  : M Process (option MessageResponse) :=
  let! threadId := (λ p, (Fulfilled (threadIds p !! chatId), p)) in
  let! assistantId := awaitAssistant assistantName in
  let! answer := LLM.runAssistant svc fuel threadId assistantId tools in
  interpret answer.

(** ** Calls of [getThreadId] that overlap *)

(** The calls made so far, those suspended at [await this.llm.createThread()]
    with the chat they serve and the outcome they will wake up to, and what
    the finished calls returned. *)
Record Calls : Type := mkCalls {
  process : Process;
  made : nat;
  suspended : gmap nat (string * Settled string);
  returned : gmap nat (Settled string)
}.

Inductive Job : Type :=
| Call (chatId : string)
| Resume (call : nat).

Definition step (j : Job) (c : Calls) : option Calls :=
  match j with
  | Call chatId =>
      match getThreadId_enter chatId (process c) with
      | (Cached threadId, p) =>
          Some (mkCalls p (S (made c)) (suspended c)
                        (<[made c := Fulfilled threadId]> (returned c)))
      | (Allocating r, p) =>
          Some (mkCalls p (S (made c)) (<[made c := (chatId, r)]> (suspended c))
                        (returned c))
      end
  | Resume i =>
      match suspended c !! i with
      | Some (chatId, r) =>
          let '(result, p) := getThreadId_resume chatId r (process c) in
          Some (mkCalls p (made c) (delete i (suspended c))
                        (<[i := result]> (returned c)))
      | None => None
      end
  end.

Fixpoint exec (js : list Job) (c : Calls) : option Calls :=
  match js with
  | [] => Some c
  | j :: js' => match step j c with Some c' => exec js' c' | None => None end
  end.

Definition start (p : Process) : Calls := mkCalls p 0 ∅ ∅.

(** The service never hands out the empty string as a thread. *)
Definition nonEmptyThreads : Prop :=
  ∀ w threadId w',
    threads_create svc w = (Fulfilled threadId, w') → threadId ≠ "".

(** The number of threads asked for. *)
Definition isCreateThread (rq : Request) : bool :=
  match rq with CreateThread => true | _ => false end.

Definition allocations (p : Process) : nat :=
  length (filter isCreateThread (log p)).

End Bot.
End Bot.

(** * [DiscordInterface]: subscriptions, activation, broadcast *)

Module DiscordInterface.
Section DiscordInterface.

Context {W json : Type}.
Variable svc : Service W json.

Local Abbreviation Process := (Process W).

Definition setSubscriberChannels (l : list string) (p : Process) : Process :=
  mkProcess (world p) (log p) (threadIds p) l (activeDMChannels p).

Definition setActiveDMChannels (l : list string) (p : Process) : Process :=
  mkProcess (world p) (log p) (threadIds p) (subscriberChannels p) l.

(** The handler of the command [subscribe] (lines 118-131), without the
    replies to the interaction. *)
Definition subscribe (channelId : string) : M Process unit :=
  tryCatch
    (request (UpsertChannel channelId true)
             (db_upsertChannel svc channelId true) ;;
     λ p, (Fulfilled tt,
           setSubscriberChannels (subscriberChannels p ++ [channelId]) p))
    (λ _, ret tt).

(** The handler of the command [unsubscribe] (lines 133-146). *)
Definition unsubscribe (channelId : string) : M Process unit :=
  tryCatch
    (request (UpsertChannel channelId false)
             (db_upsertChannel svc channelId false) ;;
     λ p, (Fulfilled tt,
           setSubscriberChannels
             (filter (λ id, id ≠ channelId) (subscriberChannels p)) p))
    (λ _, ret tt).

(** One element of the [map] of lines 309-315: the channel is fetched and,
    when it can be sent to, the text is sent; the promise is left alone, so
    a rejection goes nowhere. *)
Definition deliver (botd channelId : string) : M Process unit :=
  tryCatch
    (let! sendable := request (FetchChannel channelId)
                              (channel_isSendable svc channelId) in
     if sendable : bool
     then request (Send channelId botd) (channel_send svc channelId botd)
     else ret tt)
    (λ _, ret tt).

(** [broadcastBrainteaserOfTheDay] (lines 295-316).  The deliveries are not
    awaited and may land in any order; they are taken here in the order of
    the list. *)
Definition broadcastBrainteaserOfTheDay : M Process unit :=
  let! botd :=
    tryCatch
      (request SelectNextBrainteaser (db_selectNextBrainteaserOfTheDay svc))
      (λ error,
         ret ("Error selecting next brainteaser of the day: " +:+ error)) in
  λ p, forEach (deliver botd) (subscriberChannels p) p.

(** [getLastMessages] (lines 335-348): the messages as Discord returns
    them, the most recent first; none when the fetch fails. *)
Definition getLastMessages (channelId : string) (limit : nat)
  : M Process (list MockMessage) :=
  tryCatch
    (request (FetchMessages channelId limit)
             (channel_messages_fetch svc channelId limit))
    (λ _, ret []).

(** [addMessageToBotThread] (lines 350-361): the chat is the one the message
    names, not the first argument. *)
Definition addMessageToBotThread (_ : string) (message : MockMessage)
  : M Process unit :=
  Bot.addMessage svc (channelId message) message.

(** [intializeSubscribers] (lines 363-371): the list is loaded from the
    table of channels, then the recent messages of each channel are
    replayed. *)
Definition intializeSubscribers : M Process unit :=
  let! ids := request GetSubscribedChannelIds
                      (db_getSubscribedChannelIds svc) in
  (λ p, (Fulfilled tt, setSubscriberChannels ids p)) ;;
  let! _ := promiseAll
              (λ channelId,
                 let! messages := getLastMessages channelId 30 in
                 forEach (addMessageToBotThread channelId) (reverse messages))
              ids in
  ret tt.

(** The message was read from the channel [c]. *)
Definition fromChannel (c : string) (message : MockMessage) : Prop :=
  channelId message = c.

(** [activateDMChannel] (lines 373-387), run without another handler in
    between *)
Definition activateDMChannel (channelId : string) : M Process unit :=
  λ p,
    if bool_decide (channelId ∈ activeDMChannels p) then (Fulfilled tt, p)
    else
      tryCatch
        (let! messages := getLastMessages channelId 30 in
         forEach (addMessageToBotThread channelId) (reverse messages) ;;
         λ p', (Fulfilled tt,
                setActiveDMChannels (activeDMChannels p' ++ [channelId]) p'))
        (λ _, ret tt) p.

(** The texts sent to a channel. *)
Definition sentTo (channelId : string) (l : list Request) : list string :=
  omap (λ rq, match rq with
              | Send c t => if decide (c = channelId) then Some t else None
              | _ => None
              end) l.

End DiscordInterface.
End DiscordInterface.

(** * What a computation leaves alone *)

Section Frames.

Context {W : Type}.

Local Abbreviation Process := (Process W).

(** A computation that leaves the fields of the bot and of the interface
    alone and only adds to the log. *)
Definition keeps {A} (m : M Process A) : Prop :=
  ∀ p, threadIds (m p).2 = threadIds p
       ∧ subscriberChannels (m p).2 = subscriberChannels p
       ∧ activeDMChannels (m p).2 = activeDMChannels p
       ∧ ∃ rqs, log (m p).2 = log p ++ rqs
                ∧ Forall (λ rq, Bot.isCreateThread rq = false) rqs.

(** A computation that leaves the two lists of the interface alone and only
    adds to the log. *)
Definition grows {A} (m : M Process A) : Prop :=
  ∀ p, subscriberChannels (m p).2 = subscriberChannels p
       ∧ activeDMChannels (m p).2 = activeDMChannels p
       ∧ ∃ rqs, log (m p).2 = log p ++ rqs.

End Frames.

(** * A scripted outside world

    The world holds the table of channels of the database, keyed by the
    channel as the table is, and, for each kind of request, the outcomes
    still to be handed out; a request whose script has run out is rejected.
    A thread is named [thread_] followed by what the script says. *)

Module Demo.

Record World : Type := mkWorld {
  channels : gmap string bool;
  freshThreads : list (Settled string);
  appends : list (Settled unit);
  polls : list (Settled Run);
  submissions : list (Settled Run);
  inbox : Settled (list ThreadMessage);
  history : Settled (list MockMessage)
}.

Definition connectionError : string := "Error: Connection error.".

Definition next {A} (l : list (Settled A)) : Settled A * list (Settled A) :=
  match l with
  | [] => (Rejected connectionError, [])
  | r :: l' => (r, l')
  end.

Definition service : Service World string :=
  {| JSON_parse := λ s, Fulfilled s;
     JSON_get := λ value property, Fulfilled value;
     threads_create := λ w,
       let '(r, l) := next (freshThreads w) in
       (match r with
        | Fulfilled n => Fulfilled ("thread_" +:+ n)
        | Rejected e => Rejected e
        end,
        mkWorld (channels w) l (appends w) (polls w) (submissions w)
                (inbox w) (history w));
     messages_create := λ _ _ w,
       let '(r, l) := next (appends w) in
       (r, mkWorld (channels w) (freshThreads w) l (polls w) (submissions w)
                   (inbox w) (history w));
     runs_create := λ _ _ _ w,
       (Fulfilled (mkRun "run_1" "queued" None None "null"), w);
     runs_retrieve := λ _ _ w,
       let '(r, l) := next (polls w) in
       (r, mkWorld (channels w) (freshThreads w) (appends w) l (submissions w)
                   (inbox w) (history w));
     runs_submitToolOutputs := λ _ _ _ w,
       let '(r, l) := next (submissions w) in
       (r, mkWorld (channels w) (freshThreads w) (appends w) (polls w) l
                   (inbox w) (history w));
     messages_list := λ _ w, (inbox w, w);
     channel_messages_fetch := λ _ _ w, (history w, w);
     channel_isSendable := λ _ w, (Fulfilled true, w);
     channel_send := λ _ _ w, (Fulfilled tt, w);
     db_upsertChannel := λ channel_id subscribed w,
       (Fulfilled tt,
        mkWorld (<[channel_id := subscribed]> (channels w)) (freshThreads w)
                (appends w) (polls w) (submissions w) (inbox w) (history w));
     db_getSubscribedChannelIds := λ w,
       (Fulfilled (map_to_list (filter (λ kv, kv.2 = true) (channels w))).*1,
        w);
     db_selectNextBrainteaserOfTheDay := λ w,
       (Fulfilled "**Brainteaser of the Day #1: Two doors**", w);
     Object_prototype :=
       {[ "toString" := λ _, Fulfilled "[object Object]";
          "toLocaleString" := λ _, Fulfilled "[object Object]" ]} |}.

(** Two of the registered tools: [getLeaderboard] answers, [checkSolution]
    is the stub of [llm.ts] that always throws. *)
Definition tools : gmap string (Handler World string) :=
  {[ "getLeaderboard" :=
       (λ _ w, (Fulfilled "1. Ada: 3 points", w)) : Handler World string;
     "checkSolution" :=
       (λ _ w, (Rejected "Error: Disabled until better models are available.", w))
       : Handler World string ]}.

Definition assistants : gmap string (Settled string) :=
  {[ "moderator" := Fulfilled "asst_1";
     "DM_assistant" := Fulfilled "asst_2";
     "motivator" := Fulfilled "asst_3" ]}.

Definition quiet : World := mkWorld ∅ [] [] [] [] (Fulfilled []) (Fulfilled []).

Definition fresh (w : World) : Process World := mkProcess w [] ∅ [] [].

(** A run that asks for three tools, one of them not registered. *)
Definition threeCalls : list ToolCall :=
  [ mkToolCall "call_1" "getLeaderboard" "{}";
    mkToolCall "call_2" "lookupSolutions" "{}";
    mkToolCall "call_3" "checkSolution" "{}" ].

Definition asking : Run :=
  mkRun "run_1" "requires_action"
        (Some (mkRequiredAction "submit_tool_outputs" threeCalls)) None "null".

(** A run that asks for [toString], which is not the name of a tool. *)
Definition askingInherited : Run :=
  mkRun "run_1" "requires_action"
        (Some (mkRequiredAction "submit_tool_outputs"
                 [mkToolCall "call_4" "toString" "{}"])) None "null".

Definition queuedRun : Run := mkRun "run_1" "queued" None None "null".

Definition completedRun : Run := mkRun "run_1" "completed" None None "null".

Definition answered : list ThreadMessage :=
  [ mkThreadMessage [TextContentBlock "do_nothing"] ].

(** The service asks for the three tools, takes the outputs and goes on. *)
Definition toolWorld : World :=
  mkWorld ∅ [] [] [Fulfilled asking] [Fulfilled queuedRun]
          (Fulfilled answered) (Fulfilled []).

(** The service asks for [toString], takes the output and goes on. *)
Definition inheritedWorld : World :=
  mkWorld ∅ [] [] [Fulfilled askingInherited] [Fulfilled queuedRun]
          (Fulfilled answered) (Fulfilled []).

(** The submission of the outputs fails and the run still asks for the same
    tools at the next poll. *)
Definition flakyWorld : World :=
  mkWorld ∅ [] [] [Fulfilled asking; Fulfilled asking]
          [Rejected connectionError; Fulfilled queuedRun]
          (Fulfilled answered) (Fulfilled []).

(** The run is found completed and the thread ends with a text. *)
Definition completedWorld : World :=
  mkWorld ∅ [] [] [Fulfilled completedRun] [] (Fulfilled answered)
          (Fulfilled []).

(** The run asks for the three tools, then is found completed. *)
Definition twoTurns : World :=
  mkWorld ∅ [] [] [Fulfilled asking; Fulfilled completedRun]
          [Fulfilled queuedRun] (Fulfilled answered) (Fulfilled []).

(** The run is found failed. *)
Definition failedWorld : World :=
  mkWorld ∅ [] []
          [Fulfilled (mkRun "run_1" "failed" None
                            (Some (mkLastError "server_error" "overloaded"))
                            "null")]
          [] (Fulfilled answered) (Fulfilled []).

(** The service hands out two threads. *)
Definition twoThreads : World :=
  mkWorld ∅ [Fulfilled "1"; Fulfilled "2"] [] [] []
          (Fulfilled []) (Fulfilled []).

(** Two calls of [getThreadId] for one chat, the second made while the
    first awaits its thread. *)
Definition overlapping : list Bot.Job :=
  [ Bot.Call "dm_1"; Bot.Call "dm_1"; Bot.Resume 0; Bot.Resume 1 ].

Definition hello : MockMessage :=
  mkMockMessage "dm_1" "Ada" false "Hello" (mkAuthor "user_1" "Ada").

Definition riddle : MockMessage :=
  mkMockMessage "dm_1" "Ada" false "Here is a riddle" (mkAuthor "user_1" "Ada").

(** A direct-message channel with two earlier messages, [hello] the older;
    the second message created in the thread is rejected, the later ones
    are accepted. *)
Definition lossyWorld : World :=
  mkWorld ∅ [Fulfilled "1"]
          [Fulfilled tt; Rejected connectionError; Fulfilled tt; Fulfilled tt]
          [] [] (Fulfilled []) (Fulfilled [riddle; hello]).

(** The same channel with a service that accepts every message. *)
Definition steadyWorld : World :=
  mkWorld ∅ [Fulfilled "1"] [Fulfilled tt; Fulfilled tt]
          [] [] (Fulfilled []) (Fulfilled [riddle; hello]).

(** A channel subscribed twice over. *)
Definition subscribedTwice : Process World :=
  (DiscordInterface.subscribe service "chan_1"
     (DiscordInterface.subscribe service "chan_1" (fresh quiet)).2).2.

(** The channel of [lossyWorld] after one call of [activateDMChannel], and
    the outcome of the next call. *)
Definition lossyOnce : Settled unit * Process World :=
  DiscordInterface.activateDMChannel service "dm_1" (fresh lossyWorld).

Definition lossyTwice : Settled unit * Process World :=
  DiscordInterface.activateDMChannel service "dm_1" lossyOnce.2.

End Demo.

(** * Further readings of the history of the queue *)

Module History.
Import Queue.

(** The operations finished under a key, each with its outcome. *)
Definition outcomesOn (k : string) (tr : list Event)
  : list (OpId * Settled string) :=
  omap (λ e, match e with
             | Finished k' op r => if decide (k' = k) then Some (op, r) else None
             | _ => None end) tr.

(** The outcomes of the operations in the order in which they settled, and
    the outcomes handed to the promises of the callers in the order in which
    they were handed out. *)
Definition outcomes (tr : list Event) : list (OpId * Settled string) :=
  omap (λ e, match e with Finished _ op r => Some (op, r) | _ => None end) tr.

Definition deliveries (tr : list Event) : list (OpId * Settled string) :=
  omap (λ e, match e with Delivered op r => Some (op, r) | _ => None end) tr.

(** The key has no promise in place and nothing queued. *)
Definition idle (s : LLM) (k : string) : Prop :=
  truthy (processingPromise s !! k) = false ∧ queueOf s k = [].

(** One operation from submission to the clearing of the promise. *)
Definition loneRun (k : string) (r : Settled string) : list Job :=
  [Enqueue k; Settle k r; Resume k; Clear k].

(** A block at work on its first operation with two more queued behind. *)
Definition threeQueued : LLM :=
  enqueueOperation "thread_1"
    (enqueueOperation "thread_1" (enqueueOperation "thread_1" init)).

End History.

(** * Further readings of a run *)

Module Polling.
Section Polling.

Context {W json : Type}.
Variable svc : Service W json.

Local Abbreviation Process := (Process W).

(** The status is one on which the loop sleeps and polls again. *)
Definition pending (status : string) : bool :=
  bool_decide (status = "queued" ∨ status = "in_progress").

(** [n] polls in a row that find the run queued or in progress: the run
    and the process after the sleep that follows the last of them. *)
Fixpoint waits (n : nat) (threadId : Handle) (run : Run) (p : Process)
  : option (Run * Process) :=
  match n with
  | 0 => Some (run, p)
  | S n' =>
      match runs_retrieve svc threadId (run_id run) (world p) with
      | (Fulfilled run', w) =>
          if pending (status run')
          then waits n' threadId run'
                 (setWorld w (Sleep 1000)
                    (setWorld w (RetrieveRun threadId (run_id run)) p))
          else None
      | (Rejected _, _) => None
      end
  end.

(** The number of sleeps of one second among the requests. *)
Definition isSleep (rq : Request) : bool :=
  match rq with Sleep ms => bool_decide (ms = 1000) | _ => false end.

Definition sleeps (l : list Request) : nat := length (filter isSleep l).

End Polling.
End Polling.

(** * The text of a broadcast *)

Module Broadcast.
Section Broadcast.

Context {W json : Type}.
Variable svc : Service W json.

(** The text that [broadcastBrainteaserOfTheDay] sends (lines 304-309): the
    brainteaser selected, or the error of the selection after a fixed
    prefix. *)
Definition text (p : Process W) : string :=
  match (db_selectNextBrainteaserOfTheDay svc (world p)).1 with
  | Fulfilled botd => botd
  | Rejected error =>
      "Error selecting next brainteaser of the day: " +:+ error
  end.

End Broadcast.
End Broadcast.

(** * The handlers of the gateway events

    The handlers that the constructor of [DiscordInterface] registers for
    [messageCreate] and [interactionCreate] (lines 106-271).  Beside the
    requests of [Process] they make calls on the message or the interaction
    at hand and on the parts of the bot and of the database that the
    commands read; these are kept in a second list, the outbox. *)

Module Gateway.

Inductive Call : Type :=
| SendTyping (channel : string)
| MessageReply (to : MockMessage) (content : string)
| MessageReact (to : MockMessage) (emoji : string)
| Reply (content : string) (ephemeral : bool)
| DeferReply (ephemeral : bool)
| EditReply (content : string)
| GetCurrentBrainteaser
| GetLeaderboard (channel : string)
| GetBrainteasersLeft.

(** A message as the event hands it over: whether its channel is a direct
    message channel, and the fields the handler reads, all of them there
    to be read. *)
Record Incoming : Type := mkIncoming {
  isDM : bool;
  received : MockMessage
}.

(** What the handler of [messageCreate] may send back for one message: the
    typing indicator of a direct message channel, and one reply or one
    reaction. *)
Definition typing (incoming : Incoming) : list Call :=
  if isDM incoming then [SendTyping (channelId (received incoming))] else [].

Definition answersAtMostOnce (incoming : Incoming) (calls : list Call)
  : Prop :=
  calls = []
  ∨ calls = typing incoming
  ∨ (∃ content,
       calls = typing incoming ++ [MessageReply (received incoming) content])
  ∨ (∃ emoji,
       calls = typing incoming ++ [MessageReact (received incoming) emoji]).

(** [this.commands], by name (lines 43-90). *)
Definition commands : list string :=
  [ "test"; "subscribe"; "unsubscribe"; "get_current_botd";
    "select_next_botd"; "motivate"; "leaderboard"; "brainteasers_left" ].

Definition notSurveyed : string :=
  "Error: Can not survey a channel which is not subscribed to Brainteaser of the Day.".

Definition noLeaderboard : string :=
  "Error: Can not get leaderboard of a channel which is not subscribed to Brainteaser of the Day.".

Section Gateway.

Context {W json : Type}.

(** The interaction at hand and what the commands read beside [Service]:
    the awaited calls on the interaction, [getCurrentBrainteaserOfTheDay] of
    the bot, and two queries of the database. *)
Record Desk : Type := mkDesk {
  interaction_reply : string → bool → W → Settled unit * W;
  interaction_deferReply : bool → W → Settled unit * W;
  interaction_editReply : string → W → Settled unit * W;
  bot_getCurrentBrainteaserOfTheDay : W → Settled string * W;
  db_getLeaderboard : string → W → Settled string * W;
  db_getBrainteasersLeft : W → Settled string * W
}.

Variable svc : Service W json.
Variable desk : Desk.
Variable tools : gmap string (Handler W json).
Variable assistants : gmap string (Settled string).
(** The number of polls a run is followed for. *)
Variable fuel : nat.

Record Gateway : Type := mkGateway {
  process : Process W;
  outbox : list Call
}.

(** A computation of the process, run inside a handler. *)
Definition lift {A} (m : M (Process W) A) : M Gateway A :=
  λ g, let '(r, p) := m (process g) in (r, mkGateway p (outbox g)).

(** A call that is awaited. *)
Definition call {A} (c : Call) (f : W → Settled A * W) : M Gateway A :=
  λ g, let '(r, w) := f (world (process g)) in
       (r, mkGateway (mkProcess w (log (process g)) (threadIds (process g))
                        (subscriberChannels (process g))
                        (activeDMChannels (process g)))
                     (outbox g ++ [c])).

(** A call whose promise is dropped. *)
Definition post (c : Call) : M Gateway unit :=
  λ g, (Fulfilled tt, mkGateway (process g) (outbox g ++ [c])).

(** The callback given to [then] in lines 253-259 and 261-267; nothing is
    done for a run that was not followed to its end. *)
Definition dispatch (to : MockMessage) (response : option Bot.MessageResponse)
  : M Gateway unit :=
  match response with
  | Some (Bot.reply content) => post (MessageReply to content)
  | Some (Bot.react emoji) => post (MessageReact to emoji)
  | Some Bot.do_nothing => ret tt
  | None => ret tt
  end.

Definition listens (incoming : Incoming) (g : Gateway) : bool :=
  isDM incoming
  || bool_decide (channelId (received incoming)
                  ∈ subscriberChannels (process g)).

(** The handler of [messageCreate] (lines 236-271) *)
Definition messageCreate (incoming : Incoming) : M Gateway unit :=
  let m := received incoming in
  λ g,
    if listens incoming g then
      (lift (Bot.addMessage svc (channelId m) m) ;;
       if fromMe m then ret tt
       else if isDM incoming then
         lift (DiscordInterface.activateDMChannel svc (channelId m)) ;;
         post (SendTyping (channelId m)) ;;
         let! response :=
           lift (Bot.response svc tools assistants fuel (channelId m)
                   "DM_assistant") in
         dispatch m response
       else
         λ g',
           if bool_decide (channelId m ∈ subscriberChannels (process g'))
           then
             (let! response :=
                lift (Bot.response svc tools assistants fuel (channelId m)
                        "moderator") in
              dispatch m response) g'
           else (Fulfilled tt, g')) g
    else (Fulfilled tt, g).

Definition defer (ephemeral : bool) : M Gateway unit :=
  call (DeferReply ephemeral) (interaction_deferReply desk ephemeral).

Definition edit (content : string) : M Gateway unit :=
  call (EditReply content) (interaction_editReply desk content).

(** [test] (lines 111-116) *)
Definition test : M Gateway unit :=
  call (Reply "Pong!" true) (interaction_reply desk "Pong!" true).

(** [subscribe] (lines 118-131) *)
Definition subscribe (channel : string) : M Gateway unit :=
  defer false ;;
  tryCatch
    (lift (request (UpsertChannel channel true)
             (db_upsertChannel svc channel true)) ;;
     lift (λ p, (Fulfilled tt,
                 DiscordInterface.setSubscriberChannels
                   (subscriberChannels p ++ [channel]) p)) ;;
     edit "You have subscribed to Brainteaser of the Day in this channel!")
    (λ error, edit ("Error subscribing to Brainteaser of the Day: " +:+ error)).

(** [unsubscribe] (lines 133-146) *)
Definition unsubscribe (channel : string) : M Gateway unit :=
  defer false ;;
  tryCatch
    (lift (request (UpsertChannel channel false)
             (db_upsertChannel svc channel false)) ;;
     lift (λ p, (Fulfilled tt,
                 DiscordInterface.setSubscriberChannels
                   (filter (λ id, id ≠ channel) (subscriberChannels p)) p)) ;;
     edit "You have unsubscribed from Brainteaser of the Day in this channel!")
    (λ error,
       edit ("Error unsubscribing from Brainteaser of the Day: " +:+ error)).

(** [get_current_botd] (lines 148-161) *)
Definition get_current_botd : M Gateway unit :=
  defer true ;;
  let! botd :=
    tryCatch
      (call GetCurrentBrainteaser (bot_getCurrentBrainteaserOfTheDay desk))
      (λ error,
         ret ("Error getting current brainteaser of the day: " +:+ error)) in
  edit botd.

(** [select_next_botd] (lines 163-177) *)
Definition select_next_botd : M Gateway unit :=
  defer true ;;
  tryCatch
    (lift (DiscordInterface.broadcastBrainteaserOfTheDay svc) ;;
     edit "Selected next Brainteaser of the Day!")
    (λ error,
       edit ("Error selecting next brainteaser of the day: " +:+ error)).

(** [channel.send(motivate.content)] of line 190: the promise is dropped. *)
Definition sendMotivation (channel : string)
    (motivate : option Bot.MessageResponse) : M (Process W) unit :=
  match motivate with
  | Some (Bot.reply content) | Some (Bot.react content) =>
      tryCatch (request (Send channel content) (channel_send svc channel content))
               (λ _, ret tt)
  | Some Bot.do_nothing => ret tt
  | None => ret tt
  end.

(** [motivate] (lines 179-200); a run that was not followed to its end
    leaves the handler where it waits. *)
Definition motivate (channel : string) : M Gateway unit :=
  defer true ;;
  tryCatch
    ((λ g, if bool_decide (channel ∈ subscriberChannels (process g))
           then (Fulfilled tt, g) else (Rejected notSurveyed, g)) ;;
     let! motivate :=
       lift (Bot.response svc tools assistants fuel channel "motivator") in
     match motivate with
     | None => ret tt
     | Some _ =>
         let! sendable :=
           lift (request (FetchChannel channel)
                   (channel_isSendable svc channel)) in
         (if sendable : bool then lift (sendMotivation channel motivate)
          else ret tt) ;;
         edit "Motivation sent!"
     end)
    (λ error, edit ("Error sending motivation: " +:+ error)).

(** [get_leaderboard] (lines 202-217) *)
Definition get_leaderboard (channel : string) : M Gateway unit :=
  defer true ;;
  tryCatch
    ((λ g, if bool_decide (channel ∈ subscriberChannels (process g))
           then (Fulfilled tt, g) else (Rejected noLeaderboard, g)) ;;
     let! leaderboard :=
       call (GetLeaderboard channel) (db_getLeaderboard desk channel) in
     edit leaderboard)
    (λ error, edit ("Error getting leaderboard: " +:+ error)).

(** [brainteasers_left] (lines 219-231) *)
Definition brainteasers_left : M Gateway unit :=
  defer true ;;
  tryCatch
    (let! brainteasersLeft :=
       call GetBrainteasersLeft (db_getBrainteasersLeft desk) in
     edit brainteasersLeft)
    (λ error, edit ("Error getting brainteasers left: " +:+ error)).

(** [if (commandName === name) { ... }] *)
Definition when (commandName name : string) (m : M Gateway unit)
  : M Gateway unit :=
  if decide (commandName = name) then m else ret tt.

(** The handler of [interactionCreate] (lines 106-234) *)
Definition interactionCreate (isChatInputCommand : bool)
    (commandName channel : string) : M Gateway unit :=
  if isChatInputCommand then
    when commandName "test" test ;;
    when commandName "subscribe" (subscribe channel) ;;
    when commandName "unsubscribe" (unsubscribe channel) ;;
    when commandName "get_current_botd" get_current_botd ;;
    when commandName "select_next_botd" select_next_botd ;;
    when commandName "motivate" (motivate channel) ;;
    when commandName "get_leaderboard" (get_leaderboard channel) ;;
    when commandName "brainteasers_left" brainteasers_left
  else ret tt.

(** The calls on the interaction always go through. *)
Definition repliesGoThrough : Prop :=
  (∀ content ephemeral w,
     (interaction_reply desk content ephemeral w).1 = Fulfilled tt)
  ∧ (∀ ephemeral w, (interaction_deferReply desk ephemeral w).1 = Fulfilled tt)
  ∧ (∀ content w, (interaction_editReply desk content w).1 = Fulfilled tt).

(** The calls on the interaction among those of the outbox. *)
Definition onInteraction (c : Call) : bool :=
  match c with
  | Reply _ _ | DeferReply _ | EditReply _ => true
  | _ => false
  end.

Definition isCreateRun (rq : Request) : bool :=
  match rq with CreateRun _ _ _ => true | _ => false end.

End Gateway.

Arguments Desk : clear implicits.
Arguments Gateway : clear implicits.

(** A computation that only adds to the outbox. *)
Definition appends {W A} (m : M (Gateway W) A) : Prop :=
  ∀ g, ∃ calls, outbox (m g).2 = outbox g ++ calls.

(** A computation that adds to the outbox no call on the interaction. *)
Definition unanswered {W A} (m : M (Gateway W) A) : Prop :=
  ∀ g, ∃ calls, outbox (m g).2 = outbox g ++ calls
                ∧ filter onInteraction calls = [].

(** The commands that defer the reply and edit it at their end, whatever
    the run of an assistant does. *)
Definition deferring : list string :=
  [ "subscribe"; "unsubscribe"; "get_current_botd"; "select_next_botd";
    "get_leaderboard"; "brainteasers_left" ].

End Gateway.

(** * The database interface and the pipelines of the bot

    [DBInterface] (the class of [database/index.ts]) and the methods of
    [Bot] that the tools and the commands reach it through.  A query of
    [this.sql] is a transition of the database that settles with the rows
    it returns; the queries sent are kept in the order they are sent.
    Numbers are integers: the keys of the tables. *)

From stdpp Require pretty.

Module Database.

Inductive Query : Type :=
| InsertUser (user_id name : string)
| InsertBrainteaser (title question user_id : string)
                    (category : option string)
| InsertSolution (brainteaser_id : Z) (solution user_id : string)
| SelectBrainteaserOfBotd (botd_id : Z)
| SelectUnused
| InsertBotd (brainteaser_id : Z)
| MarkUsed (botd_id brainteaser_id : Z)
| SelectUserName (user_id : string)
| SelectLatestBotd.

(** A row of [brainteasers], as far as it is read. *)
Record Brainteaser : Type := mkBrainteaser {
  id : Z;
  title : string;
  question : string;
  category : option string;
  submitted_by : string
}.

(** What [INSERT INTO botd ... RETURNING id, date_of] returns. *)
Record Botd : Type := mkBotd {
  botd_id : Z;
  date_of : string
}.

(** [BrainteaserOfTheDay] of [types.ts] *)
Record BrainteaserOfTheDay : Type := mkBrainteaserOfTheDay {
  number : Botd;
  of_title : string;
  of_question : string;
  of_submitted_by : string;
  of_category : option string
}.

(** The double quote. *)
Definition quote : string :=
  String (Ascii.Ascii false true false false false true false false)
         EmptyString.

Definition noneEligible : string :=
  "Error: No eligible brainteasers for Brainteaser of the Day found. All brainteasers in the database have already been used for Brainteaser of the Day.".

Definition noneSet : string :=
  "Error: No Brainteaser of the Day has been set yet.".

(** The messages of the errors that the interface throws. *)
Definition couldNotCreateUser (user_id error : string) : string :=
  "Error: Could not create user " +:+ user_id +:+ ". " +:+ error.

Definition couldNotInsertBrainteaser (title error : string) : string :=
  "Error: Could not insert brainteaser titled " +:+ quote +:+ title +:+ quote
  +:+ ". This typically happens when a brainteaser with the same title already exists, because you are attempting to submit the same brainteaser multiple times. If you think this is a coincidence, try submitting the brainteaser again with a different title. "
  +:+ error.

Definition couldNotInsertSolution (brainteaser_id : Z) (error : string)
  : string :=
  "Error: Could not insert solution to Brainteaser with ID="
  +:+ pretty.pretty brainteaser_id +:+ ". " +:+ error.

Definition couldNotInsertSolutionToBotd (botd_id : Z) : string :=
  "Error: Could not insert solution to Brainteaser of the Day #"
  +:+ pretty.pretty botd_id
  +:+ ". This typically happens when botd_id is an invalid ID for a Brainteaser of the Day. Please check if your are using the correct ID. You can find the ID=X of the current Brainteaser of the Day by looking for the latest message that starts with "
  +:+ quote +:+ "Brainteaser of the Day #X" +:+ quote +:+ ".".

Definition couldNotGetCurrent (error : string) : string :=
  "Error: Could not get current Brainteaser of the Day. " +:+ error.

(** [formatBrainteaserOfTheDay] of the bot (lines 382-385) *)
Definition formatBrainteaserOfTheDay (brainteaser : BrainteaserOfTheDay)
  : string :=
  "**Brainteaser of the Day #"
  +:+ pretty.pretty (botd_id (number brainteaser)) +:+ ": "
  +:+ of_title brainteaser +:+ "**

" +:+ of_question brainteaser +:+ "

*Submitted by " +:+ of_submitted_by brainteaser +:+ "*".

(** [if (submitted_solution)]: [undefined] and the empty string are
    falsy. *)
Definition given (solution : option string) : option string :=
  match solution with
  | Some s => if decide (s = "") then None else Some s
  | None => None
  end.

Section Database.

Context {W : Type}.

(** [this.sql], one field for each statement. *)
Record Sql : Type := mkSql {
  sql_insertUser : string → string → W → Settled unit * W;
  sql_insertBrainteaser :
    string → string → string → option string → W → Settled (list Z) * W;
  sql_insertSolution : Z → string → string → W → Settled (list Z) * W;
  sql_selectBrainteaserOfBotd : Z → W → Settled (list Z) * W;
  sql_selectUnused : W → Settled (list Brainteaser) * W;
  sql_insertBotd : Z → W → Settled (list Botd) * W;
  sql_markUsed : Z → Z → W → Settled unit * W;
  sql_selectUserName : string → W → Settled (list string) * W;
  sql_selectLatestBotd : W → Settled (list BrainteaserOfTheDay) * W
}.

Variable sql : Sql.
(** What [String(error)] gives for the [TypeError] thrown on reading the
    named property of [undefined]. *)
Variable typeError : string → string.

Record Store : Type := mkStore {
  db : W;
  queries : list Query
}.

Definition query {A} (q : Query) (f : W → Settled A * W) : M Store A :=
  λ s, let '(r, w) := f (db s) in (r, mkStore w (queries s ++ [q])).

(** [const [ row ] = rows; ... row.property] *)
Definition firstRow {A} (property : string) (rows : list A) : M Store A :=
  match rows with
  | row :: _ => ret row
  | [] => throw (typeError property)
  end.

(** [createUser] (lines 75-81 of the class) *)
Definition createUser (user_id user_name : string) : M Store unit :=
  tryCatch
    (query (InsertUser user_id user_name) (sql_insertUser sql user_id user_name))
    (λ error, throw (couldNotCreateUser user_id error)).

(** [insertBrainteaser] (lines 84-94) *)
Definition insertBrainteaser (title question user_id : string)
    (category : option string) : M Store Z :=
  tryCatch
    (let! data := query (InsertBrainteaser title question user_id category)
                    (sql_insertBrainteaser sql title question user_id
                       category) in
     firstRow "id" data)
    (λ error, throw (couldNotInsertBrainteaser title error)).

(** [insertSolution] (lines 97-106) *)
Definition insertSolution (brainteaser_id : Z) (solution user_id : string)
  : M Store Z :=
  tryCatch
    (let! rows := query (InsertSolution brainteaser_id solution user_id)
                    (sql_insertSolution sql brainteaser_id solution user_id) in
     firstRow "id" rows)
    (λ error, throw (couldNotInsertSolution brainteaser_id error)).

(** [insertSolutionToBotd] (lines 149-157): the user is created outside
    the [try]. *)
Definition insertSolutionToBotd (botd_id : Z)
    (solution user_id user_name : string) : M Store Z :=
  createUser user_id user_name ;;
  tryCatch
    (let! rows := query (SelectBrainteaserOfBotd botd_id)
                    (sql_selectBrainteaserOfBotd sql botd_id) in
     let! brainteaser_id := firstRow "id" rows in
     insertSolution brainteaser_id solution user_id)
    (λ _, throw (couldNotInsertSolutionToBotd botd_id)).

(** [getCurrentBrainteaserOfTheDay] (lines 180-191) *)
Definition getCurrentBrainteaserOfTheDay : M Store BrainteaserOfTheDay :=
  tryCatch
    (let! rows := query SelectLatestBotd (sql_selectLatestBotd sql) in
     match rows with
     | [] => throw noneSet
     | botd :: _ => ret botd
     end)
    (λ error, throw (couldNotGetCurrent error)).

(** [selectNextBrainteaserOfTheDay] (lines 193-214) *)
Definition selectNextBrainteaserOfTheDay : M Store BrainteaserOfTheDay :=
  tryCatch
    (let! rows := query SelectUnused (sql_selectUnused sql) in
     match rows with
     | [] => throw noneEligible
     | brainteaser :: _ =>
         let! inserted := query (InsertBotd (id brainteaser))
                            (sql_insertBotd sql (id brainteaser)) in
         let! botd := firstRow "id" inserted in
         query (MarkUsed (botd_id botd) (id brainteaser))
               (sql_markUsed sql (botd_id botd) (id brainteaser)) ;;
         let! users := query (SelectUserName (submitted_by brainteaser))
                         (sql_selectUserName sql (submitted_by brainteaser)) in
         let! name := firstRow "name" users in
         ret (mkBrainteaserOfTheDay botd (title brainteaser)
                (question brainteaser) name (category brainteaser))
     end)
    (λ error, throw error).

(** ** The methods of the bot *)

(** [submitBrainteaserPipeline] (lines 324-359 of the bot class) *)
Definition submitBrainteaserPipeline (title question : string)
    (solution category : option string) (user_id user_name : string)
  : M Store string :=
  tryCatch
    (createUser user_id user_name ;;
     let! brainteaser_id := insertBrainteaser title question user_id category in
     match given solution with
     | Some submitted_solution =>
         insertSolution brainteaser_id submitted_solution user_id ;; ret tt
     | None => ret tt
     end ;;
     ret ("Successfully submitted brainteaser! Assigned ID: "
          +:+ pretty.pretty brainteaser_id))
    (λ error,
       ret ("Failed to submit brainteaser due to the following error: "
            +:+ error)).

(** [submitSolutionPipeline] (lines 361-380) *)
Definition submitSolutionPipeline (botd_id : Z)
    (solution submitted_by_user_id submitted_by_user_name : string)
  : M Store string :=
  tryCatch
    (let! solution_id :=
       insertSolutionToBotd botd_id solution submitted_by_user_id
         submitted_by_user_name in
     ret ("Successfully submitted solution! Assigned ID: "
          +:+ pretty.pretty solution_id))
    (λ error, throw error).

(** [getCurrentBrainteaserOfTheDay] of the bot (lines 387-394) *)
Definition currentBrainteaserOfTheDay : M Store string :=
  tryCatch
    (let! brainteaser := getCurrentBrainteaserOfTheDay in
     ret (formatBrainteaserOfTheDay brainteaser))
    (λ error, throw error).

(** [selectNextBrainteaserOfTheDay] of the bot (lines 396-403) *)
Definition nextBrainteaserOfTheDay : M Store string :=
  tryCatch
    (let! brainteaser := selectNextBrainteaserOfTheDay in
     ret (formatBrainteaserOfTheDay brainteaser))
    (λ error, throw error).

End Database.

Definition isInsertSolution (q : Query) : bool :=
  match q with InsertSolution _ _ _ => true | _ => false end.

(** The two texts that [submitBrainteaserPipeline] returns. *)
Definition submitted (brainteaser_id : Z) : string :=
  "Successfully submitted brainteaser! Assigned ID: "
  +:+ pretty.pretty brainteaser_id.

Definition notSubmitted (error : string) : string :=
  "Failed to submit brainteaser due to the following error: " +:+ error.

Arguments Sql : clear implicits.
Arguments Store : clear implicits.

End Database.

(** * The broadcast of the motivation *)

Module Motivation.

(** The requests that a run of an assistant is made of. *)
Definition fromRun (rq : Request) : bool :=
  match rq with
  | CreateRun _ _ _ | RetrieveRun _ _ | SubmitToolOutputs _ _ _
  | ListMessages _ | CallTool _ | Sleep _ => true
  | _ => false
  end.

Section Motivation.

Context {W json : Type}.
Variable svc : Service W json.
Variable tools : gmap string (Handler W json).
Variable assistants : gmap string (Settled string).
Variable fuel : nat.

Local Abbreviation Process := (Process W).

(** A computation whose requests are those of a run. *)
Definition runsOnly {A} (m : M Process A) : Prop :=
  ∀ p, ∃ rqs, log (m p).2 = log p ++ rqs
              ∧ Forall (λ rq, fromRun rq = true) rqs.

(** [channel.send(response.content)] of lines 325 and 327: the promise is
    dropped. *)
Definition send (channel content : string) : M Process unit :=
  tryCatch (request (Send channel content) (channel_send svc channel content))
           (λ _, ret tt).

(** One element of the [map] of lines 320-332: the channel is fetched and,
    when it can be sent to, the motivator is run on its thread and what it
    replies or reacts with is sent; no promise is awaited, so a rejection
    goes nowhere. *)
Definition motivateChannel (channel : string) : M Process unit :=
  tryCatch
    (let! sendable := request (FetchChannel channel)
                              (channel_isSendable svc channel) in
     if sendable : bool then
       let! response :=
         Bot.response svc tools assistants fuel channel "motivator" in
       match response with
       | Some (Bot.reply content) => send channel content
       | Some (Bot.react content) => send channel content
       | Some Bot.do_nothing => ret tt
       | None => ret tt
       end
     else ret tt)
    (λ _, ret tt).

(** [broadcastMotivation] (lines 318-333).  The channels are served side
    by side; they are taken here in the order of the list. *)
Definition broadcastMotivation : M Process unit :=
  λ p, forEach motivateChannel (subscriberChannels p) p.

End Motivation.
End Motivation.

(** * [activateDMChannel], cut at its [await]s

    [DiscordInterface.activateDMChannel] is the call run without another
    handler in between.  The handler of [messageCreate] awaits it, and a
    second message of the same channel may be handled meanwhile: the call
    is cut here where it first awaits, after the test of the list and the
    request for the history. *)

Module Activation.
Section Activation.

Context {W json : Type}.
Variable svc : Service W json.

Local Abbreviation Process := (Process W).

(** The call up to its first [await] (lines 374-377): it returns at once
    for a channel that is listed ([None]); otherwise it has asked for the
    history of the channel and awaits it (which the model already holds). *)
Definition enter (channel : string) (p : Process)
  : option (list MockMessage) * Process :=
  if bool_decide (channel ∈ activeDMChannels p) then (None, p)
  else
    match DiscordInterface.getLastMessages svc channel 30 p with
    | (Fulfilled messages, p') => (Some messages, p')
    | (Rejected _, p') => (Some [], p')
    end.

(** The call after that [await] (lines 378-385): the history is replayed
    and the channel is pushed; the list is not read again. *)
Definition resume (channel : string) (messages : list MockMessage)
  : M Process unit :=
  tryCatch
    (forEach (DiscordInterface.addMessageToBotThread svc channel)
             (reverse messages) ;;
     λ p, (Fulfilled tt,
           DiscordInterface.setActiveDMChannels
             (activeDMChannels p ++ [channel]) p))
    (λ _, ret tt).

(** The process and the calls that await their history, each with its
    channel and the history it will wake up to, the oldest call first. *)
Record Calls : Type := mkCalls {
  process : Process;
  suspended : list (string * list MockMessage)
}.

Inductive Job : Type :=
| Call (channel : string)
| Resume (call : nat).

Definition step (j : Job) (c : Calls) : option Calls :=
  match j with
  | Call channel =>
      match enter channel (process c) with
      | (None, p) => Some (mkCalls p (suspended c))
      | (Some messages, p) =>
          Some (mkCalls p (suspended c ++ [(channel, messages)]))
      end
  | Resume call =>
      match suspended c !! call with
      | Some (channel, messages) =>
          Some (mkCalls (resume channel messages (process c)).2
                        (delete call (suspended c)))
      | None => None
      end
  end.

Fixpoint exec (js : list Job) (c : Calls) : option Calls :=
  match js with
  | [] => Some c
  | j :: js' => match step j c with
                | Some c' => exec js' c'
                | None => None
                end
  end.

Definition start (p : Process) : Calls := mkCalls p [].

(** Two calls for one channel, the second made while the first awaits the
    history. *)
Definition overlapping (channel : string) : list Job :=
  [Call channel; Call channel; Resume 0; Resume 0].

End Activation.

Arguments Calls : clear implicits.

End Activation.

(** * The handler of [messageCreate], its requests and calls in one list

    [Gateway] keeps the requests of the process and the calls on the
    message at hand in two lists, which tell the order of the requests and
    the order of the calls, not the order of a request and a call.  Here
    the handler is read once more, statement by statement, with every
    request and every call added to one list as it is made. *)

Module Timeline.

Inductive Event : Type :=
| Asked (rq : Request)
| Sent (c : Gateway.Call).

Section Timeline.

Context {W json : Type}.
Variable svc : Service W json.
Variable tools : gmap string (Handler W json).
Variable assistants : gmap string (Settled string).
Variable fuel : nat.

Record Timed : Type := mkTimed {
  gateway : Gateway.Gateway W;
  events : list Event
}.

(** The requests that [after] has made since [before]. *)
Definition since (before after : Process W) : list Request :=
  drop (length (log before)) (log after).

(** A computation of the process, run inside a handler: its requests are
    added in the order it made them. *)
Definition lift {A} (m : M (Process W) A) : M Timed A :=
  λ t, let '(r, g) := Gateway.lift m (gateway t) in
       (r, mkTimed g
             (events t
              ++ (Asked <$> since (Gateway.process (gateway t))
                                  (Gateway.process g)))).

(** A call whose promise is dropped. *)
Definition post (c : Gateway.Call) : M Timed unit :=
  λ t, let '(r, g) := Gateway.post c (gateway t) in
       (r, mkTimed g (events t ++ [Sent c])).

(** The callback given to [then] in lines 253-259 and 261-267. *)
Definition dispatch (to : MockMessage) (response : option Bot.MessageResponse)
  : M Timed unit :=
  match response with
  | Some (Bot.reply content) => post (Gateway.MessageReply to content)
  | Some (Bot.react emoji) => post (Gateway.MessageReact to emoji)
  | Some Bot.do_nothing => ret tt
  | None => ret tt
  end.

(** The handler of [messageCreate] (lines 236-271) *)
Definition messageCreate (incoming : Gateway.Incoming) : M Timed unit :=
  let m := Gateway.received incoming in
  λ t,
    if Gateway.listens incoming (gateway t) then
      (lift (Bot.addMessage svc (channelId m) m) ;;
       if fromMe m then ret tt
       else if Gateway.isDM incoming then
         lift (DiscordInterface.activateDMChannel svc (channelId m)) ;;
         post (Gateway.SendTyping (channelId m)) ;;
         let! response :=
           lift (Bot.response svc tools assistants fuel (channelId m)
                   "DM_assistant") in
         dispatch m response
       else
         λ t',
           if bool_decide (channelId m
                           ∈ subscriberChannels
                               (Gateway.process (gateway t')))
           then
             (let! response :=
                lift (Bot.response svc tools assistants fuel (channelId m)
                        "moderator") in
              dispatch m response) t'
           else (Fulfilled tt, t')) t
    else (Fulfilled tt, t).

(** [timed] does to the gateway what [plain] does. *)
Definition tracks {A} (timed : M Timed A) (plain : M (Gateway.Gateway W) A)
  : Prop :=
  ∀ t, (timed t).1 = (plain (gateway t)).1
       ∧ gateway (timed t).2 = (plain (gateway t)).2.

End Timeline.

Arguments Timed : clear implicits.

End Timeline.

(** * A small database

    The tables as far as the pipelines touch them: the users in the order
    they were created, the brainteasers each with the brainteaser of the
    day it was used for, the solutions, and the brainteasers of the day by
    the brainteaser they hold.  A title is taken once, a row gets the next
    number of its table, and the table of solutions can be out of reach. *)

Module Ledger.

Record World : Type := mkWorld {
  users : list (string * string);
  brainteasers : list (Database.Brainteaser * option Z);
  solutions : list (Z * string * string);
  botd : list Z;
  solutionsInReach : bool
}.

Definition duplicateTitle : string :=
  "PostgresError: duplicate key value violates unique constraint".

Definition typeError (property : string) : string :=
  "TypeError: Cannot read properties of undefined (reading '"
  +:+ property +:+ "')".

Definition next {A} (rows : list A) : Z := Z.of_nat (S (length rows)).

Definition sql : Database.Sql World :=
  Database.mkSql
    (λ user_id name w,
       (Fulfilled tt,
        if bool_decide (user_id ∈ (users w).*1) then w
        else mkWorld (users w ++ [(user_id, name)]) (brainteasers w)
               (solutions w) (botd w) (solutionsInReach w)))
    (λ title question user_id category w,
       if bool_decide (title ∈ Database.title <$> (brainteasers w).*1)
       then (Rejected duplicateTitle, w)
       else (Fulfilled [next (brainteasers w)],
             mkWorld (users w)
               (brainteasers w
                ++ [(Database.mkBrainteaser (next (brainteasers w)) title
                       question category user_id, None)])
               (solutions w) (botd w) (solutionsInReach w)))
    (λ brainteaser_id solution user_id w,
       if solutionsInReach w
       then (Fulfilled [next (solutions w)],
             mkWorld (users w) (brainteasers w)
               (solutions w ++ [(brainteaser_id, solution, user_id)])
               (botd w) (solutionsInReach w))
       else (Rejected Demo.connectionError, w))
    (λ botd_id w,
       (Fulfilled
          (Database.id
             <$> (filter (λ row, row.2 = Some botd_id) (brainteasers w)).*1),
        w))
    (λ w,
       (Fulfilled (take 1 (filter (λ row, row.2 = None) (brainteasers w)).*1),
        w))
    (λ brainteaser_id w,
       (Fulfilled [Database.mkBotd (next (botd w)) "2024-11-05"],
        mkWorld (users w) (brainteasers w) (solutions w)
          (botd w ++ [brainteaser_id]) (solutionsInReach w)))
    (λ botd_id brainteaser_id w,
       (Fulfilled tt,
        mkWorld (users w)
          ((λ row : Database.Brainteaser * option Z,
              if decide (Database.id row.1 = brainteaser_id)
              then (row.1, Some botd_id) else row) <$> brainteasers w)
          (solutions w) (botd w) (solutionsInReach w)))
    (λ user_id w,
       (Fulfilled (filter (λ row, row.1 = user_id) (users w)).*2, w))
    (λ w, (Fulfilled [], w)).

Definition store (w : World) : Database.Store World := Database.mkStore w [].

(** No rows yet. *)
Definition empty : World := mkWorld [] [] [] [] true.

(** The same with the table of solutions out of reach. *)
Definition solutionsDown : World := mkWorld [] [] [] [] false.

(** One brainteaser submitted by Ada, not used yet. *)
Definition oneLeft : World :=
  mkWorld [("user_1", "Ada")]
    [(Database.mkBrainteaser 1 "Two doors" "Which door leads out?"
        (Some "logic") "user_1", None)]
    [] [] true.

End Ledger.

(** * More scripted worlds *)

Module Scenes.

(** The service of [Demo] with the creation of runs out of order. *)
Definition offline : Service Demo.World string :=
  mkService (JSON_parse Demo.service) (JSON_get Demo.service)
    (threads_create Demo.service) (messages_create Demo.service)
    (λ _ _ _ w, (Rejected Demo.connectionError, w))
    (runs_retrieve Demo.service) (runs_submitToolOutputs Demo.service)
    (messages_list Demo.service) (channel_messages_fetch Demo.service)
    (channel_isSendable Demo.service) (channel_send Demo.service)
    (db_upsertChannel Demo.service) (db_getSubscribedChannelIds Demo.service)
    (db_selectNextBrainteaserOfTheDay Demo.service)
    (Object_prototype Demo.service).

Definition inProgress : Run := mkRun "run_1" "in_progress" None None "null".

(** The run is found queued, then in progress, then completed. *)
Definition slowWorld : Demo.World :=
  Demo.mkWorld ∅ [] []
    [Fulfilled Demo.queuedRun; Fulfilled inProgress; Fulfilled Demo.completedRun]
    [] (Fulfilled Demo.answered) (Fulfilled []).

(** The run is found completed but its messages cannot be listed. *)
Definition unlistedWorld : Demo.World :=
  Demo.mkWorld ∅ [] [] [Fulfilled Demo.completedRun] []
    (Rejected Demo.connectionError) (Fulfilled []).

(** The run requires an action of a type the loop does not serve. *)
Definition approval : Run :=
  mkRun "run_1" "requires_action" (Some (mkRequiredAction "approve" []))
        None "null".

Definition approvalWorld : Demo.World :=
  Demo.mkWorld ∅ [] [] [Fulfilled approval; Fulfilled Demo.completedRun] []
    (Fulfilled Demo.answered) (Fulfilled []).

(** A chat that has its thread, with the service of [Demo.lossyWorld]. *)
Definition known : Process Demo.World :=
  Bot.setThreadId "dm_1" "thread_1" (Demo.fresh Demo.lossyWorld).

(** A first message is accepted and the run that follows completes. *)
Definition firstContact : Demo.World :=
  Demo.mkWorld ∅ [Fulfilled "1"] [Fulfilled tt] [Fulfilled Demo.completedRun]
    [] (Fulfilled Demo.answered) (Fulfilled []).

(** The service of [Demo] with the database out of reach. *)
Definition noDatabase : Service Demo.World string :=
  mkService (JSON_parse Demo.service) (JSON_get Demo.service)
    (threads_create Demo.service) (messages_create Demo.service)
    (runs_create Demo.service)
    (runs_retrieve Demo.service) (runs_submitToolOutputs Demo.service)
    (messages_list Demo.service) (channel_messages_fetch Demo.service)
    (channel_isSendable Demo.service) (channel_send Demo.service)
    (λ _ _ w, (Rejected Demo.connectionError, w))
    (λ w, (Rejected Demo.connectionError, w))
    (λ w, (Rejected Demo.connectionError, w))
    (Object_prototype Demo.service).

(** Two channels subscribed, one after the other. *)
Definition twoChannels : Process Demo.World :=
  (DiscordInterface.subscribe Demo.service "chan_2"
     (DiscordInterface.subscribe Demo.service "chan_1"
        (Demo.fresh Demo.quiet)).2).2.

(** A channel whose history cannot be fetched. *)
Definition unreadable : Demo.World :=
  Demo.mkWorld ∅ [] [] [] [] (Fulfilled [])
    (Rejected Demo.connectionError).

(** An interaction on which every call goes through, a bot that knows the
    current brainteaser and a database that answers. *)
Definition desk : Gateway.Desk Demo.World :=
  Gateway.mkDesk
    (λ _ _ w, (Fulfilled tt, w))
    (λ _ w, (Fulfilled tt, w))
    (λ _ w, (Fulfilled tt, w))
    (λ w, (Fulfilled "**Brainteaser of the Day #1: Two doors**", w))
    (λ _ w, (Fulfilled "**Leaderboard**", w))
    (λ w, (Fulfilled "Brainteasers left: 3", w)).

(** A gateway that has sent nothing yet. *)
Definition idle (p : Process Demo.World) : Gateway.Gateway Demo.World :=
  Gateway.mkGateway p [].

(** A first direct message of a user, and a message of the bot itself. *)
Definition greeting : Gateway.Incoming := Gateway.mkIncoming true Demo.hello.

Definition echo : Gateway.Incoming :=
  Gateway.mkIncoming true
    (mkMockMessage "dm_1" "Ada" true "Welcome" (mkAuthor "bot_1" "Brian")).

(** A message of a user in the channel [chan_1]. *)
Definition attempt : Gateway.Incoming :=
  Gateway.mkIncoming false
    (mkMockMessage "chan_1" "general" false "Is it the left door?"
       (mkAuthor "user_1" "Ada")).

(** The channel [chan_1] subscribed, in the world of [firstContact]. *)
Definition serving : Process Demo.World :=
  DiscordInterface.setSubscriberChannels ["chan_1"]
    (Demo.fresh firstContact).

(** The run of the assistant ends with a reply. *)
Definition replying : Demo.World :=
  Demo.mkWorld ∅ [Fulfilled "1"] [Fulfilled tt] [Fulfilled Demo.completedRun]
    [] (Fulfilled [mkThreadMessage [TextContentBlock "reply"]])
    (Fulfilled []).

(** A direct-message channel with two earlier messages and a service that
    accepts four messages. *)
Definition patient : Demo.World :=
  Demo.mkWorld ∅ [Fulfilled "1"]
    [Fulfilled tt; Fulfilled tt; Fulfilled tt; Fulfilled tt]
    [] [] (Fulfilled []) (Fulfilled [Demo.riddle; Demo.hello]).

(** The service of [Demo] with channels that cannot be sent to. *)
Definition muted : Service Demo.World string :=
  mkService (JSON_parse Demo.service) (JSON_get Demo.service)
    (threads_create Demo.service) (messages_create Demo.service)
    (runs_create Demo.service)
    (runs_retrieve Demo.service) (runs_submitToolOutputs Demo.service)
    (messages_list Demo.service) (channel_messages_fetch Demo.service)
    (λ _ w, (Fulfilled false, w)) (channel_send Demo.service)
    (db_upsertChannel Demo.service) (db_getSubscribedChannelIds Demo.service)
    (db_selectNextBrainteaserOfTheDay Demo.service)
    (Object_prototype Demo.service).

(** The channel [chan_1] subscribed, with a motivator that replies. *)
Definition coached : Process Demo.World :=
  DiscordInterface.setSubscriberChannels ["chan_1"] (Demo.fresh replying).

End Scenes.

(** * Properties of the serialized queue *)

Section QueueFacts.
Import Queue.

Lemma enqueuedOn_app k t1 t2 :
  enqueuedOn k (t1 ++ t2) = enqueuedOn k t1 ++ enqueuedOn k t2.
Proof. apply omap_app. Qed.

Lemma startedOn_app k t1 t2 :
  startedOn k (t1 ++ t2) = startedOn k t1 ++ startedOn k t2.
Proof. apply omap_app. Qed.

Lemma finishedOn_app k t1 t2 :
  finishedOn k (t1 ++ t2) = finishedOn k t1 ++ finishedOn k t2.
Proof. apply omap_app. Qed.

Lemma finishedOn_elem k op tr :
  op ∈ finishedOn k tr ↔ ∃ r, Finished k op r ∈ tr.
Proof.
  unfold finishedOn. rewrite list_elem_of_omap. split.
  - intros [e [He Hm]]. destruct e; try discriminate.
    case_decide; [|discriminate]. simplify_eq. eauto.
  - intros [r Hr]. exists (Finished k op r). split; [done|].
    simpl. by rewrite decide_True.
Qed.

Lemma queueOf_insert_eq k q oq pp n tr :
  queueOf (mkLLM (<[k := q]> oq) pp n tr) k = q.
Proof. unfold queueOf. simpl. by rewrite lookup_insert_eq. Qed.

Lemma queueOf_insert_ne k k' q oq pp n tr :
  k ≠ k' →
  queueOf (mkLLM (<[k := q]> oq) pp n tr) k' = default [] (oq !! k').
Proof. intros. unfold queueOf. simpl. by rewrite lookup_insert_ne. Qed.

Lemma inFlight_insert_eq k b oq pp n tr :
  inFlight (mkLLM oq (<[k := b]> pp) n tr) k =
  match b with Some (Awaiting op) => [op] | _ => [] end.
Proof. unfold inFlight. simpl. by rewrite lookup_insert_eq. Qed.

Lemma inFlight_insert_ne k k' b oq pp n tr s :
  k ≠ k' → processingPromise s = pp →
  inFlight (mkLLM oq (<[k := b]> pp) n tr) k' = inFlight s k'.
Proof. intros ? <-. unfold inFlight. simpl. by rewrite lookup_insert_ne. Qed.


Lemma startsInTurn_snoc tr e :
  startsInTurn tr →
  (∀ k o, e = Started k o →
     startedOn k tr = finishedOn k tr
     ∧ (startedOn k tr ++ [o]) `prefix_of` enqueuedOn k (tr ++ [e])) →
  startsInTurn (tr ++ [e]).
Proof.
  intros H He k o t1 t2 Heq.
  destruct t2 as [|x t2' _] using rev_ind.
  - apply app_inj_tail in Heq as [-> ->]. by apply He.
  - rewrite app_comm_cons, app_assoc in Heq.
    apply app_inj_tail in Heq as [-> ->].
    destruct (H k o t1 t2' eq_refl) as [H1 H2]. split; [done|].
    rewrite enqueuedOn_app. by apply prefix_app_r.
Qed.

Lemma runBlock_ok k s :
  queueInv s → startsInTurn (trace s) → inFlight s k = [] →
  queueInv (runBlock k s) ∧ startsInTurn (trace (runBlock k s)).
Proof.
  intros Hinv Hh Hidle. unfold runBlock.
  destruct (queueOf s k) as [|op rest] eqn:Hq.
  - split; [|done]. intros k'.
    destruct (Hinv k') as (He & Hs & Hlt & Hnd). simpl.
    repeat split; try done.
    destruct (decide (k = k')) as [<-|Hne].
    + rewrite inFlight_insert_eq. by rewrite Hs, Hidle.
    + by rewrite (inFlight_insert_ne k k' _ _ _ _ _ s).
  - split.
    + intros k'. destruct (Hinv k') as (He & Hs & Hlt & Hnd). simpl.
      destruct (decide (k = k')) as [<-|Hne].
      * rewrite queueOf_insert_eq, inFlight_insert_eq.
        rewrite enqueuedOn_app, startedOn_app, finishedOn_app. simpl.
        rewrite decide_True by done. rewrite !app_nil_r.
        rewrite Hq in He. rewrite Hidle, app_nil_r in Hs.
        repeat split; try done.
        -- rewrite He. by rewrite <- app_assoc.
        -- by rewrite Hs.
      * rewrite queueOf_insert_ne by done.
        rewrite (inFlight_insert_ne k k' _ _ _ _ _ s) by done.
        rewrite enqueuedOn_app, startedOn_app, finishedOn_app. simpl.
        rewrite decide_False by done. rewrite !app_nil_r.
        repeat split; done.
    + simpl. apply startsInTurn_snoc; [done|].
      intros k' o [= <- <-].
      destruct (Hinv k) as (He & Hs & _).
      rewrite Hidle, app_nil_r in Hs. split; [done|].
      rewrite enqueuedOn_app, He, Hq. simpl. rewrite app_nil_r.
      exists rest. by rewrite <- app_assoc.
Qed.

Lemma enqueueOperation_ok k s :
  queueInv s → startsInTurn (trace s) →
  queueInv (enqueueOperation k s) ∧ startsInTurn (trace (enqueueOperation k s)).
Proof.
  intros Hinv Hh. unfold enqueueOperation.
  set (s1 := mkLLM _ _ _ _).
  assert (Hinv1 : queueInv s1).
  { intros k'. destruct (Hinv k') as (He & Hs & Hlt & Hnd). subst s1. simpl.
    change (inFlight (mkLLM _ (processingPromise s) _ _) k')
      with (inFlight s k').
    destruct (decide (k = k')) as [<-|Hne];
      rewrite enqueuedOn_app, startedOn_app, finishedOn_app; simpl;
      rewrite !app_nil_r.
    - rewrite queueOf_insert_eq. rewrite decide_True by done.
      repeat split; try done.
      + by rewrite He, app_assoc.
      + intros op [Hop | ->%list_elem_of_singleton]%elem_of_app; [|lia].
        apply Hlt in Hop. lia.
      + apply NoDup_app. repeat split; [done | | apply NoDup_singleton].
        intros op Hop ->%list_elem_of_singleton. apply Hlt in Hop. lia.
    - rewrite queueOf_insert_ne by done. rewrite decide_False by done.
      rewrite app_nil_r. repeat split; try done.
      intros op Hop. apply Hlt in Hop. lia. }
  assert (Hh1 : startsInTurn (trace s1)).
  { subst s1. simpl. apply startsInTurn_snoc; [done|]. intros; discriminate. }
  unfold processQueue.
  destruct (truthy (processingPromise s1 !! k)) eqn:Ht; [done|].
  apply runBlock_ok; [done..|].
  unfold inFlight. unfold truthy in Ht.
  by destruct (processingPromise s1 !! k) as [[[]|]|].
Qed.

Lemma step_ok j s s' :
  step j s = Some s' →
  queueInv s → startsInTurn (trace s) →
  queueInv s' ∧ startsInTurn (trace s').
Proof.
  destruct j as [k|k r|k|k]; simpl.
  - intros [= <-]. apply enqueueOperation_ok.
  - unfold settle. destruct (processingPromise s !! k) as [[[op| |]|]|] eqn:Hp;
      try discriminate.
    intros [= <-] Hinv Hh. split.
    + intros k'. destruct (Hinv k') as (He & Hs & Hlt & Hnd). simpl.
      change (queueOf (mkLLM (operationQueue s) _ _ _) k') with (queueOf s k').
      destruct (decide (k = k')) as [<-|Hne].
      * rewrite inFlight_insert_eq.
        rewrite enqueuedOn_app, startedOn_app, finishedOn_app. simpl.
        rewrite decide_True by done. rewrite !app_nil_r.
        repeat split; try done.
        unfold inFlight in Hs. by rewrite Hp in Hs.
      * rewrite (inFlight_insert_ne k k' _ _ _ _ _ s) by done.
        rewrite enqueuedOn_app, startedOn_app, finishedOn_app. simpl.
        rewrite decide_False by done. rewrite !app_nil_r.
        repeat split; done.
    + simpl. change [Finished k op r; Delivered op r]
        with ([Finished k op r] ++ [Delivered op r]).
      rewrite app_assoc.
      do 2 (apply startsInTurn_snoc; [|intros; discriminate]). done.
  - unfold resume. destruct (processingPromise s !! k) as [[[op| |]|]|] eqn:Hp;
      try discriminate.
    intros [= <-] Hinv Hh. apply runBlock_ok; [done..|].
    unfold inFlight. by rewrite Hp.
  - unfold clear. destruct (processingPromise s !! k) as [[[op| |]|]|] eqn:Hp;
      try discriminate.
    intros [= <-] Hinv Hh. split; [|done].
    intros k'. destruct (Hinv k') as (He & Hs & Hlt & Hnd). simpl.
    change (queueOf (mkLLM (operationQueue s) _ _ _) k') with (queueOf s k').
    repeat split; try done.
    destruct (decide (k = k')) as [<-|Hne].
    + rewrite inFlight_insert_eq. unfold inFlight in Hs. by rewrite Hp in Hs.
    + by rewrite (inFlight_insert_ne k k' _ _ _ _ _ s).
Qed.

Lemma exec_ok js s s' :
  exec js s = Some s' →
  queueInv s → startsInTurn (trace s) →
  queueInv s' ∧ startsInTurn (trace s').
Proof.
  revert s. induction js as [|j js IH]; intros s; simpl.
  - by intros [= <-].
  - destruct (step j s) as [s1|] eqn:Hstep; [|discriminate].
    intros Hex Hinv Hh. destruct (step_ok _ _ _ Hstep Hinv Hh).
    by apply (IH s1).
Qed.

Lemma reachable_ok s :
  reachable s → queueInv s ∧ startsInTurn (trace s).
Proof.
  intros [js Hjs]. apply (exec_ok _ _ _ Hjs).
  - intros k. unfold init, queueOf, inFlight. simpl.
    rewrite !lookup_empty. simpl. repeat split; try done.
    + intros op Hop. by apply not_elem_of_nil in Hop.
    + apply NoDup_nil_2.
  - intros k o t1 t2 Heq. simpl in Heq. by destruct t1.
Qed.

Lemma NoDup_split_inj {A} (x : A) (a b a' b' : list A) :
  NoDup (a ++ x :: b) → a ++ x :: b = a' ++ x :: b' → a = a'.
Proof.
  revert a'. induction a as [|y a IH]; intros [|y' a']; simpl; intros Hnd Heq.
  - done.
  - injection Heq as -> Heq. apply NoDup_cons in Hnd as [Hx _].
    exfalso. apply Hx. rewrite Heq. apply elem_of_app. right. left.
  - injection Heq as -> Heq. apply NoDup_cons in Hnd as [Hx _].
    exfalso. apply Hx. apply elem_of_app. right. left.
  - injection Heq as -> Heq. apply NoDup_cons in Hnd as [_ Hnd].
    f_equal. by apply IH.
Qed.

(** C1.  Under every key the queue runs one operation at a time and in the
    order of submission: at any moment at most one operation is in flight and
    every other operation started under the key has finished; an operation
    starts only when all operations started before it have finished; the
    operations started are an initial segment of the operations submitted;
    and when [o1] was submitted before [o2], [o1] has finished, with either
    outcome, by the time [o2] starts.  A key with an operation in flight does
    not hold back another key: enqueuing under an idle key [k'] starts an
    operation there at once and leaves the one under [k] in flight. *)
Theorem queue_serializes_each_key (s : LLM) (k : string) :
  reachable s →
  (length (inFlight s k) ≤ 1
   ∧ startedOn k (trace s) = finishedOn k (trace s) ++ inFlight s k)
  ∧ (∀ o t1 t2, trace s = t1 ++ Started k o :: t2 →
       startedOn k t1 = finishedOn k t1)
  ∧ startedOn k (trace s) `prefix_of` enqueuedOn k (trace s)
  ∧ (∀ o1 o2 t1 t2,
       enqueuedBefore k o1 o2 (trace s) →
       trace s = t1 ++ Started k o2 :: t2 →
       ∃ r, Finished k o1 r ∈ t1)
  ∧ (∀ k', k' ≠ k → truthy (processingPromise s !! k') = false →
       (∃ o, inFlight (enqueueOperation k' s) k' = [o])
       ∧ inFlight (enqueueOperation k' s) k = inFlight s k).
Proof.
  intros Hr. destruct (reachable_ok s Hr) as [Hinv Hh].
  destruct (Hinv k) as (He & Hs & Hlt & Hnd).
  split; [|split; [|split; [|split]]].
  - split; [|done]. unfold inFlight.
    destruct (processingPromise s !! k) as [[[]|]|]; simpl; lia.
  - intros o t1 t2 Heq. by destruct (Hh k o t1 t2 Heq).
  - rewrite He. by eexists.
  - intros o1 o2 t1 t2 (l1 & l2 & l3 & Hbefore) Heq.
    destruct (Hh k o2 t1 t2 Heq) as [Hfin [rest Hpre]].
    apply finishedOn_elem. rewrite <- Hfin.
    rewrite <- app_assoc in Hpre. simpl in Hpre.
    assert (Hsplit : startedOn k t1 = (l1 ++ o1 :: l2)).
    { apply (NoDup_split_inj o2 _ rest _ l3).
      - by rewrite <- Hpre.
      - rewrite <- Hpre, Hbefore. by rewrite <- app_assoc. }
    rewrite Hsplit. apply elem_of_app. right. left.
  - intros k' Hne Hidle. unfold enqueueOperation, processQueue. simpl.
    rewrite Hidle. unfold runBlock.
    rewrite queueOf_insert_eq.
    destruct (queueOf s k' ++ [submitted s]) as [|o rest] eqn:Hq.
    { by destruct (queueOf s k'). }
    split.
    + exists o. by rewrite inFlight_insert_eq.
    + by rewrite (inFlight_insert_ne k' k _ _ _ _ _ s).
Qed.

Lemma queue_serializes_each_key_witness :
  reachable twoQueued
  ∧ startedOn "thread_1" (trace twoQueued)
    = finishedOn "thread_1" (trace twoQueued) ++ inFlight twoQueued "thread_1".
Proof.
  assert (Hr : reachable twoQueued).
  { exists [Enqueue "thread_1"; Enqueue "thread_1"]. reflexivity. }
  split; [exact Hr|].
  exact (proj2 (proj1 (queue_serializes_each_key twoQueued "thread_1" Hr))).
Defined.

(** A rejected operation is reported to the promise of its own submission
    and to no other, and leaves the block and the queue as a fulfilled one
    does. *)
Lemma settle_spec k r s s' :
  settle k r s = Some s' →
  ∃ op, inFlight s k = [op]
    ∧ trace s' = trace s ++ [Finished k op r; Delivered op r]
    ∧ processingPromise s' = <[k := Some Resuming]> (processingPromise s)
    ∧ operationQueue s' = operationQueue s.
Proof.
  unfold settle, inFlight.
  destruct (processingPromise s !! k) as [[[op| |]|]|]; try discriminate.
  intros [= <-]. by exists op.
Qed.

Lemma resume_next k s o rest :
  processingPromise s !! k = Some (Some Resuming) →
  queueOf s k = o :: rest →
  ∃ s', resume k s = Some s'
    ∧ trace s' = trace s ++ [Started k o]
    ∧ processingPromise s' !! k = Some (Some (Awaiting o))
    ∧ queueOf s' k = rest.
Proof.
  intros Hp Hq. unfold resume. rewrite Hp. eexists. split; [done|].
  unfold runBlock. rewrite Hq. simpl.
  by rewrite lookup_insert_eq, queueOf_insert_eq.
Qed.

(** A submission under a key with no promise in place and nothing queued
    starts its operation at once. *)
Lemma enqueue_idle_starts k s :
  truthy (processingPromise s !! k) = false →
  queueOf s k = [] →
  inFlight (enqueueOperation k s) k = [submitted s]
  ∧ queueOf (enqueueOperation k s) k = [].
Proof.
  intros Hidle Hq. unfold enqueueOperation, processQueue. simpl.
  rewrite Hidle. unfold runBlock. rewrite queueOf_insert_eq, Hq. simpl.
  by rewrite inFlight_insert_eq, queueOf_insert_eq.
Qed.

(** While its block is alive, whatever is queued under a key is started, in
    order, however the operations before it settle. *)
Lemma drain_runs_all k rs s op :
  processingPromise s !! k = Some (Some (Awaiting op)) →
  length rs = S (length (queueOf s k)) →
  ∃ s', exec (drainJobs k rs) s = Some s'
    ∧ startedOn k (trace s') = startedOn k (trace s) ++ queueOf s k
    ∧ processingPromise s' !! k = Some (Some Returned)
    ∧ queueOf s' k = [].
Proof.
  revert s op. induction rs as [|r rs IH]; intros s op Hp Hlen; [done|].
  simpl. unfold settle. rewrite Hp. simpl. unfold resume. simpl.
  rewrite lookup_insert_eq. unfold runBlock.
  change (queueOf (mkLLM (operationQueue s) _ _ _) k) with (queueOf s k).
  destruct (queueOf s k) as [|o rest] eqn:Hq; simpl in *.
  - destruct rs; [|done]. simpl. eexists. split; [done|]. simpl.
    rewrite lookup_insert_eq. unfold queueOf. simpl. fold (queueOf s k).
    rewrite Hq, startedOn_app, !app_nil_r. done.
  - edestruct (IH (mkLLM (<[k:=rest]> (operationQueue s))
                 (<[k:=Some (Awaiting o)]>
                    (<[k:=Some Resuming]> (processingPromise s)))
                 (submitted s)
                 ((trace s ++ [Finished k op r; Delivered op r])
                    ++ [Started k o])) o) as (s' & Hex & Hst & Hpp & Hqq).
    + simpl. by rewrite lookup_insert_eq.
    + rewrite queueOf_insert_eq. lia.
    + exists s'. split; [done|]. split; [|done].
      rewrite Hst, queueOf_insert_eq. simpl.
      rewrite !startedOn_app. simpl. rewrite decide_True by done.
      by rewrite app_nil_r, <- app_assoc.
Qed.

(** A submission that comes after the block has returned and before its
    promise is cleared starts nothing; once the promise is cleared the
    operation is still queued and no job under the key is left to run but a
    further submission. *)
Lemma window_strands k s :
  processingPromise s !! k = Some (Some Returned) →
  let s1 := enqueueOperation k s in
  inFlight s1 k = []
  ∧ queueOf s1 k = queueOf s k ++ [submitted s]
  ∧ ∃ s2, clear k s1 = Some s2
      ∧ queueOf s2 k = queueOf s k ++ [submitted s]
      ∧ ∀ r, settle k r s2 = None ∧ resume k s2 = None ∧ clear k s2 = None.
Proof.
  intros Hp. unfold enqueueOperation, processQueue. simpl. rewrite Hp. simpl.
  unfold inFlight, clear, settle, resume. simpl. rewrite Hp.
  split; [done|]. split; [by rewrite queueOf_insert_eq|].
  eexists. split; [done|]. split; [by rewrite queueOf_insert_eq|].
  intros r. simpl. by rewrite lookup_insert_eq.
Qed.

(** C4.  The schedule [retryAtOnce]: the first operation under the key is
    rejected; the rejection reaches the promise of that submission only; the
    block takes up the loop again and, the queue being empty, returns.  The
    second submission comes before the stored promise is cleared, finds it
    in place and starts nothing; the promise is then cleared.  The second
    operation stays queued and has not started, and no job other than a
    further submission is left to run. *)
Theorem retry_at_once_is_stranded :
  exec retryAtOnce init = Some stranded
  ∧ queueOf stranded "thread_1" = [1]
  ∧ startedOn "thread_1" (trace stranded) = [0]
  ∧ ∀ k r, settle k r stranded = None
           ∧ resume k stranded = None
           ∧ clear k stranded = None.
Proof.
  split; [reflexivity|]. split; [reflexivity|]. split; [reflexivity|].
  intros k r. unfold settle, resume, clear, stranded. simpl.
  destruct (decide (k = "thread_1")) as [->|Hne].
  - by rewrite lookup_singleton_eq.
  - by rewrite lookup_singleton_ne.
Qed.
End QueueFacts.

(** * Properties of the run driver *)

Section DriverFacts.

Context {W json : Type}.
Variable svc : Service W json.
Variable tools : gmap string (Handler W json).

Local Abbreviation Process := (Process W).

Lemma bind_fulfilled {St A B} (m : M St A) (f : A → M St B) s a s' :
  m s = (Fulfilled a, s') → bind m f s = f a s'.
Proof. unfold bind. by intros ->. Qed.

Lemma bind_rejected {St A B} (m : M St A) (f : A → M St B) s e s' :
  m s = (Rejected e, s') → bind m f s = (Rejected e, s').
Proof. unfold bind. by intros ->. Qed.

Lemma request_eq {A} rq (f : W → Settled A * W) (p : Process) r w :
  f (world p) = (r, w) → request rq f p = (r, setWorld w rq p).
Proof. unfold request. by intros ->. Qed.

(** A tool call never throws: it always yields an output that answers the
    call, after at most one invocation of the handler. *)
Lemma callTool_spec (tool_call : ToolCall) (p : Process) :
  ∃ o w,
    LLM.callTool svc tools tool_call p
    = (Fulfilled o,
       mkProcess w
         (log p ++ (if invocable svc tools tool_call
                    then [CallTool tool_call] else []))
         (threadIds p) (subscriberChannels p) (activeDMChannels p))
    ∧ answers svc tools tool_call o.
Proof.
  unfold LLM.callTool, tryCatch, bind, settled, invocable, answers.
  destruct (JSON_parse svc (arguments tool_call)) as [args|e] eqn:Hparse;
    simpl.
  - destruct (tools !! name tool_call) as [handler|] eqn:Htool.
    + unfold request. destruct (handler args (world p)) as [[out|e] w] eqn:Hh;
        simpl.
      * eexists _, w. split; [done|]. split; [done|].
        exists (world p). by rewrite Hh.
      * eexists _, w. split; [done|]. split; [done|].
        exists (world p). by rewrite Hh.
    + destruct (Object_prototype svc !! name tool_call) as [method|];
        [destruct (method args) as [out|e]|]; simpl;
        eexists _, (world p); rewrite app_nil_r;
        (split; [by destruct p|done]).
  - eexists _, (world p). rewrite app_nil_r. split; [by destruct p|done].
Qed.

Lemma promiseAll_callTool (calls : list ToolCall) (p : Process) :
  ∃ outs w,
    promiseAll (LLM.callTool svc tools) calls p
    = (Fulfilled outs,
       mkProcess w (log p ++ invocations svc tools calls)
                 (threadIds p) (subscriberChannels p) (activeDMChannels p))
    ∧ Forall2 (answers svc tools) calls outs.
Proof.
  revert p. induction calls as [|c calls IH]; intros p; simpl.
  - exists [], (world p). unfold invocations. simpl. rewrite app_nil_r.
    split; [by destruct p|constructor].
  - destruct (callTool_spec c p) as (o & w & Hc & Ho).
    unfold bind at 1. rewrite Hc.
    destruct (IH (mkProcess w
                    (log p ++ (if invocable svc tools c
                               then [CallTool c] else []))
                    (threadIds p) (subscriberChannels p) (activeDMChannels p)))
      as (outs & w' & Hall & Hans).
    unfold bind at 1. rewrite Hall. simpl.
    exists (o :: outs), w'. split; [|by constructor].
    assert (Hlog : log p ++ invocations svc tools (c :: calls)
                   = (log p ++ (if invocable svc tools c
                                then [CallTool c] else []))
                       ++ invocations svc tools calls).
    { rewrite <- app_assoc. f_equal. unfold invocations.
      rewrite filter_cons. by destruct (invocable svc tools c). }
    unfold ret. simpl. by rewrite Hlog.
Qed.


Lemma turn_requires_action threadId (run0 run : Run) action (p : Process) w1 :
  runs_retrieve svc threadId (run_id run0) (world p) = (Fulfilled run, w1) →
  status run = "requires_action" →
  required_action run = Some action →
  type action = "submit_tool_outputs" →
  ∃ outs w2,
    let p2 := mkProcess w2
                (log p ++ [RetrieveRun threadId (run_id run0)]
                   ++ invocations svc tools (tool_calls action))
                (threadIds p) (subscriberChannels p) (activeDMChannels p) in
    promiseAll (LLM.callTool svc tools) (tool_calls action)
      (setWorld w1 (RetrieveRun threadId (run_id run0)) p)
    = (Fulfilled outs, p2)
    ∧ Forall2 (answers svc tools) (tool_calls action) outs
    ∧ LLM.turn svc threadId tools run0 p
      = match runs_submitToolOutputs svc threadId (run_id run) outs w2 with
        | (Fulfilled run', w3) =>
            (Fulfilled (LLM.Again run'),
             setWorld w3 (SubmitToolOutputs threadId (run_id run) outs) p2)
        | (Rejected _, w3) =>
            (Fulfilled (LLM.Again run),
             setWorld w3 (SubmitToolOutputs threadId (run_id run) outs) p2)
        end.
Proof.
  intros Hpoll Hstatus Haction Htype.
  destruct (promiseAll_callTool (tool_calls action)
              (setWorld w1 (RetrieveRun threadId (run_id run0)) p))
    as (outs & w2 & Hall & Hans).
  simpl in Hall. rewrite <- app_assoc in Hall.
  exists outs, w2. split; [done|]. split; [done|].
  unfold LLM.turn. rewrite (bind_fulfilled _ _ _ _ _ (request_eq _ _ _ _ _ Hpoll)).
  rewrite decide_True by done.
  unfold LLM.requiresAction. rewrite Haction. rewrite decide_True by done.
  unfold tryCatch. rewrite (bind_fulfilled _ _ _ _ _ Hall).
  unfold bind, request. simpl.
  by destruct (runs_submitToolOutputs svc threadId (run_id run) outs w2)
    as [[run'|e] w3].
Qed.

(** The turn on [requires_action] ends normally, after the handler
    invocations and one submission. *)
Lemma turn_requires_action_log threadId (run0 run : Run) action
    (p : Process) w1 :
  runs_retrieve svc threadId (run_id run0) (world p) = (Fulfilled run, w1) →
  status run = "requires_action" →
  required_action run = Some action →
  type action = "submit_tool_outputs" →
  ∃ outs run' p',
    LLM.turn svc threadId tools run0 p = (Fulfilled (LLM.Again run'), p')
    ∧ log p' = log p ++ [RetrieveRun threadId (run_id run0)]
                 ++ invocations svc tools (tool_calls action)
                 ++ [SubmitToolOutputs threadId (run_id run) outs].
Proof.
  intros Hpoll Hstatus Haction Htype.
  destruct (turn_requires_action _ _ _ _ _ _ Hpoll Hstatus Haction Htype)
    as (outs & w2 & _ & _ & Hturn).
  destruct (runs_submitToolOutputs svc threadId (run_id run) outs w2)
    as [[run'|e] w3].
  - exists outs, run'. eexists. split; [exact Hturn|].
    simpl. by rewrite <- !app_assoc.
  - exists outs, run. eexists. split; [exact Hturn|].
    simpl. by rewrite <- !app_assoc.
Qed.

(** C2, as the code has it.  When the poll finds the run in
    [requires_action] with the tool calls [tool_calls action], the turn ends
    normally, whatever the handlers do, with the run to poll next; it sends
    exactly one submission, after all handler invocations of the cycle, and
    that submission carries as many outputs as there were calls, the i-th
    output bearing the identifier of the i-th call.  Each output is the text
    its handler returned or, when its arguments do not parse, its handler
    raised, or its name is neither that of a registered tool nor that of a
    function the object of tools inherits, the error text naming the tool
    and the error.  A call that names an inherited function is answered by
    that function: its output is what the function returns. *)
Theorem tool_cycle_submits_one_batch threadId (run0 run : Run) action
    (p : Process) w1 :
  runs_retrieve svc threadId (run_id run0) (world p) = (Fulfilled run, w1) →
  status run = "requires_action" →
  required_action run = Some action →
  type action = "submit_tool_outputs" →
  ∃ outs run' p',
    LLM.turn svc threadId tools run0 p = (Fulfilled (LLM.Again run'), p')
    ∧ length outs = length (tool_calls action)
    ∧ tool_call_id <$> outs = id <$> tool_calls action
    ∧ Forall2 (answers svc tools) (tool_calls action) outs
    ∧ log p' = log p ++ [RetrieveRun threadId (run_id run0)]
                 ++ invocations svc tools (tool_calls action)
                 ++ [SubmitToolOutputs threadId (run_id run) outs].
Proof.
  intros Hpoll Hstatus Haction Htype.
  destruct (turn_requires_action _ _ _ _ _ _ Hpoll Hstatus Haction Htype)
    as (outs & w2 & Hall & Hans & Hturn).
  assert (Hids : tool_call_id <$> outs = id <$> tool_calls action).
  { clear -Hans. induction Hans as [|c o calls outs [Hid _] _ IH]; [done|].
    rewrite !fmap_cons. by rewrite Hid, IH. }
  destruct (runs_submitToolOutputs svc threadId (run_id run) outs w2)
    as [[run'|e] w3] eqn:Hsubmit.
  - exists outs, run'. eexists. split; [exact Hturn|].
    split; [symmetry; by eapply Forall2_length|].
    split; [done|]. split; [done|]. simpl. by rewrite <- !app_assoc.
  - exists outs, run. eexists. split; [exact Hturn|].
    split; [symmetry; by eapply Forall2_length|].
    split; [done|]. split; [done|]. simpl. by rewrite <- !app_assoc.
Qed.

Lemma poll_again fuel threadId (run0 run' : Run) (p p' : Process) :
  LLM.turn svc threadId tools run0 p = (Fulfilled (LLM.Again run'), p') →
  LLM.poll svc (S fuel) threadId tools run0 p
  = LLM.poll svc fuel threadId tools run' p'.
Proof. intros H. simpl. by rewrite (bind_fulfilled _ _ _ _ _ H). Qed.

Lemma poll_return fuel threadId (run0 : Run) text (p p' : Process) :
  LLM.turn svc threadId tools run0 p = (Fulfilled (LLM.Return text), p') →
  LLM.poll svc (S fuel) threadId tools run0 p = (Fulfilled (Some text), p').
Proof. intros H. simpl. by rewrite (bind_fulfilled _ _ _ _ _ H). Qed.

Lemma poll_throw fuel threadId (run0 : Run) e (p p' : Process) :
  LLM.turn svc threadId tools run0 p = (Rejected e, p') →
  LLM.poll svc (S fuel) threadId tools run0 p = (Rejected e, p').
Proof. intros H. simpl. by rewrite (bind_rejected _ _ _ _ _ H). Qed.

Lemma invocations_elem (c : ToolCall) (calls : list ToolCall) :
  c ∈ calls → invocable svc tools c = true →
  CallTool c ∈ invocations svc tools calls.
Proof.
  intros Hc Hinv. unfold invocations. apply list_elem_of_fmap.
  exists c. split; [done|]. apply list_elem_of_filter. split; [|done].
  by rewrite Hinv.
Qed.

(** C9.  The poll finds the run in [requires_action]; the handlers are
    invoked and the submission of their outputs is rejected.  The rejection
    is dropped: the turn ends normally and the loop polls the same run
    again.  When that poll finds the same calls pending, the second turn
    invokes every handler of the cycle once more and submits again, so each
    call whose handler was reached appears twice among the invocations; no
    error has reached the caller, who is still waiting on the loop. *)
Theorem failed_submission_repeats_tool_calls threadId (run0 run run2 : Run)
    action (p p2 : Process) w1 outs e w3 w4 :
  runs_retrieve svc threadId (run_id run0) (world p) = (Fulfilled run, w1) →
  status run = "requires_action" →
  required_action run = Some action →
  type action = "submit_tool_outputs" →
  promiseAll (LLM.callTool svc tools) (tool_calls action)
    (setWorld w1 (RetrieveRun threadId (run_id run0)) p)
  = (Fulfilled outs, p2) →
  runs_submitToolOutputs svc threadId (run_id run) outs (world p2)
  = (Rejected e, w3) →
  runs_retrieve svc threadId (run_id run) w3 = (Fulfilled run2, w4) →
  status run2 = "requires_action" →
  required_action run2 = Some action →
  ∃ outs2 run' p3 p5,
    LLM.turn svc threadId tools run0 p = (Fulfilled (LLM.Again run), p3)
    ∧ LLM.turn svc threadId tools run p3 = (Fulfilled (LLM.Again run'), p5)
    ∧ log p5 = log p
        ++ [RetrieveRun threadId (run_id run0)]
        ++ invocations svc tools (tool_calls action)
        ++ [SubmitToolOutputs threadId (run_id run) outs]
        ++ [RetrieveRun threadId (run_id run)]
        ++ invocations svc tools (tool_calls action)
        ++ [SubmitToolOutputs threadId (run_id run2) outs2]
    ∧ (∀ c, c ∈ tool_calls action → invocable svc tools c = true →
         ∃ l1 l2 l3, log p5 = l1 ++ CallTool c :: l2 ++ CallTool c :: l3)
    ∧ ∀ fuel, LLM.poll svc (S (S fuel)) threadId tools run0 p
              = LLM.poll svc fuel threadId tools run' p5.
Proof.
  intros Hpoll Hstatus Haction Htype Hall Hsubmit Hpoll2 Hstatus2 Haction2.
  destruct (turn_requires_action _ _ _ _ _ _ Hpoll Hstatus Haction Htype)
    as (outs' & w2 & Hall' & _ & Hturn).
  simpl in Hall'. rewrite Hall in Hall'. injection Hall' as <- ->.
  simpl in Hsubmit. rewrite Hsubmit in Hturn.
  set (p3 := setWorld w3 (SubmitToolOutputs threadId (run_id run) outs) _)
    in Hturn.
  assert (Hpoll2' : runs_retrieve svc threadId (run_id run) (world p3)
                    = (Fulfilled run2, w4)) by done.
  destruct (turn_requires_action_log _ _ _ _ _ _
              Hpoll2' Hstatus2 Haction2 Htype)
    as (outs2 & run' & p5 & Hturn2 & Hlog).
  exists outs2, run', p3, p5. split; [done|]. split; [done|].
  assert (Hlog' : log p5 = log p
        ++ [RetrieveRun threadId (run_id run0)]
        ++ invocations svc tools (tool_calls action)
        ++ [SubmitToolOutputs threadId (run_id run) outs]
        ++ [RetrieveRun threadId (run_id run)]
        ++ invocations svc tools (tool_calls action)
        ++ [SubmitToolOutputs threadId (run_id run2) outs2]).
  { rewrite Hlog. subst p3. simpl. by rewrite <- !app_assoc. }
  split; [done|]. split.
  - intros c Hc Hinv.
    destruct (list_elem_of_split _ _ (invocations_elem c _ Hc Hinv))
      as (a & b & Hab).
    rewrite Hlog', Hab.
    exists (log p ++ [RetrieveRun threadId (run_id run0)] ++ a),
      (b ++ [SubmitToolOutputs threadId (run_id run) outs]
         ++ [RetrieveRun threadId (run_id run)] ++ a),
      (b ++ [SubmitToolOutputs threadId (run_id run2) outs2]).
    by rewrite <- !app_assoc.
  - intros fuel. rewrite (poll_again _ _ _ _ _ _ Hturn).
    by rewrite (poll_again _ _ _ _ _ _ Hturn2).
Qed.

Lemma completed_spec threadId (p1 : Process) messages w2 :
  messages_list svc threadId (world p1) = (Fulfilled messages, w2) →
  match latestText messages with
  | Some value =>
      LLM.completed svc threadId p1
      = (Fulfilled (LLM.Return value), setWorld w2 (ListMessages threadId) p1)
  | None =>
      ∃ e, LLM.completed svc threadId p1
           = (Rejected e, setWorld w2 (ListMessages threadId) p1)
  end.
Proof.
  intros Hlist. unfold LLM.completed.
  rewrite (bind_fulfilled _ _ _ _ _ (request_eq _ _ _ _ _ Hlist)).
  destruct messages as [|[[|block blocks]] more]; simpl.
  - by eexists.
  - by eexists.
  - destruct block; simpl; try done; by eexists.
Qed.

(** C5, as the code has it.  A poll that is rejected ends the call with its
    error.  Once a poll finds the run in a status on which the loop does
    not go on, the status decides how the call ends, whatever fuel is left.
    On [completed] the messages of the thread are listed and the call
    returns the text of the first block of the most recent one; it throws
    when the listing is rejected, with the error of the listing, and when
    there is no such text.  On [failed] it throws with the code and the
    message of the remote error, on [incomplete] with the details, on a
    status it does not know with that status; on these three nothing is
    listed.  So at such a poll the call throws exactly in these cases:
    completed with the listing rejected or without a text, failed,
    incomplete, unknown. *)
Theorem terminal_outcome_by_status fuel threadId (run0 : Run) (p : Process)
    polled w1 :
  runs_retrieve svc threadId (run_id run0) (world p) = (polled, w1) →
  let p1 := setWorld w1 (RetrieveRun threadId (run_id run0)) p in
  let listed := (messages_list svc threadId w1).1 in
  let p2 := setWorld (messages_list svc threadId w1).2
              (ListMessages threadId) p1 in
  let result := LLM.poll svc (S fuel) threadId tools run0 p in
  match polled with
  | Rejected e => result = (Rejected e, p1)
  | Fulfilled run =>
      (status run = "completed" →
         match listed with
         | Fulfilled messages =>
             (∀ value, latestText messages = Some value →
                result = (Fulfilled (Some value), p2))
             ∧ (latestText messages = None → ∃ e, result = (Rejected e, p2))
         | Rejected e => result = (Rejected e, p2)
         end)
      ∧ (status run = "failed" →
           result = (Rejected ("Error: Run failed with code "
                                 +:+ LLM.showCode (last_error run) +:+ ": "
                                 +:+ LLM.showMessage (last_error run)), p1))
      ∧ (status run = "incomplete" →
           result = (Rejected ("Error: Run is incomplete: "
                                 +:+ incomplete_details run), p1))
      ∧ (unknown (status run) →
           result = (Rejected ("Error: Unknown run status: " +:+ status run),
                     p1))
      ∧ (¬ ongoing (status run) →
           (isRejected (fst result) = true
            ↔ (status run = "completed"
               ∧ match listed with
                 | Fulfilled messages => latestText messages = None
                 | Rejected _ => True
                 end)
              ∨ status run = "failed" ∨ status run = "incomplete"
              ∨ unknown (status run)))
  end.
Proof.
  intros Hpoll p1 listed p2 result.
  destruct polled as [run|e].
  2:{ subst result. apply poll_throw. unfold LLM.turn.
      by rewrite (bind_rejected _ _ _ _ _ (request_eq _ _ _ _ _ Hpoll)). }
  assert (Hturn : LLM.turn svc threadId tools run0 p
    = (if decide (status run = "requires_action") then
         LLM.requiresAction svc threadId tools run
       else if decide (status run = "completed") then
         LLM.completed svc threadId
       else if decide (status run = "failed") then
         throw ("Error: Run failed with code "
                  +:+ LLM.showCode (last_error run) +:+ ": "
                  +:+ LLM.showMessage (last_error run))
       else if decide (status run = "queued" ∨ status run = "in_progress") then
         request (Sleep 1000) (λ w, (Fulfilled tt, w)) ;; ret (LLM.Again run)
       else if decide (status run = "incomplete") then
         throw ("Error: Run is incomplete: " +:+ incomplete_details run)
       else throw ("Error: Unknown run status: " +:+ status run)) p1).
  { unfold LLM.turn.
    by rewrite (bind_fulfilled _ _ _ _ _ (request_eq _ _ _ _ _ Hpoll)). }
  assert (Hlist : messages_list svc threadId (world p1)
                  = (listed, (messages_list svc threadId w1).2)).
  { subst listed p1. simpl. by destruct (messages_list svc threadId w1). }
  assert (Hc : status run = "completed" →
     match listed with
     | Fulfilled messages =>
         (∀ value, latestText messages = Some value →
            result = (Fulfilled (Some value), p2))
         ∧ (latestText messages = None → ∃ e, result = (Rejected e, p2))
     | Rejected e => result = (Rejected e, p2)
     end).
  { intros Hs. rewrite Hs in Hturn. simpl in Hturn.
    destruct listed as [messages|e].
    - assert (Hcompleted := completed_spec threadId p1 messages _ Hlist).
      fold p2 in Hcompleted. split.
      + intros value Hv. rewrite Hv in Hcompleted.
        rewrite Hcompleted in Hturn. by apply poll_return.
      + intros Hv. rewrite Hv in Hcompleted. destruct Hcompleted as [e He].
        exists e. rewrite He in Hturn. by apply poll_throw.
    - apply poll_throw. rewrite Hturn. unfold LLM.completed.
      by rewrite (bind_rejected _ _ _ _ _ (request_eq _ _ _ _ _ Hlist)). }
  assert (Hf : status run = "failed" →
     result = (Rejected ("Error: Run failed with code "
                           +:+ LLM.showCode (last_error run) +:+ ": "
                           +:+ LLM.showMessage (last_error run)), p1)).
  { intros Hs. rewrite Hs in Hturn. simpl in Hturn. by apply poll_throw. }
  assert (Hi : status run = "incomplete" →
     result = (Rejected ("Error: Run is incomplete: "
                           +:+ incomplete_details run), p1)).
  { intros Hs. rewrite Hs in Hturn. simpl in Hturn. by apply poll_throw. }
  assert (Hu : unknown (status run) →
     result = (Rejected ("Error: Unknown run status: " +:+ status run), p1)).
  { intros (Hon & Hnc & Hnf & Hni). unfold ongoing in Hon.
    rewrite decide_False in Hturn by tauto.
    rewrite decide_False in Hturn by done.
    rewrite decide_False in Hturn by done.
    rewrite decide_False in Hturn by tauto.
    rewrite decide_False in Hturn by done.
    by apply poll_throw. }
  split; [done|]. split; [done|]. split; [done|]. split; [done|].
  intros Hon. split.
  - intros Hrej.
    destruct (decide (status run = "completed")) as [Hs|Hnc].
    { left. split; [done|]. specialize (Hc Hs).
      destruct listed as [messages|e]; [|done].
      destruct (latestText messages) as [v|] eqn:Hv; [|done].
      destruct Hc as [Hval _]. rewrite (Hval v eq_refl) in Hrej.
      discriminate. }
    destruct (decide (status run = "failed")) as [Hs|Hnf]; [tauto|].
    destruct (decide (status run = "incomplete")) as [Hs|Hni]; [tauto|].
    right. right. right. done.
  - intros [[Hs Hv]|[Hs|[Hs|Hs]]].
    + specialize (Hc Hs). destruct listed as [messages|e].
      * destruct Hc as [_ Hnone]. destruct (Hnone Hv) as [e ->]. done.
      * by rewrite Hc.
    + by rewrite (Hf Hs).
    + by rewrite (Hi Hs).
    + by rewrite (Hu Hs).
Qed.

End DriverFacts.

(** The three calls of [Demo.asking] against [Demo.tools]: one answer, one
    unregistered tool, one handler that throws. *)
Example three_calls_one_batch :
  LLM.turn Demo.service (Some "thread_1") Demo.tools Demo.queuedRun
           (Demo.fresh Demo.toolWorld)
  = (Fulfilled (LLM.Again Demo.queuedRun),
     mkProcess
       (Demo.mkWorld ∅ [] [] [] [] (Fulfilled Demo.answered) (Fulfilled []))
       [ RetrieveRun (Some "thread_1") "run_1";
         CallTool (mkToolCall "call_1" "getLeaderboard" "{}");
         CallTool (mkToolCall "call_3" "checkSolution" "{}");
         SubmitToolOutputs (Some "thread_1") "run_1"
           [ mkToolOutput "call_1" "1. Ada: 3 points";
             mkToolOutput "call_2"
               "Error occured while performing call to tool lookupSolutions: TypeError: tools[tool_call.function.name] is not a function";
             mkToolOutput "call_3"
               "Error occured while performing call to tool checkSolution: Error: Disabled until better models are available." ] ]
       ∅ [] []).
Proof. reflexivity. Qed.

Lemma tool_cycle_submits_one_batch_witness :
  ∃ outs : list ToolOutput,
    length outs = 3 ∧ tool_call_id <$> outs = ["call_1"; "call_2"; "call_3"].
Proof.
  destruct (tool_cycle_submits_one_batch Demo.service Demo.tools
              (Some "thread_1") Demo.queuedRun Demo.asking
              (mkRequiredAction "submit_tool_outputs" Demo.threeCalls)
              (Demo.fresh Demo.toolWorld)
              (Demo.mkWorld ∅ [] [] [] [Fulfilled Demo.queuedRun]
                            (Fulfilled Demo.answered) (Fulfilled []))
              eq_refl eq_refl eq_refl eq_refl)
    as (outs & _ & _ & _ & Hlen & Hids & _).
  exists outs. split; [exact Hlen | exact Hids].
Defined.

(** A call that names [toString], which no tool is registered under: the
    function that the object of tools inherits is called, no handler is
    invoked, and what is submitted for the call is the value of that
    function, which is no error text. *)
Lemma inherited_function_answers_the_call :
  Demo.tools !! "toString" = None
  ∧ LLM.turn Demo.service (Some "thread_1") Demo.tools Demo.queuedRun
             (Demo.fresh Demo.inheritedWorld)
    = (Fulfilled (LLM.Again Demo.queuedRun),
       mkProcess
         (Demo.mkWorld ∅ [] [] [] [] (Fulfilled Demo.answered) (Fulfilled []))
         [ RetrieveRun (Some "thread_1") "run_1";
           SubmitToolOutputs (Some "thread_1") "run_1"
             [mkToolOutput "call_4" "[object Object]"] ]
         ∅ [] [])
  ∧ ∀ error, "[object Object]" ≠ LLM.toolErrorOutput "toString" error.
Proof.
  split; [reflexivity|]. split; [reflexivity|].
  intros error H. unfold LLM.toolErrorOutput in H. simpl in H.
  discriminate H.
Qed.

Lemma failed_submission_repeats_tool_calls_witness :
  ∃ l1 l2 l3 (p5 : Process Demo.World),
    log p5 = l1 ++ CallTool (mkToolCall "call_1" "getLeaderboard" "{}")
                :: l2 ++ CallTool (mkToolCall "call_1" "getLeaderboard" "{}")
                :: l3.
Proof.
  destruct (failed_submission_repeats_tool_calls Demo.service Demo.tools
              (Some "thread_1") Demo.queuedRun Demo.asking Demo.asking
              (mkRequiredAction "submit_tool_outputs" Demo.threeCalls)
              (Demo.fresh Demo.flakyWorld) _ _ _ _ _ _
              eq_refl eq_refl eq_refl eq_refl eq_refl eq_refl eq_refl
              eq_refl eq_refl)
    as (outs2 & run' & p3 & p5 & _ & _ & _ & Htwice & _).
  destruct (Htwice (mkToolCall "call_1" "getLeaderboard" "{}"))
    as (l1 & l2 & l3 & Hlog).
  - left.
  - reflexivity.
  - by exists l1, l2, l3, p5.
Defined.

Lemma terminal_outcome_by_status_witness :
  LLM.poll Demo.service 1 (Some "thread_1") Demo.tools Demo.queuedRun
           (Demo.fresh Demo.completedWorld)
  = (Fulfilled (Some "do_nothing"),
     setWorld (Demo.mkWorld ∅ [] [] [] [] (Fulfilled Demo.answered) (Fulfilled []))
       (ListMessages (Some "thread_1"))
       (setWorld
          (Demo.mkWorld ∅ [] [] [] [] (Fulfilled Demo.answered) (Fulfilled []))
          (RetrieveRun (Some "thread_1") "run_1")
          (Demo.fresh Demo.completedWorld))).
Proof.
  exact (proj1 (proj1 (terminal_outcome_by_status Demo.service Demo.tools 0
                         (Some "thread_1") Demo.queuedRun
                         (Demo.fresh Demo.completedWorld)
                         (Fulfilled Demo.completedRun) _ eq_refl) eq_refl)
               "do_nothing" eq_refl).
Defined.

(** A run that is found completed and a call that fails all the same: the
    listing of the messages is rejected, so that no message is seen.  And
    a call that fails before any status is seen: the poll is rejected. *)
Lemma completed_run_fails_when_not_listed :
  Demo.polls Scenes.unlistedWorld = [Fulfilled Demo.completedRun]
  ∧ status Demo.completedRun = "completed"
  ∧ (LLM.runAssistant Demo.service 1 (Some "thread_1") (Some "asst_1")
       Demo.tools (Demo.fresh Scenes.unlistedWorld)).1
    = Rejected Demo.connectionError
  ∧ Demo.polls Demo.quiet = []
  ∧ (LLM.runAssistant Demo.service 1 (Some "thread_1") (Some "asst_1")
       Demo.tools (Demo.fresh Demo.quiet)).1
    = Rejected Demo.connectionError.
Proof. repeat split; reflexivity. Qed.

(** A whole call: the run is created, asks for tools, gets its outputs and
    is found completed at the second poll; two turns of fuel suffice. *)
Example run_with_tools_returns_text :
  (LLM.runAssistant Demo.service 2 (Some "thread_1") (Some "asst_1")
                    Demo.tools (Demo.fresh Demo.twoTurns)).1
  = Fulfilled (Some "do_nothing").
Proof. reflexivity. Qed.

Example failed_run_throws :
  (LLM.runAssistant Demo.service 1 (Some "thread_1") (Some "asst_1")
                    Demo.tools (Demo.fresh Demo.failedWorld)).1
  = Rejected "Error: Run failed with code server_error: overloaded".
Proof. reflexivity. Qed.

(** * Properties of the chat-to-thread map *)

Section BotFacts.

Context {W json : Type}.
Variable svc : Service W json.
Variable tools : gmap string (Handler W json).
Variable assistants : gmap string (Settled string).

Local Abbreviation Process := (Process W).

Lemma keeps_ret {A} (a : A) : keeps (ret a : M Process A).
Proof. intros p. simpl. repeat split. exists []. by rewrite app_nil_r. Qed.

Lemma keeps_throw {A} e : keeps (@throw Process A e).
Proof. intros p. simpl. repeat split. exists []. by rewrite app_nil_r. Qed.

Lemma keeps_settled {A} (r : Settled A) : keeps (settled r : M Process A).
Proof. destruct r; [apply keeps_ret | apply keeps_throw]. Qed.

Lemma keeps_request {A} rq (f : W → Settled A * W) :
  Bot.isCreateThread rq = false → keeps (request rq f).
Proof.
  intros Hrq p. unfold request. destruct (f (world p)) as [r w]. simpl.
  repeat split. exists [rq]. split; [done|]. by constructor.
Qed.

Lemma keeps_bind {A B} (m : M Process A) (f : A → M Process B) :
  keeps m → (∀ a, keeps (f a)) → keeps (bind m f).
Proof.
  intros Hm Hf p. unfold bind. specialize (Hm p).
  destruct (m p) as [[a|e] p1]; simpl in *; [|done].
  destruct Hm as (Ht & Hs & Ha & rqs & Hl & Hno).
  destruct (Hf a p1) as (Ht' & Hs' & Ha' & rqs' & Hl' & Hno').
  rewrite Ht', Hs', Ha', Hl', Ht, Hs, Ha, Hl. repeat split.
  exists (rqs ++ rqs'). split; [by rewrite app_assoc|]. by apply Forall_app.
Qed.

Lemma keeps_tryCatch {A} (m : M Process A) (h : string → M Process A) :
  keeps m → (∀ e, keeps (h e)) → keeps (tryCatch m h).
Proof.
  intros Hm Hh p. unfold tryCatch. specialize (Hm p).
  destruct (m p) as [[a|e] p1]; simpl in *; [done|].
  destruct Hm as (Ht & Hs & Ha & rqs & Hl & Hno).
  destruct (Hh e p1) as (Ht' & Hs' & Ha' & rqs' & Hl' & Hno').
  rewrite Ht', Hs', Ha', Hl', Ht, Hs, Ha, Hl. repeat split.
  exists (rqs ++ rqs'). split; [by rewrite app_assoc|]. by apply Forall_app.
Qed.

Lemma keeps_promiseAll {A B} (f : A → M Process B) (l : list A) :
  (∀ a, keeps (f a)) → keeps (promiseAll f l).
Proof.
  intros Hf. induction l as [|a l IH]; simpl; [apply keeps_ret|].
  apply keeps_bind; [done|]. intros b.
  apply keeps_bind; [done|]. intros bs. apply keeps_ret.
Qed.

Lemma keeps_callTool c : keeps (LLM.callTool svc tools c).
Proof.
  unfold LLM.callTool. apply keeps_tryCatch; [|intros; apply keeps_ret].
  apply keeps_bind; [apply keeps_settled|]. intros args.
  destruct (tools !! name c).
  { apply keeps_bind; [by apply keeps_request|]. intros; apply keeps_ret. }
  destruct (Object_prototype svc !! name c); [|apply keeps_throw].
  apply keeps_bind; [apply keeps_settled|]. intros; apply keeps_ret.
Qed.

Lemma keeps_turn threadId run : keeps (LLM.turn svc threadId tools run).
Proof.
  unfold LLM.turn. apply keeps_bind; [by apply keeps_request|]. intros r.
  destruct (decide (status r = "requires_action"));
    [|destruct (decide (status r = "completed"));
      [|destruct (decide (status r = "failed"));
        [apply keeps_throw
        |destruct (decide (status r = "queued" ∨ status r = "in_progress"));
         [|destruct (decide (status r = "incomplete")); apply keeps_throw]]]].
  - unfold LLM.requiresAction. destruct (required_action r) as [r0|];
      [|apply keeps_throw].
    destruct (decide (type r0 = "submit_tool_outputs")); [|apply keeps_ret].
    apply keeps_tryCatch; [|intros; apply keeps_ret].
    apply keeps_bind; [apply keeps_promiseAll, keeps_callTool|]. intros outs.
    apply keeps_bind; [by apply keeps_request|]. intros; apply keeps_ret.
  - unfold LLM.completed. apply keeps_bind; [by apply keeps_request|].
    intros [|[[|block ?]] ?]; simpl; try apply keeps_throw.
    destruct (decide (contentType block = "text")); [|apply keeps_throw].
    destruct block; try apply keeps_throw. apply keeps_ret.
  - apply keeps_bind; [by apply keeps_request|]. intros; apply keeps_ret.
Qed.

Lemma keeps_poll fuel threadId run :
  keeps (LLM.poll svc fuel threadId tools run).
Proof.
  revert run. induction fuel as [|fuel IH]; intros run; simpl.
  - apply keeps_ret.
  - apply keeps_bind; [apply keeps_turn|]. intros [run'|text]; [apply IH|].
    apply keeps_ret.
Qed.

Lemma keeps_runAssistant fuel threadId assistantId :
  keeps (LLM.runAssistant svc fuel threadId assistantId tools).
Proof.
  unfold LLM.runAssistant, LLM.enqueueOperation.
  apply keeps_bind; [by apply keeps_request|]. intros; apply keeps_poll.
Qed.

Lemma keeps_interpret answer : keeps (Bot.interpret svc answer).
Proof.
  destruct answer as [text|]; [|apply keeps_ret]. simpl.
  apply keeps_bind; [apply keeps_settled|]. intros response.
  apply keeps_bind; [apply keeps_settled|]. intros action.
  destruct (decide (action = "do_nothing")); [apply keeps_ret|].
  destruct (decide (action = "react")).
  { apply keeps_bind; [apply keeps_settled|]. intros; apply keeps_ret. }
  destruct (decide (action = "reply")); [|apply keeps_throw].
  apply keeps_bind; [apply keeps_settled|]. intros; apply keeps_ret.
Qed.

Lemma keeps_response fuel chatId assistantName :
  keeps (Bot.response svc tools assistants fuel chatId assistantName).
Proof.
  unfold Bot.response.
  apply keeps_bind.
  { intros p. simpl. repeat split. exists []. by rewrite app_nil_r. }
  intros threadId. apply keeps_bind.
  { unfold Bot.awaitAssistant. destruct (assistants !! assistantName) as [[]|];
      try apply keeps_ret. apply keeps_throw. }
  intros assistantId. apply keeps_bind; [apply keeps_runAssistant|].
  apply keeps_interpret.
Qed.

(** C10.  [response] writes no entry of the chat-to-thread map: the map
    after the call is the map before it, however the call ends, and no
    thread is asked for.  For a chat without an entry it does not give up
    either: once the assistant is known, the first thing it sends is the
    creation of a run on the thread [undefined]. *)
Theorem response_keeps_threadIds fuel chatId assistantName (p : Process) :
  let p' := (Bot.response svc tools assistants fuel chatId assistantName p).2 in
  threadIds p' = threadIds p
  ∧ Bot.allocations p' = Bot.allocations p
  ∧ (∀ assistantId,
       threadIds p !! chatId = None →
       assistants !! assistantName = Some (Fulfilled assistantId) →
       ∃ rqs, log p' = log p ++ CreateRun None (Some assistantId) 50 :: rqs).
Proof.
  intros p'.
  destruct (keeps_response fuel chatId assistantName p)
    as (Hmap & _ & _ & rqs & Hlog & Hno).
  fold p' in Hmap, Hlog. split; [done|]. split.
  { unfold Bot.allocations. rewrite Hlog, filter_app, length_app.
    assert (Hnil : filter Bot.isCreateThread rqs = []).
    { clear -Hno. induction Hno as [|rq rqs Hrq _ IH]; [done|].
      rewrite filter_cons, IH. by rewrite Hrq. }
    rewrite Hnil. simpl. lia. }
  intros assistantId Hnone Hassistant. subst p'.
  unfold Bot.response. unfold bind at 1. rewrite Hnone.
  unfold bind at 1. unfold Bot.awaitAssistant. rewrite Hassistant. simpl.
  unfold LLM.runAssistant, LLM.enqueueOperation.
  unfold bind at 1. unfold bind at 1. unfold request at 1.
  destruct (runs_create svc None (Some assistantId) 50 (world p))
    as [[run|e] w]; simpl.
  - destruct (keeps_bind _ _ (keeps_poll fuel None run) keeps_interpret
                (setWorld w (CreateRun None (Some assistantId) 50) p))
      as (_ & _ & _ & rqs' & Hlog' & _).
    exists rqs'. unfold bind in Hlog'. rewrite Hlog'. simpl.
    by rewrite <- app_assoc.
  - by exists [].
Qed.


Lemma cachedThread_setThreadId chatId threadId (p : Process) :
  threadId ≠ "" →
  Bot.cachedThread chatId (Bot.setThreadId chatId threadId p) = Some threadId.
Proof.
  intros Hne. unfold Bot.cachedThread, Bot.setThreadId. simpl.
  rewrite lookup_insert_eq. by rewrite decide_False.
Qed.

(** A call that finds a handle returns it at once and touches nothing. *)
Lemma call_cached chatId threadId (c : Bot.Calls) :
  Bot.cachedThread chatId (Bot.process c) = Some threadId →
  Bot.step svc (Bot.Call chatId) c
  = Some (Bot.mkCalls (Bot.process c) (S (Bot.made c)) (Bot.suspended c)
            (<[Bot.made c := Fulfilled threadId]> (Bot.returned c))).
Proof. intros H. simpl. unfold Bot.getThreadId_enter. by rewrite H. Qed.

(** A call that finds none asks for a thread and is suspended. *)
Lemma call_allocating chatId (c : Bot.Calls) :
  Bot.cachedThread chatId (Bot.process c) = None →
  ∃ r w,
    threads_create svc (world (Bot.process c)) = (r, w)
    ∧ Bot.step svc (Bot.Call chatId) c
      = Some (Bot.mkCalls (setWorld w CreateThread (Bot.process c))
                (S (Bot.made c))
                (<[Bot.made c := (chatId, r)]> (Bot.suspended c))
                (Bot.returned c)).
Proof.
  intros H. simpl. unfold Bot.getThreadId_enter. rewrite H.
  unfold LLM.createThread, request.
  destruct (threads_create svc (world (Bot.process c))) as [r w].
  by exists r, w.
Qed.

Lemma allocations_setWorld w rq (p : Process) :
  Bot.allocations (setWorld w rq p)
  = Bot.allocations p + (if Bot.isCreateThread rq then 1 else 0).
Proof.
  unfold Bot.allocations, setWorld. simpl. rewrite filter_app, length_app.
  rewrite filter_cons. by destruct (Bot.isCreateThread rq).
Qed.

Lemma exec_cons j js (c : Bot.Calls) :
  Bot.exec svc (j :: js) c
  = match Bot.step svc j c with
    | Some c' => Bot.exec svc js c'
    | None => None
    end.
Proof. done. Qed.

(** Calls made one after the other once a handle is stored. *)
Lemma calls_after_store n chatId threadId (c : Bot.Calls) :
  Bot.cachedThread chatId (Bot.process c) = Some threadId →
  ∃ c', Bot.exec svc (replicate n (Bot.Call chatId)) c = Some c'
    ∧ Bot.process c' = Bot.process c
    ∧ Bot.made c' = Bot.made c + n
    ∧ Bot.suspended c' = Bot.suspended c
    ∧ (∀ i, Bot.made c ≤ i < Bot.made c + n →
         Bot.returned c' !! i = Some (Fulfilled threadId))
    ∧ (∀ i, i < Bot.made c → Bot.returned c' !! i = Bot.returned c !! i).
Proof.
  revert c. induction n as [|n IH]; intros c Hc.
  - exists c. simpl. repeat split; try done; try (intros; lia).
  - simpl replicate. rewrite exec_cons, (call_cached _ _ _ Hc).
    destruct (IH (Bot.mkCalls (Bot.process c) (S (Bot.made c))
                    (Bot.suspended c)
                    (<[Bot.made c := Fulfilled threadId]> (Bot.returned c))))
      as (c' & Hex & Hp & Hm & Hs & Hnew & Hold); [done|].
    simpl in *. exists c'. repeat split; try done; try lia.
    + intros i Hi. destruct (decide (i = Bot.made c)) as [->|Hne].
      * rewrite Hold by lia. by rewrite lookup_insert_eq.
      * apply Hnew. lia.
    + intros i Hi. rewrite Hold by lia. rewrite lookup_insert_ne by lia. done.
Qed.

(** Calls made while no handle is stored: each asks for a thread. *)
Lemma calls_before_store n chatId (c : Bot.Calls) :
  Bot.cachedThread chatId (Bot.process c) = None →
  ∃ c', Bot.exec svc (replicate n (Bot.Call chatId)) c = Some c'
    ∧ Bot.allocations (Bot.process c') = Bot.allocations (Bot.process c) + n
    ∧ threadIds (Bot.process c') = threadIds (Bot.process c)
    ∧ Bot.returned c' = Bot.returned c.
Proof.
  revert c. induction n as [|n IH]; intros c Hc.
  - exists c. simpl. repeat split; try done; try (intros; lia).
  - simpl replicate. rewrite exec_cons.
    destruct (call_allocating _ _ Hc) as (r & w & Hw & ->).
    destruct (IH (Bot.mkCalls (setWorld w CreateThread (Bot.process c))
                    (S (Bot.made c))
                    (<[Bot.made c := (chatId, r)]> (Bot.suspended c))
                    (Bot.returned c)))
      as (c' & Hex & Ha & Ht & Hr); [done|].
    simpl in *. exists c'. repeat split; try done.
    rewrite Ha, allocations_setWorld. simpl. lia.
Qed.

(** C3, as the code has it.  Calls of [getThreadId] for a chat without a
    handle, each made after the one before has returned: the first asks for
    a thread and stores it, the others return the stored handle, so one
    thread is asked for and all calls return the same handle (the service
    answering with a handle that is not the empty string).  Calls made
    before any of them has resumed each ask for a thread of their own. *)
Theorem calls_in_turn_allocate_once n chatId threadId (p : Process) w :
  Bot.cachedThread chatId p = None →
  threads_create svc (world p) = (Fulfilled threadId, w) →
  threadId ≠ "" →
  (∃ c, Bot.exec svc (Bot.Call chatId :: Bot.Resume 0
                        :: replicate n (Bot.Call chatId)) (Bot.start p)
        = Some c
      ∧ Bot.allocations (Bot.process c) = Bot.allocations p + 1
      ∧ threadIds (Bot.process c) = <[chatId := threadId]> (threadIds p)
      ∧ ∀ i, i < S n → Bot.returned c !! i = Some (Fulfilled threadId))
  ∧ (∃ c, Bot.exec svc (replicate (S n) (Bot.Call chatId)) (Bot.start p)
          = Some c
      ∧ Bot.allocations (Bot.process c) = Bot.allocations p + S n).
Proof.
  intros Hnone Hcreate Hne. split.
  - simpl Bot.exec. unfold Bot.getThreadId_enter. simpl. rewrite Hnone.
    unfold LLM.createThread, request. rewrite Hcreate. simpl.
    rewrite lookup_insert_eq. simpl.
    set (c1 := Bot.mkCalls _ _ _ _).
    destruct (calls_after_store n chatId threadId c1)
      as (c' & Hex & Hp & Hm & Hs & Hnew & Hold).
    { subst c1. simpl. by apply cachedThread_setThreadId. }
    exists c'. split; [done|]. rewrite Hp. subst c1. simpl in *.
    split; [|split; [done|]].
    + unfold Bot.allocations, Bot.setThreadId. simpl.
      rewrite filter_app, length_app. simpl. lia.
    + intros i Hi. destruct (decide (i = 0)) as [->|Hi0].
      * rewrite Hold by lia. by rewrite lookup_insert_eq.
      * apply Hnew. lia.
  - destruct (calls_before_store (S n) chatId (Bot.start p) Hnone)
      as (c' & Hex & Ha & _). by exists c'.
Qed.

Lemma step_threadIds j (c c' : Bot.Calls) :
  Bot.step svc j c = Some c' →
  threadIds (Bot.process c') = threadIds (Bot.process c)
  ∨ ∃ i chatId threadId,
      j = Bot.Resume i
      ∧ Bot.suspended c !! i = Some (chatId, Fulfilled threadId)
      ∧ threadIds (Bot.process c')
        = <[chatId := threadId]> (threadIds (Bot.process c)).
Proof.
  destruct j as [chatId|i]; simpl.
  - unfold Bot.getThreadId_enter.
    destruct (Bot.cachedThread chatId (Bot.process c)) as [t|].
    + intros [= <-]. by left.
    + unfold LLM.createThread, request.
      destruct (threads_create svc (world (Bot.process c))) as [r w].
      intros [= <-]. by left.
  - destruct (Bot.suspended c !! i) as [[chatId [threadId|e]]|] eqn:Hs;
      simpl; try discriminate.
    + intros [= <-]. right. by exists i, chatId, threadId.
    + intros [= <-]. by left.
Qed.

Lemma step_keeps_keys j (c c' : Bot.Calls) chatId :
  Bot.step svc j c = Some c' →
  is_Some (threadIds (Bot.process c) !! chatId) →
  is_Some (threadIds (Bot.process c') !! chatId).
Proof.
  intros Hstep Hin.
  destruct (step_threadIds _ _ _ Hstep)
    as [->|(i & chat & t & _ & _ & ->)]; [done|].
  destruct (decide (chat = chatId)) as [->|Hne].
  - rewrite lookup_insert_eq. by eexists.
  - by rewrite lookup_insert_ne.
Qed.

Lemma exec_keeps_keys js (c c' : Bot.Calls) chatId :
  Bot.exec svc js c = Some c' →
  is_Some (threadIds (Bot.process c) !! chatId) →
  is_Some (threadIds (Bot.process c') !! chatId).
Proof.
  revert c. induction js as [|j js IH]; intros c.
  - by intros [= <-].
  - rewrite exec_cons. destruct (Bot.step svc j c) as [c1|] eqn:Hstep;
      [|discriminate].
    intros Hex Hin. apply (IH c1 Hex). by eapply step_keeps_keys.
Qed.

(** C7, as the code has it.  Along any schedule of [getThreadId] calls the
    chats that have an entry keep having one.  A call made when a handle
    other than the empty string is stored returns that handle, asks for no
    thread and leaves the map as it is.  An entry changes only when a call
    that was suspended on [createThread] resumes, and then to the handle
    that call was given. *)
Theorem entries_stay_and_change_only_on_resume js (c c' : Bot.Calls) :
  Bot.exec svc js c = Some c' →
  (∀ chatId, is_Some (threadIds (Bot.process c) !! chatId) →
             is_Some (threadIds (Bot.process c') !! chatId))
  ∧ (∀ chatId threadId,
       threadIds (Bot.process c') !! chatId = Some threadId →
       threadId ≠ "" →
       ∃ c'', Bot.step svc (Bot.Call chatId) c' = Some c''
         ∧ Bot.process c'' = Bot.process c'
         ∧ Bot.returned c'' !! Bot.made c' = Some (Fulfilled threadId))
  ∧ (∀ j c'' chatId threadId,
       Bot.step svc j c' = Some c'' →
       threadIds (Bot.process c') !! chatId = Some threadId →
       threadIds (Bot.process c'') !! chatId ≠ Some threadId →
       ∃ i threadId',
         j = Bot.Resume i
         ∧ Bot.suspended c' !! i = Some (chatId, Fulfilled threadId')
         ∧ threadIds (Bot.process c'') !! chatId = Some threadId').
Proof.
  intros Hex. split; [|split].
  - intros chatId. by apply exec_keeps_keys with js.
  - intros chatId threadId Hentry Hne.
    assert (Hc : Bot.cachedThread chatId (Bot.process c') = Some threadId).
    { unfold Bot.cachedThread. rewrite Hentry. by rewrite decide_False. }
    eexists. split; [by apply call_cached|]. simpl.
    by rewrite lookup_insert_eq.
  - intros j c'' chatId threadId Hstep Hentry Hchanged.
    destruct (step_threadIds _ _ _ Hstep)
      as [Heq|(i & chat & t & -> & Hs & Heq)].
    + rewrite Heq in Hchanged. done.
    + rewrite Heq in Hchanged |- *.
      destruct (decide (chat = chatId)) as [->|Hne].
      * exists i, t. by rewrite lookup_insert_eq.
      * by rewrite lookup_insert_ne in Hchanged.
Qed.

End BotFacts.

(** Two overlapping calls for one chat: two threads are asked for, the
    calls return different handles, and the entry stored by the first is
    replaced by the second. *)
Lemma overlapping_calls_allocate_twice :
  ∃ c, Bot.exec Demo.service Demo.overlapping
                (Bot.start (Demo.fresh Demo.twoThreads)) = Some c
    ∧ Bot.allocations (Bot.process c) = 2
    ∧ Bot.returned c !! 0 = Some (Fulfilled "thread_1")
    ∧ Bot.returned c !! 1 = Some (Fulfilled "thread_2").
Proof. eexists. repeat split; reflexivity. Qed.

Lemma calls_in_turn_allocate_once_witness :
  ∃ c, Bot.exec Demo.service
         [Bot.Call "dm_1"; Bot.Resume 0; Bot.Call "dm_1"; Bot.Call "dm_1"]
         (Bot.start (Demo.fresh Demo.twoThreads)) = Some c
    ∧ Bot.allocations (Bot.process c) = 1.
Proof.
  destruct (calls_in_turn_allocate_once Demo.service 2 "dm_1" "thread_1"
              (Demo.fresh Demo.twoThreads) _ eq_refl eq_refl)
    as [(c & Hex & Halloc & _) _]; [done|].
  exists c. split; [exact Hex | exact Halloc].
Defined.

(** The entry stored by the first call is replaced when the second call
    resumes, and a call made afterwards returns the second handle. *)
Lemma overlapping_calls_replace_entry :
  ∃ c3 c4 c5,
    Bot.exec Demo.service (take 3 Demo.overlapping)
             (Bot.start (Demo.fresh Demo.twoThreads)) = Some c3
    ∧ threadIds (Bot.process c3) !! "dm_1" = Some "thread_1"
    ∧ Bot.step Demo.service (Bot.Resume 1) c3 = Some c4
    ∧ threadIds (Bot.process c4) !! "dm_1" = Some "thread_2"
    ∧ Bot.step Demo.service (Bot.Call "dm_1") c4 = Some c5
    ∧ Bot.returned c5 !! 2 = Some (Fulfilled "thread_2").
Proof. eexists _, _, _. repeat split; reflexivity. Qed.

Lemma entries_stay_and_change_only_on_resume_witness :
  ∃ c, Bot.exec Demo.service (take 3 Demo.overlapping)
                (Bot.start (Demo.fresh Demo.twoThreads)) = Some c
    ∧ ∀ chatId, is_Some (threadIds (Demo.fresh Demo.twoThreads) !! chatId) →
                is_Some (threadIds (Bot.process c) !! chatId).
Proof.
  destruct (Bot.exec Demo.service (take 3 Demo.overlapping)
              (Bot.start (Demo.fresh Demo.twoThreads))) as [c|] eqn:Hex;
    [|discriminate Hex].
  exists c. split; [reflexivity|].
  exact (proj1 (entries_stay_and_change_only_on_resume Demo.service
                  (take 3 Demo.overlapping) _ c Hex)).
Defined.

Lemma response_keeps_threadIds_witness :
  ∃ rqs,
    log (Bot.response Demo.service Demo.tools Demo.assistants 1
           "dm_1" "DM_assistant" (Demo.fresh Demo.completedWorld)).2
    = CreateRun None (Some "asst_2") 50 :: rqs.
Proof.
  exact (proj2 (proj2 (response_keeps_threadIds Demo.service Demo.tools
                         Demo.assistants 1 "dm_1" "DM_assistant"
                         (Demo.fresh Demo.completedWorld)))
               "asst_2" eq_refl eq_refl).
Defined.

(** * Properties of the interface *)

Section DiscordFacts.

Context {W json : Type}.
Variable svc : Service W json.

Local Abbreviation Process := (Process W).

Lemma grows_ret {A} (a : A) : grows (ret a : M Process A).
Proof. intros p. simpl. repeat split. exists []. by rewrite app_nil_r. Qed.

Lemma grows_throw {A} e : grows (@throw Process A e).
Proof. intros p. simpl. repeat split. exists []. by rewrite app_nil_r. Qed.

Lemma grows_request {A} rq (f : W → Settled A * W) : grows (request rq f).
Proof.
  intros p. unfold request. destruct (f (world p)) as [r w]. simpl.
  repeat split. by exists [rq].
Qed.

Lemma grows_bind {A B} (m : M Process A) (f : A → M Process B) :
  grows m → (∀ a, grows (f a)) → grows (bind m f).
Proof.
  intros Hm Hf p. unfold bind. specialize (Hm p).
  destruct (m p) as [[a|e] p1]; simpl in *; [|done].
  destruct Hm as (Hs & Ha & rqs & Hl).
  destruct (Hf a p1) as (Hs' & Ha' & rqs' & Hl').
  rewrite Hs', Ha', Hl', Hs, Ha, Hl. repeat split.
  exists (rqs ++ rqs'). by rewrite app_assoc.
Qed.

Lemma grows_forEach {A} (f : A → M Process unit) (l : list A) :
  (∀ a, grows (f a)) → grows (forEach f l).
Proof.
  intros Hf. induction l as [|a l IH]; simpl; [apply grows_ret|].
  by apply grows_bind.
Qed.

Lemma grows_getThreadId chatId : grows (Bot.getThreadId svc chatId).
Proof.
  intros p. unfold Bot.getThreadId, Bot.getThreadId_enter.
  destruct (Bot.cachedThread chatId p) as [t|].
  { simpl. repeat split. exists []. by rewrite app_nil_r. }
  unfold LLM.createThread, request.
  destruct (threads_create svc (world p)) as [[t|e] w]; simpl;
    repeat split; by exists [CreateThread].
Qed.

Lemma grows_addMessage chatId message :
  grows (Bot.addMessage svc chatId message).
Proof.
  unfold Bot.addMessage. apply grows_bind; [apply grows_getThreadId|].
  intros t. apply grows_request.
Qed.

(** One message added to a chat that has a thread. *)
Lemma addMessage_cached chatId threadId message (p : Process) :
  Bot.cachedThread chatId p = Some threadId →
  ∃ r w, Bot.addMessage svc chatId message p
         = (r, setWorld w (CreateMessage (Some threadId) (Bot.toParams message))
                        p).
Proof.
  intros Hc. unfold Bot.addMessage, bind, Bot.getThreadId,
    Bot.getThreadId_enter. rewrite Hc.
  unfold LLM.addMessage, LLM.enqueueOperation, request.
  destruct (messages_create svc (Some threadId) (Bot.toParams message)
              (world p)) as [r w].
  by exists r, w.
Qed.

Lemma cachedThread_setWorld chatId w rq (p : Process) :
  Bot.cachedThread chatId (setWorld w rq p) = Bot.cachedThread chatId p.
Proof. done. Qed.

(** Messages replayed into a chat that has a thread: each is created in
    that thread, in the order of the list, and the map is not touched. *)
Lemma replay_cached chatId threadId messages (p p2 : Process) :
  Bot.cachedThread chatId p = Some threadId →
  Forall (DiscordInterface.fromChannel chatId) messages →
  forEach (DiscordInterface.addMessageToBotThread svc chatId) messages p
  = (Fulfilled tt, p2) →
  threadIds p2 = threadIds p
  ∧ log p2 = log p ++ ((λ m, CreateMessage (Some threadId) (Bot.toParams m))
                         <$> messages).
Proof.
  intros Hc Hall. revert p Hc. induction Hall as [|m messages Hm _ IH];
    intros p Hc; simpl.
  - intros [= <-]. by rewrite app_nil_r.
  - unfold bind at 1. unfold DiscordInterface.addMessageToBotThread at 1.
    unfold DiscordInterface.fromChannel in Hm. rewrite Hm.
    destruct (addMessage_cached chatId threadId m p Hc) as (r & w & ->).
    destruct r as [[]|e]; [|discriminate].
    intros Hrest. apply IH in Hrest as [Ht Hl]; [|done].
    split; [done|]. rewrite Hl. simpl. by rewrite <- app_assoc.
Qed.


(** The requests of a replay that goes through: the thread is asked for
    when the chat has none, then each message is created in the thread of
    the chat, in the order of the list. *)
Lemma replay_log chatId messages (p p2 : Process) :
  Bot.nonEmptyThreads svc →
  Forall (DiscordInterface.fromChannel chatId) messages →
  messages ≠ [] →
  forEach (DiscordInterface.addMessageToBotThread svc chatId) messages p
  = (Fulfilled tt, p2) →
  ∃ threadId,
    threadIds p2 !! chatId = Some threadId
    ∧ log p2 = log p
        ++ Bot.allocation chatId p
        ++ ((λ m, CreateMessage (Some threadId) (Bot.toParams m))
              <$> messages).
Proof.
  intros Hne Hall Hnil Hrun. unfold Bot.allocation.
  destruct (Bot.cachedThread chatId p) as [t|] eqn:Hc.
  - destruct (replay_cached chatId t messages p p2 Hc Hall Hrun) as [Ht Hl].
    exists t. split; [|done]. rewrite Ht.
    unfold Bot.cachedThread in Hc.
    destruct (threadIds p !! chatId) as [t'|]; [|done].
    by destruct (decide (t' = "")); simplify_eq.
  - destruct messages as [|m messages]; [done|].
    apply Forall_cons in Hall as [Hm Hall].
    simpl in Hrun. unfold bind at 1 in Hrun.
    unfold DiscordInterface.addMessageToBotThread at 1 in Hrun.
    unfold DiscordInterface.fromChannel in Hm. rewrite Hm in Hrun.
    unfold Bot.addMessage, bind, Bot.getThreadId, Bot.getThreadId_enter
      in Hrun. rewrite Hc in Hrun.
    unfold LLM.createThread, request in Hrun.
    destruct (threads_create svc (world p)) as [[t|e] w] eqn:Hcreate;
      simpl in Hrun; [|discriminate].
    unfold LLM.addMessage, LLM.enqueueOperation, request in Hrun.
    simpl in Hrun.
    destruct (messages_create svc (Some t) (Bot.toParams m) w)
      as [[[]|e] w2]; [|discriminate].
    apply replay_cached with (threadId := t) in Hrun as [Ht Hl]; [|..|done].
    + exists t. split.
      * rewrite Ht. simpl. by rewrite lookup_insert_eq.
      * rewrite Hl. simpl. by rewrite <- !app_assoc.
    + unfold Bot.cachedThread. simpl. rewrite lookup_insert_eq.
      rewrite decide_False; [done|]. by eapply Hne.
Qed.

(** C6, as the code has it.  A channel not yet activated is activated by a
    call whose replay goes through: the messages fetched, which Discord
    gives the most recent first, are created oldest first in the thread of
    the channel, the channel is marked, and a second call changes nothing
    and sends nothing.  When a step of the replay throws, the call still
    returns normally but the channel is not marked, and the next call
    fetches and replays again.  A call for a marked channel is always a
    no-op. *)
Theorem activation_is_kept_only_when_replay_succeeds
    (channel : string) messages (p p1 : Process) :
  channel ∉ activeDMChannels p →
  DiscordInterface.getLastMessages svc channel 30 p = (Fulfilled messages, p1) →
  Forall (DiscordInterface.fromChannel channel) messages →
  Bot.nonEmptyThreads svc →
  (∀ p2,
     forEach (DiscordInterface.addMessageToBotThread svc channel)
             (reverse messages) p1 = (Fulfilled tt, p2) →
     let p3 := DiscordInterface.setActiveDMChannels
                 (activeDMChannels p2 ++ [channel]) p2 in
     (DiscordInterface.activateDMChannel svc channel p = (Fulfilled tt, p3)
      ∧ DiscordInterface.activateDMChannel svc channel p3 = (Fulfilled tt, p3)
      ∧ (messages ≠ [] →
         ∃ threadId,
           threadIds p3 !! channel = Some threadId
           ∧ log p3 = log p ++ [FetchMessages channel 30]
               ++ Bot.allocation channel p
               ++ ((λ m, CreateMessage (Some threadId) (Bot.toParams m))
                     <$> reverse messages))))
  ∧ (∀ e p2,
       forEach (DiscordInterface.addMessageToBotThread svc channel)
               (reverse messages) p1 = (Rejected e, p2) →
       DiscordInterface.activateDMChannel svc channel p = (Fulfilled tt, p2)
       ∧ (channel ∉ activeDMChannels p2)
       ∧ ∃ rqs, log (DiscordInterface.activateDMChannel svc channel p2).2
                = log p2 ++ FetchMessages channel 30 :: rqs)
  ∧ (∀ q : Process,
       channel ∈ activeDMChannels q →
       DiscordInterface.activateDMChannel svc channel q = (Fulfilled tt, q)).
Proof.
  intros Hnot Hfetch Hfrom Hne.
  assert (Hidle : ∀ q : Process, channel ∈ activeDMChannels q →
            DiscordInterface.activateDMChannel svc channel q = (Fulfilled tt, q)).
  { intros q Hq. unfold DiscordInterface.activateDMChannel.
    by rewrite bool_decide_eq_true_2. }
  assert (Hp1 : ∃ w, p1 = setWorld w (FetchMessages channel 30) p).
  { unfold DiscordInterface.getLastMessages, tryCatch, request in Hfetch.
    destruct (channel_messages_fetch svc channel 30 (world p)) as [[l|e] w];
      simpl in Hfetch; injection Hfetch as <- <-; by exists w. }
  destruct Hp1 as [w Hp1].
  split; [|split; [|done]].
  - intros p2 Hreplay p3.
    assert (Hfirst : DiscordInterface.activateDMChannel svc channel p
                     = (Fulfilled tt, p3)).
    { unfold DiscordInterface.activateDMChannel.
      rewrite bool_decide_eq_false_2 by done.
      unfold tryCatch. unfold bind at 1. rewrite Hfetch.
      unfold bind at 1. by rewrite Hreplay. }
    split; [done|]. split.
    + apply Hidle. subst p3. simpl. apply elem_of_app. right. left.
    + intros Hnil.
      destruct (replay_log channel (reverse messages) p1 p2 Hne) as (t & Ht & Hl).
      * by apply Forall_reverse.
      * intros Hrev. apply Hnil. apply (f_equal reverse) in Hrev.
        by rewrite reverse_involutive in Hrev.
      * done.
      * exists t. subst p3. simpl. split; [done|]. rewrite Hl, Hp1. simpl.
        unfold Bot.allocation. rewrite cachedThread_setWorld.
        by rewrite <- !app_assoc.
  - intros e p2 Hreplay.
    assert (Hactive : activeDMChannels p2 = activeDMChannels p).
    { destruct (grows_forEach
                  (DiscordInterface.addMessageToBotThread svc channel)
                  (reverse messages)
                  (λ m, grows_addMessage (channelId m) m) p1)
        as (_ & Ha & _).
      rewrite Hreplay in Ha. simpl in Ha. rewrite Ha, Hp1. done. }
    split; [|split].
    + unfold DiscordInterface.activateDMChannel.
      rewrite bool_decide_eq_false_2 by done.
      unfold tryCatch. unfold bind at 1. rewrite Hfetch.
      unfold bind at 1. by rewrite Hreplay.
    + by rewrite Hactive.
    + unfold DiscordInterface.activateDMChannel.
      rewrite bool_decide_eq_false_2 by (by rewrite Hactive).
      unfold tryCatch. unfold bind at 1.
      unfold DiscordInterface.getLastMessages, tryCatch, request.
      destruct (channel_messages_fetch svc channel 30 (world p2))
        as [[l|e'] w']; simpl.
      * set (q := setWorld w' (FetchMessages channel 30) p2).
        destruct (grows_forEach
                    (DiscordInterface.addMessageToBotThread svc channel)
                    (reverse l) (λ m, grows_addMessage (channelId m) m) q)
          as (_ & _ & rqs & Hl).
        unfold bind.
        destruct (forEach (DiscordInterface.addMessageToBotThread svc channel)
                          (reverse l) q) as [[[]|e'] q']; simpl in *;
          exists rqs; rewrite Hl; subst q; simpl; by rewrite <- app_assoc.
      * set (q := setWorld w' (FetchMessages channel 30) p2).
        destruct (grows_forEach
                    (DiscordInterface.addMessageToBotThread svc channel)
                    (reverse []) (λ m, grows_addMessage (channelId m) m) q)
          as (_ & _ & rqs & Hl).
        exists []. done.
Qed.

(** The command [subscribe] adds the channel to the list whether or not it
    is there already. *)
Lemma subscribe_appends (channel : string) (p : Process) w :
  db_upsertChannel svc channel true (world p) = (Fulfilled tt, w) →
  subscriberChannels (DiscordInterface.subscribe svc channel p).2
  = subscriberChannels p ++ [channel].
Proof.
  intros Hup. unfold DiscordInterface.subscribe, tryCatch, bind, request.
  by rewrite Hup.
Qed.

(** The command [unsubscribe] removes every occurrence of the channel. *)
Lemma unsubscribe_removes_all (channel : string) (p : Process) w :
  db_upsertChannel svc channel false (world p) = (Fulfilled tt, w) →
  channel ∉ subscriberChannels (DiscordInterface.unsubscribe svc channel p).2.
Proof.
  intros Hup. unfold DiscordInterface.unsubscribe, tryCatch, bind, request.
  rewrite Hup. simpl. rewrite list_elem_of_filter. tauto.
Qed.

End DiscordFacts.

Lemma demo_nonEmptyThreads : Bot.nonEmptyThreads Demo.service.
Proof.
  intros w t w'. simpl. destruct (Demo.next (Demo.freshThreads w)) as [[n|e] l];
    intros [= <- _]; discriminate.
Qed.

(** A replay that fails half way: the call returns normally and leaves the
    channel unmarked; the second call fetches and replays again, so the
    older message is created twice. *)
Lemma failed_replay_is_repeated :
  Demo.lossyOnce.1 = Fulfilled tt
  ∧ activeDMChannels Demo.lossyOnce.2 = []
  ∧ Demo.lossyTwice.1 = Fulfilled tt
  ∧ activeDMChannels Demo.lossyTwice.2 = ["dm_1"]
  ∧ log Demo.lossyTwice.2
    = [ FetchMessages "dm_1" 30; CreateThread;
        CreateMessage (Some "thread_1") (Bot.toParams Demo.hello);
        CreateMessage (Some "thread_1") (Bot.toParams Demo.riddle);
        FetchMessages "dm_1" 30;
        CreateMessage (Some "thread_1") (Bot.toParams Demo.hello);
        CreateMessage (Some "thread_1") (Bot.toParams Demo.riddle) ].
Proof. repeat split; reflexivity. Qed.

Lemma activation_is_kept_only_when_replay_succeeds_witness :
  ∃ p3 : Process Demo.World,
    DiscordInterface.activateDMChannel Demo.service "dm_1"
      (Demo.fresh Demo.steadyWorld) = (Fulfilled tt, p3)
    ∧ DiscordInterface.activateDMChannel Demo.service "dm_1" p3
      = (Fulfilled tt, p3).
Proof.
  assert (Hnot : "dm_1" ∉ activeDMChannels (Demo.fresh Demo.steadyWorld)).
  { apply not_elem_of_nil. }
  destruct (activation_is_kept_only_when_replay_succeeds Demo.service "dm_1"
              [Demo.riddle; Demo.hello] (Demo.fresh Demo.steadyWorld) _
              Hnot eq_refl) as [Hok _].
  - repeat constructor.
  - exact demo_nonEmptyThreads.
  - destruct (Hok _ eq_refl) as (Hfirst & Hsecond & _).
    eexists. split; [exact Hfirst | exact Hsecond].
Defined.

(** C8.  The command [subscribe] given twice for one channel: the channel
    is listed twice, and the next broadcast sends the brainteaser to it
    twice.  The table of channels, written by the same command, holds the
    channel once, and the list loaded from it at start-up names it once. *)
Theorem subscribing_twice_doubles_the_broadcast :
  subscriberChannels Demo.subscribedTwice = ["chan_1"; "chan_1"]
  ∧ DiscordInterface.sentTo "chan_1"
      (log (DiscordInterface.broadcastBrainteaserOfTheDay Demo.service
              Demo.subscribedTwice).2)
    = [ "**Brainteaser of the Day #1: Two doors**";
        "**Brainteaser of the Day #1: Two doors**" ]
  ∧ (db_getSubscribedChannelIds Demo.service (world Demo.subscribedTwice)).1
    = Fulfilled ["chan_1"]
  ∧ subscriberChannels
      (DiscordInterface.intializeSubscribers Demo.service
         Demo.subscribedTwice).2
    = ["chan_1"].
Proof. repeat split; reflexivity. Qed.

(** * More on the serialized queue *)

Section QueueMore.
Import Queue History.

Lemma outcomesOn_app k t1 t2 :
  outcomesOn k (t1 ++ t2) = outcomesOn k t1 ++ outcomesOn k t2.
Proof. apply omap_app. Qed.

(** While the block under a key is alive it works through everything queued
    there: whatever the outcomes, rejections included, each operation is
    started after the one before it has settled, each settles with its own
    outcome, and the block returns with the queue empty. *)
Theorem alive_block_runs_whole_queue k rs s op :
  processingPromise s !! k = Some (Some (Awaiting op)) →
  length rs = S (length (queueOf s k)) →
  ∃ s', exec (drainJobs k rs) s = Some s'
    ∧ startedOn k (trace s') = startedOn k (trace s) ++ queueOf s k
    ∧ outcomesOn k (trace s')
      = outcomesOn k (trace s) ++ zip (op :: queueOf s k) rs
    ∧ processingPromise s' !! k = Some (Some Returned)
    ∧ queueOf s' k = [].
Proof.
  revert s op. induction rs as [|r rs IH]; intros s op Hp Hlen; [done|].
  simpl. unfold settle. rewrite Hp. simpl. unfold resume. simpl.
  rewrite lookup_insert_eq. unfold runBlock.
  change (queueOf (mkLLM (operationQueue s) _ _ _) k) with (queueOf s k).
  destruct (queueOf s k) as [|o rest] eqn:Hq; simpl in *.
  - destruct rs; [|done]. simpl. eexists. split; [done|]. simpl.
    rewrite lookup_insert_eq. unfold queueOf. simpl. fold (queueOf s k).
    rewrite Hq, startedOn_app, outcomesOn_app, !app_nil_r. simpl.
    by rewrite decide_True.
  - edestruct (IH (mkLLM (<[k:=rest]> (operationQueue s))
                 (<[k:=Some (Awaiting o)]>
                    (<[k:=Some Resuming]> (processingPromise s)))
                 (submitted s)
                 ((trace s ++ [Finished k op r; Delivered op r])
                    ++ [Started k o])) o)
      as (s' & Hex & Hst & Hout & Hpp & Hqq).
    + simpl. by rewrite lookup_insert_eq.
    + rewrite queueOf_insert_eq. lia.
    + exists s'. split; [done|]. split; [|split; [|done]].
      * rewrite Hst, queueOf_insert_eq. simpl.
        rewrite !startedOn_app. simpl. rewrite decide_True by done.
        by rewrite app_nil_r, <- app_assoc.
      * rewrite Hout, queueOf_insert_eq. simpl.
        rewrite !outcomesOn_app. simpl. rewrite decide_True by done.
        by rewrite app_nil_r, <- app_assoc.
Qed.

Lemma alive_block_runs_whole_queue_witness :
  ∃ s', exec (drainJobs "thread_1"
                [Rejected "Error: Connection error."; Fulfilled "a";
                 Fulfilled "b"]) threeQueued = Some s'
    ∧ startedOn "thread_1" (trace s') = [0; 1; 2].
Proof.
  destruct (alive_block_runs_whole_queue "thread_1"
              [Rejected "Error: Connection error."; Fulfilled "a";
               Fulfilled "b"] threeQueued 0 eq_refl eq_refl)
    as (s' & Hex & Hst & _).
  exists s'. split; [exact Hex | exact Hst].
Defined.

Lemma prefix_NoDup {A} (l1 l2 : list A) :
  l1 `prefix_of` l2 → NoDup l2 → NoDup l1.
Proof. intros [l ->] H. by apply NoDup_app in H as [H _]. Qed.

(** No operation is started twice or finishes twice: what settled, rejected
    or not, is never run again. *)
Theorem operations_run_once s k :
  reachable s →
  NoDup (startedOn k (trace s)) ∧ NoDup (finishedOn k (trace s)).
Proof.
  intros Hr. destruct (reachable_ok s Hr) as [Hinv _].
  destruct (Hinv k) as (He & Hs & _ & Hnd).
  assert (Hst : NoDup (startedOn k (trace s))).
  { apply (prefix_NoDup _ (enqueuedOn k (trace s))); [|done].
    rewrite He. by eexists. }
  split; [done|].
  apply (prefix_NoDup _ (startedOn k (trace s))); [|done].
  rewrite Hs. by eexists.
Qed.

Lemma operations_run_once_witness :
  NoDup (startedOn "thread_1" (trace threeQueued)).
Proof.
  refine (proj1 (operations_run_once threeQueued "thread_1" _)).
  exists [Enqueue "thread_1"; Enqueue "thread_1"; Enqueue "thread_1"].
  reflexivity.
Defined.

Lemma exec_preserves (P : LLM → Prop) :
  (∀ j s s', P s → step j s = Some s' → P s') →
  ∀ js s s', P s → exec js s = Some s' → P s'.
Proof.
  intros Hstep js. induction js as [|j js IH]; intros s s' Hs; simpl.
  - by intros [= <-].
  - destruct (step j s) as [s1|] eqn:Hj; [|discriminate].
    apply IH. by eapply Hstep.
Qed.

Lemma runBlock_settles_nothing k s :
  outcomes (trace (runBlock k s)) = outcomes (trace s)
  ∧ deliveries (trace (runBlock k s)) = deliveries (trace s).
Proof.
  unfold runBlock. destruct (queueOf s k); simpl; [done|].
  unfold outcomes, deliveries. rewrite !omap_app. simpl.
  by rewrite !app_nil_r.
Qed.

(** The promises of the callers are settled as the operations settle: in the
    same order, each once, each with the outcome of its own operation. *)
Theorem promises_settle_as_operations_do s :
  reachable s → deliveries (trace s) = outcomes (trace s).
Proof.
  intros [js Hjs]. revert Hjs.
  apply (exec_preserves (λ s, deliveries (trace s) = outcomes (trace s)));
    [|done].
  intros j s0 s1 Hs0. destruct j as [k|k r|k|k]; simpl.
  - intros [= <-]. unfold enqueueOperation, processQueue.
    set (s2 := mkLLM _ _ _ _).
    assert (H2 : deliveries (trace s2) = outcomes (trace s2)).
    { subst s2. simpl. unfold outcomes, deliveries in *.
      rewrite !omap_app. simpl. by rewrite Hs0. }
    destruct (truthy (processingPromise s2 !! k)); [done|].
    destruct (runBlock_settles_nothing k s2) as [-> ->]. done.
  - unfold settle.
    destruct (processingPromise s0 !! k) as [[[op| |]|]|]; try discriminate.
    intros [= <-]. simpl. unfold outcomes, deliveries in *.
    rewrite !omap_app. simpl. by rewrite Hs0.
  - unfold resume.
    destruct (processingPromise s0 !! k) as [[[op| |]|]|]; try discriminate.
    intros [= <-]. destruct (runBlock_settles_nothing k s0) as [-> ->]. done.
  - unfold clear.
    destruct (processingPromise s0 !! k) as [[[op| |]|]|]; try discriminate.
    by intros [= <-].
Qed.

Lemma promises_settle_as_operations_do_witness :
  deliveries (trace stranded) = outcomes (trace stranded).
Proof.
  apply promises_settle_as_operations_do. exists retryAtOnce. reflexivity.
Defined.

(** An operation submitted under an idle key runs alone from submission to
    the clearing of the promise and leaves the key idle again; the history
    gains its submission, start, end and delivery, and the other keys are
    not touched. *)
Theorem lone_operation_returns_to_idle k r s :
  idle s k →
  ∃ s', exec (loneRun k r) s = Some s'
    ∧ idle s' k
    ∧ trace s' = trace s ++ [ Enqueued k (submitted s); Started k (submitted s);
                              Finished k (submitted s) r;
                              Delivered (submitted s) r ]
    ∧ ∀ k', k' ≠ k →
        processingPromise s' !! k' = processingPromise s !! k'
        ∧ operationQueue s' !! k' = operationQueue s !! k'.
Proof.
  intros [Hp Hq]. unfold loneRun. simpl.
  unfold enqueueOperation, processQueue. simpl. rewrite Hp.
  unfold runBlock. rewrite queueOf_insert_eq, Hq. simpl.
  unfold settle. simpl. rewrite lookup_insert_eq.
  unfold resume. simpl. rewrite lookup_insert_eq.
  unfold runBlock. rewrite queueOf_insert_eq. simpl.
  unfold clear. simpl. rewrite lookup_insert_eq.
  eexists. split; [done|]. split; [|split].
  - split; simpl.
    + by rewrite lookup_insert_eq.
    + by rewrite queueOf_insert_eq.
  - simpl. by rewrite <- !app_assoc.
  - intros k' Hne. simpl. by rewrite !lookup_insert_ne.
Qed.

Lemma lone_operation_returns_to_idle_witness :
  ∃ s', exec (loneRun "thread_1" (Rejected "Error: Connection error.")) init
        = Some s'
    ∧ idle s' "thread_1".
Proof.
  destruct (lone_operation_returns_to_idle "thread_1"
              (Rejected "Error: Connection error.") init)
    as (s' & Hex & Hidle & _).
  - split; reflexivity.
  - exists s'. split; [exact Hex | exact Hidle].
Defined.

End QueueMore.

(** * More on the run driver *)

Section DriverMore.

Context {W json : Type}.
Variable svc : Service W json.
Variable tools : gmap string (Handler W json).

Local Abbreviation Process := (Process W).

Lemma sleeps_setWorld w rq (p : Process) :
  Polling.sleeps (log (setWorld w rq p))
  = Polling.sleeps (log p) + (if Polling.isSleep rq then 1 else 0).
Proof.
  unfold Polling.sleeps, setWorld. simpl. rewrite filter_app, length_app.
  f_equal. rewrite filter_cons. by destruct (Polling.isSleep rq).
Qed.

(** While the polls find the run queued or in progress the loop only waits:
    [n] such polls cost [n] sleeps of one second and as many turns, and the
    call then goes on as if it had started from the run they left. *)
Theorem waiting_polls_only_sleep n threadId (run run' : Run) (p p' : Process) :
  Polling.waits svc n threadId run p = Some (run', p') →
  (∀ fuel, LLM.poll svc (n + fuel) threadId tools run p
           = LLM.poll svc fuel threadId tools run' p')
  ∧ Polling.sleeps (log p') = Polling.sleeps (log p) + n
  ∧ threadIds p' = threadIds p.
Proof.
  revert run p. induction n as [|n IH]; intros run p; simpl.
  - intros [= <- <-]. split; [done|]. split; [lia|done].
  - destruct (runs_retrieve svc threadId (run_id run) (world p))
      as [[run1|e] w] eqn:Hpoll; [|discriminate].
    destruct (Polling.pending (status run1)) eqn:Hpend; [|discriminate].
    intros Hw. apply IH in Hw as (Hfuel & Hsleeps & Hmap).
    unfold Polling.pending in Hpend. apply bool_decide_eq_true in Hpend.
    split; [|split].
    + intros fuel. rewrite <- Hfuel. unfold bind at 1. unfold LLM.turn.
      rewrite (bind_fulfilled _ _ _ _ _ (request_eq _ _ _ _ _ Hpoll)).
      destruct Hpend as [Hs|Hs]; rewrite Hs; simpl; done.
    + rewrite Hsleeps, !sleeps_setWorld. simpl. lia.
    + by rewrite Hmap.
Qed.

(** A request to the service that is rejected ends the call with the error
    of the request, and nothing is sent after it: the creation of the run,
    a poll, the listing of the messages of a completed run. *)
Theorem rejected_requests_end_the_call fuel threadId assistantId
    (run0 : Run) (p : Process) :
  (∀ e w,
     runs_create svc threadId assistantId 50 (world p) = (Rejected e, w) →
     LLM.runAssistant svc fuel threadId assistantId tools p
     = (Rejected e, setWorld w (CreateRun threadId assistantId 50) p))
  ∧ (∀ e w,
       runs_retrieve svc threadId (run_id run0) (world p) = (Rejected e, w) →
       LLM.poll svc (S fuel) threadId tools run0 p
       = (Rejected e, setWorld w (RetrieveRun threadId (run_id run0)) p))
  ∧ (∀ run w1 e w2,
       runs_retrieve svc threadId (run_id run0) (world p)
       = (Fulfilled run, w1) →
       status run = "completed" →
       messages_list svc threadId w1 = (Rejected e, w2) →
       LLM.poll svc (S fuel) threadId tools run0 p
       = (Rejected e,
          setWorld w2 (ListMessages threadId)
            (setWorld w1 (RetrieveRun threadId (run_id run0)) p))).
Proof.
  split; [|split].
  - intros e w Hcreate. unfold LLM.runAssistant, LLM.enqueueOperation.
    by rewrite (bind_rejected _ _ _ _ _ (request_eq _ _ _ _ _ Hcreate)).
  - intros e w Hpoll. apply poll_throw. unfold LLM.turn.
    by rewrite (bind_rejected _ _ _ _ _ (request_eq _ _ _ _ _ Hpoll)).
  - intros run w1 e w2 Hpoll Hstatus Hlist. apply poll_throw.
    unfold LLM.turn.
    rewrite (bind_fulfilled _ _ _ _ _ (request_eq _ _ _ _ _ Hpoll)).
    rewrite Hstatus. simpl. unfold LLM.completed.
    assert (Hl : messages_list svc threadId
                   (world (setWorld w1 (RetrieveRun threadId (run_id run0)) p))
                 = (Rejected e, w2)) by done.
    by rewrite (bind_rejected _ _ _ _ _ (request_eq _ _ _ _ _ Hl)).
Qed.

(** A run in [requires_action] that names no action makes the call throw.
    One whose action is of another type than [submit_tool_outputs] is
    polled again at once: no handler is invoked, nothing is submitted and
    the loop does not sleep. *)
Theorem other_required_actions fuel threadId (run0 run : Run)
    (p : Process) w1 :
  runs_retrieve svc threadId (run_id run0) (world p) = (Fulfilled run, w1) →
  status run = "requires_action" →
  let p1 := setWorld w1 (RetrieveRun threadId (run_id run0)) p in
  (required_action run = None →
     LLM.poll svc (S fuel) threadId tools run0 p
     = (Rejected LLM.noRequiredAction, p1))
  ∧ (∀ action,
       required_action run = Some action →
       type action ≠ "submit_tool_outputs" →
       LLM.poll svc (S fuel) threadId tools run0 p
       = LLM.poll svc fuel threadId tools run p1).
Proof.
  intros Hpoll Hstatus p1.
  assert (Hturn : LLM.turn svc threadId tools run0 p
                  = LLM.requiresAction svc threadId tools run p1).
  { unfold LLM.turn.
    rewrite (bind_fulfilled _ _ _ _ _ (request_eq _ _ _ _ _ Hpoll)).
    by rewrite decide_True. }
  split.
  - intros Hnone. apply poll_throw. rewrite Hturn.
    unfold LLM.requiresAction. by rewrite Hnone.
  - intros action Haction Htype. apply poll_again. rewrite Hturn.
    unfold LLM.requiresAction. rewrite Haction. by rewrite decide_False.
Qed.

(** A run, however it ends, leaves the chat-to-thread map and the two lists
    of the interface as they were and asks for no thread; the first thing it
    sends is the creation of the run, with the conversation cut to the last
    50 messages. *)
Theorem runs_leave_the_bot_alone fuel threadId assistantId (p : Process) :
  let p' := (LLM.runAssistant svc fuel threadId assistantId tools p).2 in
  threadIds p' = threadIds p
  ∧ subscriberChannels p' = subscriberChannels p
  ∧ activeDMChannels p' = activeDMChannels p
  ∧ Bot.allocations p' = Bot.allocations p
  ∧ ∃ rqs, log p' = log p ++ CreateRun threadId assistantId 50 :: rqs.
Proof.
  intros p'.
  destruct (keeps_runAssistant svc tools fuel threadId assistantId p)
    as (Hmap & Hsub & Hact & rqs & Hlog & Hno).
  fold p' in Hmap, Hsub, Hact, Hlog. repeat (split; [done|]). split.
  - unfold Bot.allocations. rewrite Hlog, filter_app, length_app.
    assert (Hnil : filter Bot.isCreateThread rqs = []).
    { clear -Hno. induction Hno as [|rq rqs Hrq _ IH]; [done|].
      rewrite filter_cons, IH. by rewrite Hrq. }
    rewrite Hnil. simpl. lia.
  - subst p'. unfold LLM.runAssistant, LLM.enqueueOperation.
    unfold bind, request.
    destruct (runs_create svc threadId assistantId 50 (world p))
      as [[run|e] w]; simpl.
    + destruct (keeps_poll svc tools fuel threadId run
                  (setWorld w (CreateRun threadId assistantId 50) p))
        as (_ & _ & _ & rqs' & Hlog' & _).
      exists rqs'. rewrite Hlog'. simpl. by rewrite <- app_assoc.
    + by exists [].
Qed.

End DriverMore.

Lemma waiting_polls_only_sleep_witness :
  LLM.poll Demo.service 3 (Some "thread_1") Demo.tools Demo.queuedRun
           (Demo.fresh Scenes.slowWorld)
  = LLM.poll Demo.service 1 (Some "thread_1") Demo.tools Scenes.inProgress
      (default (Demo.queuedRun, Demo.fresh Scenes.slowWorld)
         (Polling.waits Demo.service 2 (Some "thread_1") Demo.queuedRun
            (Demo.fresh Scenes.slowWorld))).2.
Proof.
  exact (proj1 (waiting_polls_only_sleep Demo.service Demo.tools 2
                  (Some "thread_1") Demo.queuedRun Scenes.inProgress
                  (Demo.fresh Scenes.slowWorld) _ eq_refl) 1).
Defined.

(** Two waiting polls and the completed one: three turns of fuel give the
    text. *)
Example slow_run_returns_text :
  (LLM.poll Demo.service 3 (Some "thread_1") Demo.tools Demo.queuedRun
            (Demo.fresh Scenes.slowWorld)).1
  = Fulfilled (Some "do_nothing").
Proof. reflexivity. Qed.

Lemma rejected_requests_end_the_call_witness :
  (LLM.runAssistant Scenes.offline 5 (Some "thread_1") (Some "asst_1")
     Demo.tools (Demo.fresh Demo.quiet)).1
  = Rejected Demo.connectionError
  ∧ (LLM.poll Demo.service 5 (Some "thread_1") Demo.tools Demo.queuedRun
       (Demo.fresh Demo.quiet)).1
    = Rejected Demo.connectionError
  ∧ (LLM.poll Demo.service 5 (Some "thread_1") Demo.tools Demo.queuedRun
       (Demo.fresh Scenes.unlistedWorld)).1
    = Rejected Demo.connectionError.
Proof.
  split; [|split].
  - exact (f_equal fst
             (proj1 (rejected_requests_end_the_call Scenes.offline Demo.tools 5
                       (Some "thread_1") (Some "asst_1") Demo.queuedRun
                       (Demo.fresh Demo.quiet)) _ _ eq_refl)).
  - exact (f_equal fst
             (proj1 (proj2 (rejected_requests_end_the_call Demo.service
                              Demo.tools 4 (Some "thread_1") (Some "asst_1")
                              Demo.queuedRun (Demo.fresh Demo.quiet)))
                _ _ eq_refl)).
  - exact (f_equal fst
             (proj2 (proj2 (rejected_requests_end_the_call Demo.service
                              Demo.tools 4 (Some "thread_1") (Some "asst_1")
                              Demo.queuedRun (Demo.fresh Scenes.unlistedWorld)))
                _ _ _ _ eq_refl eq_refl eq_refl)).
Defined.

Lemma other_required_actions_witness :
  LLM.poll Demo.service 2 (Some "thread_1") Demo.tools Demo.queuedRun
           (Demo.fresh Scenes.approvalWorld)
  = LLM.poll Demo.service 1 (Some "thread_1") Demo.tools Scenes.approval
      (setWorld
         (Demo.mkWorld ∅ [] [] [Fulfilled Demo.completedRun] []
            (Fulfilled Demo.answered) (Fulfilled []))
         (RetrieveRun (Some "thread_1") "run_1")
         (Demo.fresh Scenes.approvalWorld)).
Proof.
  refine (proj2 (other_required_actions Demo.service Demo.tools 1
                   (Some "thread_1") Demo.queuedRun Scenes.approval
                   (Demo.fresh Scenes.approvalWorld) _ eq_refl eq_refl)
             _ eq_refl _).
  discriminate.
Defined.

(** * More on the bot *)

Section BotMore.

Context {W json : Type}.
Variable svc : Service W json.
Variable tools : gmap string (Handler W json).
Variable assistants : gmap string (Settled string).

Local Abbreviation Process := (Process W).

Lemma forEach_app_fulfilled {St A} (f : A → M St unit) (l1 l2 : list A)
    (s s1 : St) :
  forEach f l1 s = (Fulfilled tt, s1) →
  forEach f (l1 ++ l2) s = forEach f l2 s1.
Proof.
  revert s. induction l1 as [|a l1 IH]; intros s; simpl.
  - by intros [= <-].
  - unfold bind. destruct (f a s) as [[[]|e] s']; [apply IH|done].
Qed.

(** The messages accepted by the service one after the other. *)
Lemma addMessages_accepted chatId threadId messages (p p' : Process) :
  Bot.cachedThread chatId p = Some threadId →
  Bot.addMessages svc chatId messages p = (Fulfilled tt, p') →
  log p' = log p ++ ((λ m, CreateMessage (Some threadId) (Bot.toParams m))
                       <$> messages)
  ∧ threadIds p' = threadIds p.
Proof.
  revert p. induction messages as [|m messages IH]; intros p Hc.
  - intros [= <-]. simpl. by rewrite app_nil_r.
  - unfold Bot.addMessages. simpl. unfold bind at 1.
    destruct (addMessage_cached svc chatId threadId m p Hc) as (r & w & ->).
    destruct r as [[]|e]; [|done]. intros Hrun.
    destruct (IH (setWorld w (CreateMessage (Some threadId) (Bot.toParams m))
                    p) Hc Hrun) as [Hlog Hmap].
    split; [|done]. rewrite Hlog. simpl. by rewrite <- app_assoc.
Qed.

(** [addMessages] for a chat that has a thread.  When the call returns
    normally every message has been created in that thread, in the order
    given.  The first message that the service rejects ends the call: the
    call throws the error of that message, the messages before it have been
    created, and none of those after it is sent.  The map is not touched
    either way. *)
Theorem addMessages_in_order_until_rejection chatId threadId (p : Process) :
  Bot.cachedThread chatId p = Some threadId →
  (∀ messages p',
     Bot.addMessages svc chatId messages p = (Fulfilled tt, p') →
     log p' = log p ++ ((λ m, CreateMessage (Some threadId) (Bot.toParams m))
                          <$> messages)
     ∧ threadIds p' = threadIds p)
  ∧ (∀ before message after p0 e w,
       Bot.addMessages svc chatId before p = (Fulfilled tt, p0) →
       messages_create svc (Some threadId) (Bot.toParams message) (world p0)
       = (Rejected e, w) →
       let p' := setWorld w
                   (CreateMessage (Some threadId) (Bot.toParams message)) p0 in
       Bot.addMessages svc chatId (before ++ message :: after) p
       = (Rejected e, p')
       ∧ log p' = log p
                  ++ ((λ m, CreateMessage (Some threadId) (Bot.toParams m))
                        <$> before ++ [message])
       ∧ threadIds p' = threadIds p).
Proof.
  intros Hc. split.
  - intros messages p'. by apply addMessages_accepted.
  - intros before message after p0 e w Hbefore Hrejected p'.
    destruct (addMessages_accepted chatId threadId before p p0 Hc Hbefore)
      as [Hlog Hmap].
    split; [|split].
    + unfold Bot.addMessages in *.
      rewrite (forEach_app_fulfilled _ _ _ _ _ Hbefore). simpl.
      unfold bind at 1.
      assert (Hc0 : Bot.cachedThread chatId p0 = Some threadId).
      { unfold Bot.cachedThread in *. by rewrite Hmap. }
      unfold Bot.addMessage, bind, Bot.getThreadId, Bot.getThreadId_enter.
      rewrite Hc0. unfold LLM.addMessage, LLM.enqueueOperation, request.
      by rewrite Hrejected.
    + subst p'. simpl. rewrite Hlog, fmap_app. simpl.
      by rewrite <- app_assoc.
    + done.
Qed.

(** When the thread of a chat cannot be allocated, [addMessage] throws the
    error of the allocation: no entry is stored and no message is created. *)
Theorem failed_allocation_stores_nothing chatId message (p : Process) e w :
  Bot.cachedThread chatId p = None →
  threads_create svc (world p) = (Rejected e, w) →
  Bot.addMessage svc chatId message p
  = (Rejected e, setWorld w CreateThread p).
Proof.
  intros Hc Hcreate. unfold Bot.addMessage, bind, Bot.getThreadId,
    Bot.getThreadId_enter. rewrite Hc.
  unfold LLM.createThread, request. by rewrite Hcreate.
Qed.

Lemma response_first_request fuel chatId assistantName assistantId
    (p : Process) :
  assistants !! assistantName = Some (Fulfilled assistantId) →
  ∃ rqs,
    log (Bot.response svc tools assistants fuel chatId assistantName p).2
    = log p ++ CreateRun (threadIds p !! chatId) (Some assistantId) 50 :: rqs.
Proof.
  intros Hassistant. unfold Bot.response. unfold bind at 1.
  unfold bind at 1. unfold Bot.awaitAssistant. rewrite Hassistant. simpl.
  unfold LLM.runAssistant, LLM.enqueueOperation.
  unfold bind at 1. unfold bind at 1. unfold request at 1.
  destruct (runs_create svc (threadIds p !! chatId) (Some assistantId) 50
              (world p)) as [[run|e] w]; simpl.
  - destruct (keeps_bind _ _
                (keeps_poll svc tools fuel (threadIds p !! chatId) run)
                (keeps_interpret svc)
                (setWorld w (CreateRun (threadIds p !! chatId)
                               (Some assistantId) 50) p))
      as (_ & _ & _ & rqs' & Hlog' & _).
    exists rqs'. unfold bind in Hlog'. rewrite Hlog'. simpl.
    by rewrite <- app_assoc.
  - by exists [].
Qed.

(** The first message of a chat allocates its thread and stores it, and a
    response asked for afterwards creates its run on that thread. *)
Theorem response_runs_on_the_thread_of_the_chat fuel chatId assistantName
    assistantId message (p : Process) threadId w w' :
  Bot.cachedThread chatId p = None →
  threads_create svc (world p) = (Fulfilled threadId, w) →
  messages_create svc (Some threadId) (Bot.toParams message) w
  = (Fulfilled tt, w') →
  assistants !! assistantName = Some (Fulfilled assistantId) →
  ∃ p1 rqs,
    Bot.addMessage svc chatId message p = (Fulfilled tt, p1)
    ∧ threadIds p1 = <[chatId := threadId]> (threadIds p)
    ∧ log (Bot.response svc tools assistants fuel chatId assistantName p1).2
      = log p ++ [ CreateThread;
                   CreateMessage (Some threadId) (Bot.toParams message);
                   CreateRun (Some threadId) (Some assistantId) 50 ] ++ rqs.
Proof.
  intros Hc Hcreate Hmessage Hassistant.
  assert (Hadd : Bot.addMessage svc chatId message p
    = (Fulfilled tt,
       setWorld w' (CreateMessage (Some threadId) (Bot.toParams message))
         (Bot.setThreadId chatId threadId (setWorld w CreateThread p)))).
  { unfold Bot.addMessage, bind, Bot.getThreadId, Bot.getThreadId_enter.
    rewrite Hc. unfold LLM.createThread, request. rewrite Hcreate. simpl.
    unfold LLM.addMessage, LLM.enqueueOperation, request. simpl.
    by rewrite Hmessage. }
  eexists. destruct (response_first_request fuel chatId assistantName
                       assistantId
                       (setWorld w' (CreateMessage (Some threadId)
                                       (Bot.toParams message))
                          (Bot.setThreadId chatId threadId
                             (setWorld w CreateThread p))) Hassistant)
    as [rqs Hlog].
  exists rqs. split; [exact Hadd|]. split; [done|].
  rewrite Hlog. simpl. rewrite lookup_insert_eq. by rewrite <- !app_assoc.
Qed.

End BotMore.

Lemma addMessages_in_order_until_rejection_witness :
  Bot.addMessages Demo.service "dm_1" [Demo.hello; Demo.riddle; Demo.hello]
    Scenes.known
  = (Rejected Demo.connectionError,
     setWorld
       (Demo.mkWorld ∅ [Fulfilled "1"] [Fulfilled tt; Fulfilled tt] [] []
          (Fulfilled []) (Fulfilled [Demo.riddle; Demo.hello]))
       (CreateMessage (Some "thread_1") (Bot.toParams Demo.riddle))
       (Bot.addMessages Demo.service "dm_1" [Demo.hello] Scenes.known).2).
Proof.
  exact (proj1 (proj2 (addMessages_in_order_until_rejection Demo.service
                         "dm_1" "thread_1" Scenes.known eq_refl)
                  [Demo.hello] Demo.riddle [Demo.hello] _
                  Demo.connectionError _ eq_refl eq_refl)).
Defined.

(** In [Scenes.known] the second message is rejected and the third is never
    sent. *)
Example rejected_message_ends_the_batch :
  (Bot.addMessages Demo.service "dm_1" [Demo.hello; Demo.riddle; Demo.hello]
     Scenes.known).1 = Rejected Demo.connectionError
  ∧ log (Bot.addMessages Demo.service "dm_1"
           [Demo.hello; Demo.riddle; Demo.hello] Scenes.known).2
    = [ CreateMessage (Some "thread_1") (Bot.toParams Demo.hello);
        CreateMessage (Some "thread_1") (Bot.toParams Demo.riddle) ].
Proof. split; vm_compute; reflexivity. Qed.

Lemma failed_allocation_stores_nothing_witness :
  Bot.addMessage Demo.service "dm_1" Demo.hello (Demo.fresh Demo.quiet)
  = (Rejected Demo.connectionError,
     setWorld Demo.quiet CreateThread (Demo.fresh Demo.quiet)).
Proof.
  apply (failed_allocation_stores_nothing Demo.service "dm_1" Demo.hello
           (Demo.fresh Demo.quiet) Demo.connectionError Demo.quiet);
    vm_compute; reflexivity.
Defined.

Lemma response_runs_on_the_thread_of_the_chat_witness :
  ∃ p1 rqs,
    Bot.addMessage Demo.service "dm_1" Demo.hello
      (Demo.fresh Scenes.firstContact) = (Fulfilled tt, p1)
    ∧ threadIds p1
      = <[ "dm_1" := "thread_1" ]> (threadIds (Demo.fresh Scenes.firstContact))
    ∧ log (Bot.response Demo.service Demo.tools Demo.assistants 5 "dm_1"
             "DM_assistant" p1).2
      = log (Demo.fresh Scenes.firstContact)
        ++ [ CreateThread;
             CreateMessage (Some "thread_1") (Bot.toParams Demo.hello);
             CreateRun (Some "thread_1") (Some "asst_2") 50 ] ++ rqs.
Proof.
  eapply (response_runs_on_the_thread_of_the_chat Demo.service Demo.tools
            Demo.assistants 5 "dm_1" "DM_assistant" "asst_2" Demo.hello
            (Demo.fresh Scenes.firstContact) "thread_1");
    vm_compute; reflexivity.
Defined.

(** * More on the interface *)

Section DiscordMore.

Context {W json : Type}.
Variable svc : Service W json.

Local Abbreviation Process := (Process W).

Lemma filter_other_absent (c : string) (l : list string) :
  c ∉ l → filter (λ id, id ≠ c) l = l.
Proof.
  induction l as [|d l IH]; intros Hnot; [done|].
  rewrite filter_cons, decide_True.
  - f_equal. apply IH. intros Hin. apply Hnot. by right.
  - intros ->. apply Hnot. by left.
Qed.

Lemma filter_same_absent (c : string) (l : list string) :
  c ∉ l → filter (λ id, id = c) l = [].
Proof.
  induction l as [|d l IH]; intros Hnot; [done|].
  rewrite filter_cons, decide_False.
  - apply IH. intros Hin. apply Hnot. by right.
  - intros ->. apply Hnot. by left.
Qed.

(** The command [subscribe] followed by [unsubscribe] for the same channel,
    both written to the table: the list is the one before without the
    channel, the other channels in their order; a channel that was not
    listed leaves the list as it was. *)
Theorem unsubscribe_undoes_subscribe (channel : string) (p : Process) w1 w2 :
  db_upsertChannel svc channel true (world p) = (Fulfilled tt, w1) →
  db_upsertChannel svc channel false w1 = (Fulfilled tt, w2) →
  let p' := (DiscordInterface.unsubscribe svc channel
               (DiscordInterface.subscribe svc channel p).2).2 in
  subscriberChannels p' = filter (λ id, id ≠ channel) (subscriberChannels p)
  ∧ ((channel ∉ subscriberChannels p) →
     subscriberChannels p' = subscriberChannels p)
  ∧ log p' = log p ++ [UpsertChannel channel true; UpsertChannel channel false].
Proof.
  intros Hon Hoff p'.
  assert (Hp' : subscriberChannels p'
                = filter (λ id, id ≠ channel) (subscriberChannels p)
                ∧ log p' = log p ++ [UpsertChannel channel true;
                                     UpsertChannel channel false]).
  { subst p'. unfold DiscordInterface.subscribe, DiscordInterface.unsubscribe,
      tryCatch, bind, request. rewrite Hon. simpl. rewrite Hoff. simpl.
    split.
    - rewrite filter_app, filter_cons.
      destruct (decide (channel ≠ channel)) as [Hne|_]; [by destruct Hne|].
      rewrite filter_nil. by rewrite app_nil_r.
    - by rewrite <- app_assoc. }
  destruct Hp' as [Hlist Hlog]. split; [done|]. split; [|done].
  intros Hnot. rewrite Hlist. by apply filter_other_absent.
Qed.

(** When the table of channels cannot be written, neither command changes
    the list: the channel stays listed, or stays off the list. *)
Theorem failed_upsert_leaves_the_list (channel : string) (p : Process) :
  (∀ e w, db_upsertChannel svc channel true (world p) = (Rejected e, w) →
          (DiscordInterface.subscribe svc channel p).2
          = setWorld w (UpsertChannel channel true) p)
  ∧ (∀ e w, db_upsertChannel svc channel false (world p) = (Rejected e, w) →
            (DiscordInterface.unsubscribe svc channel p).2
            = setWorld w (UpsertChannel channel false) p).
Proof.
  split; intros e w Hup;
    unfold DiscordInterface.subscribe, DiscordInterface.unsubscribe, tryCatch,
      bind, request; by rewrite Hup.
Qed.

(** The deliveries of one text to a list of channels: what a channel is
    sent is that text, at most once for each time it is listed. *)
Lemma deliveries_sentTo botd (c : string) (l : list string) (p : Process) :
  ∃ n,
    DiscordInterface.sentTo c
      (log (forEach (DiscordInterface.deliver svc botd) l p).2)
    = DiscordInterface.sentTo c (log p) ++ replicate n botd
    ∧ n ≤ length (filter (λ id, id = c) l).
Proof.
  revert p. induction l as [|d l IH]; intros p.
  - exists 0. simpl. by rewrite app_nil_r.
  - simpl. unfold bind at 1.
    assert (Hd : ∃ p1 k,
              DiscordInterface.deliver svc botd d p = (Fulfilled tt, p1)
              ∧ DiscordInterface.sentTo c (log p1)
                = DiscordInterface.sentTo c (log p) ++ replicate k botd
              ∧ k ≤ length (filter (λ id, id = c) [d])).
    { unfold DiscordInterface.deliver, tryCatch, bind, request.
      destruct (channel_isSendable svc d (world p)) as [[[]|e] w]; simpl.
      - destruct (channel_send svc d botd w) as [[[]|e] w']; simpl;
          eexists; (destruct (decide (d = c)) as [->|Hne];
                    [exists 1|exists 0]); (split; [done|]);
          unfold DiscordInterface.sentTo; simpl;
          rewrite !omap_app; simpl;
          rewrite ?filter_cons, ?decide_True, ?decide_False by done;
          simpl; rewrite ?app_nil_r; (split; [done|lia]).
      - eexists. exists 0. split; [done|].
        unfold DiscordInterface.sentTo; simpl. rewrite omap_app. simpl.
        rewrite app_nil_r. split; [done|lia].
      - eexists. exists 0. split; [done|].
        unfold DiscordInterface.sentTo; simpl. rewrite omap_app. simpl.
        rewrite app_nil_r. split; [done|lia]. }
    destruct Hd as (p1 & k & -> & Hlog1 & Hk).
    destruct (IH p1) as (n & Hlog & Hn).
    exists (k + n). rewrite Hlog, Hlog1. rewrite <- app_assoc.
    rewrite replicate_add. split; [done|].
    rewrite filter_cons. rewrite filter_cons in Hk. simpl in Hk.
    destruct (decide (d = c)); simpl in *; lia.
Qed.

Lemma grows_tryCatch {A} (m : M Process A) (h : string → M Process A) :
  grows m → (∀ e, grows (h e)) → grows (tryCatch m h).
Proof.
  intros Hm Hh p. unfold tryCatch. specialize (Hm p).
  destruct (m p) as [[a|e] p1]; simpl in *; [done|].
  destruct Hm as (Hs & Ha & rqs & Hl).
  destruct (Hh e p1) as (Hs' & Ha' & rqs' & Hl').
  rewrite Hs', Ha', Hl', Hs, Ha, Hl. repeat split.
  exists (rqs ++ rqs'). by rewrite app_assoc.
Qed.

Lemma grows_promiseAll {A B} (f : A → M Process B) (l : list A) :
  (∀ a, grows (f a)) → grows (promiseAll f l).
Proof.
  intros Hf. induction l as [|a l IH]; simpl; [apply grows_ret|].
  apply grows_bind; [done|]. intros b.
  apply grows_bind; [done|]. intros bs. apply grows_ret.
Qed.

Lemma grows_deliver botd channel :
  grows (DiscordInterface.deliver svc botd channel).
Proof.
  unfold DiscordInterface.deliver. apply grows_tryCatch.
  - apply grows_bind; [apply grows_request|].
    intros []; [apply grows_request|apply grows_ret].
  - intros e. apply grows_ret.
Qed.

Lemma grows_getLastMessages channel limit :
  grows (DiscordInterface.getLastMessages svc channel limit).
Proof.
  unfold DiscordInterface.getLastMessages. apply grows_tryCatch.
  - apply grows_request.
  - intros e. apply grows_ret.
Qed.

Lemma grows_replay channel messages :
  grows (forEach (DiscordInterface.addMessageToBotThread svc channel) messages).
Proof.
  apply grows_forEach. intros m. apply grows_addMessage.
Qed.

(** A broadcast sends one text, the brainteaser selected or the error of
    the selection, and only that: a channel is sent it at most once for
    each time it is listed, a channel that is not listed is sent nothing,
    and the two lists of the interface are as before. *)
Theorem broadcast_sends_one_text_to_listed_channels (p : Process) :
  let p' := (DiscordInterface.broadcastBrainteaserOfTheDay svc p).2 in
  subscriberChannels p' = subscriberChannels p
  ∧ activeDMChannels p' = activeDMChannels p
  ∧ ∀ c, ∃ n,
      DiscordInterface.sentTo c (log p')
      = DiscordInterface.sentTo c (log p) ++ replicate n (Broadcast.text svc p)
      ∧ n ≤ length (filter (λ id, id = c) (subscriberChannels p))
      ∧ ((c ∉ subscriberChannels p) → n = 0).
Proof.
  intros p'.
  set (p1 := setWorld (db_selectNextBrainteaserOfTheDay svc (world p)).2
               SelectNextBrainteaser p).
  assert (Hrun : DiscordInterface.broadcastBrainteaserOfTheDay svc p
                 = forEach (DiscordInterface.deliver svc (Broadcast.text svc p))
                     (subscriberChannels p) p1).
  { unfold DiscordInterface.broadcastBrainteaserOfTheDay, Broadcast.text, bind,
      tryCatch, request. subst p1.
    by destruct (db_selectNextBrainteaserOfTheDay svc (world p))
      as [[botd|e] w]. }
  subst p'. rewrite Hrun.
  destruct (grows_forEach (DiscordInterface.deliver svc (Broadcast.text svc p))
              (subscriberChannels p) (grows_deliver (Broadcast.text svc p)) p1)
    as (Hs & Ha & _).
  split; [done|]. split; [done|]. intros c.
  destruct (deliveries_sentTo (Broadcast.text svc p) c (subscriberChannels p) p1)
    as (n & Hlog & Hn).
  exists n. split.
  - rewrite Hlog. subst p1. unfold DiscordInterface.sentTo. simpl.
    rewrite omap_app. simpl. by rewrite app_nil_r.
  - split; [done|]. intros Hnot.
    rewrite (filter_same_absent c _ Hnot) in Hn. simpl in Hn. lia.
Qed.

Lemma getLastMessages_run channel limit (p : Process) :
  ∃ messages w,
    DiscordInterface.getLastMessages svc channel limit p
    = (Fulfilled messages, setWorld w (FetchMessages channel limit) p)
    ∧ ∀ e w', channel_messages_fetch svc channel limit (world p)
              = (Rejected e, w') → messages = [] ∧ w = w'.
Proof.
  unfold DiscordInterface.getLastMessages, tryCatch, request.
  destruct (channel_messages_fetch svc channel limit (world p))
    as [[messages|e] w]; simpl.
  - exists messages, w. split; [done|]. intros e w' H. discriminate H.
  - exists [], w. split; [done|]. intros e' w' [= <- <-]. done.
Qed.

Lemma enter_unlisted channel (p : Process) :
  channel ∉ activeDMChannels p →
  ∃ messages w,
    Activation.enter svc channel p
    = (Some messages, setWorld w (FetchMessages channel 30) p)
    ∧ DiscordInterface.getLastMessages svc channel 30 p
      = (Fulfilled messages, setWorld w (FetchMessages channel 30) p).
Proof.
  intros Hnot. unfold Activation.enter.
  rewrite bool_decide_eq_false_2 by done.
  destruct (getLastMessages_run channel 30 p) as (messages & w & Hrun & _).
  rewrite Hrun. by exists messages, w.
Qed.

Lemma resume_replayed channel messages (p p' : Process) :
  forEach (DiscordInterface.addMessageToBotThread svc channel)
          (reverse messages) p = (Fulfilled tt, p') →
  Activation.resume svc channel messages p
  = (Fulfilled tt,
     DiscordInterface.setActiveDMChannels
       (activeDMChannels p' ++ [channel]) p')
  ∧ activeDMChannels p' = activeDMChannels p.
Proof.
  intros Hreplay. unfold Activation.resume, tryCatch, bind.
  rewrite Hreplay. split; [done|].
  destruct (grows_replay channel (reverse messages) p) as (_ & Ha & _).
  by rewrite Hreplay in Ha.
Qed.

(** [activateDMChannel] reads the list of active channels once, on entry.
    Run without interruption it is the test of the list followed by the
    rest of the call.  That rest returns normally whatever its requests
    do, leaves the list of subscribers alone, and pushes the channel when
    the replay goes through, without looking at the list again; a history
    that cannot be fetched counts as an empty one, and the channel is then
    marked active with nothing replayed.  So two calls for a channel that
    is not listed, the second made while the first awaits the history,
    both fetch, both replay and both push: when both replays go through
    the channel is listed twice. *)
Theorem activation_reads_the_list_on_entry_only (channel : string)
    (p : Process) :
  let replay := forEach (DiscordInterface.addMessageToBotThread svc channel) in
  let push := λ q : Process,
    DiscordInterface.setActiveDMChannels (activeDMChannels q ++ [channel]) q in
  DiscordInterface.activateDMChannel svc channel p
  = match Activation.enter svc channel p with
    | (None, p') => (Fulfilled tt, p')
    | (Some messages, p') => Activation.resume svc channel messages p'
    end
  ∧ (∀ messages,
       let out := Activation.resume svc channel messages p in
       out.1 = Fulfilled tt
       ∧ subscriberChannels out.2 = subscriberChannels p
       ∧ (activeDMChannels out.2 = activeDMChannels p
          ∨ activeDMChannels out.2 = activeDMChannels p ++ [channel])
       ∧ ∀ p', replay (reverse messages) p = (Fulfilled tt, p') →
               activeDMChannels out.2 = activeDMChannels p ++ [channel])
  ∧ (∀ e w,
       (channel ∉ activeDMChannels p) →
       channel_messages_fetch svc channel 30 (world p) = (Rejected e, w) →
       DiscordInterface.activateDMChannel svc channel p
       = (Fulfilled tt, push (setWorld w (FetchMessages channel 30) p)))
  ∧ ((channel ∉ activeDMChannels p) →
     ∃ p2 first second,
       Activation.exec svc [Activation.Call channel; Activation.Call channel]
         (Activation.start p)
       = Some (Activation.mkCalls p2 [(channel, first); (channel, second)])
       ∧ ∀ p3 p4,
           replay (reverse first) p2 = (Fulfilled tt, p3) →
           replay (reverse second) (push p3) = (Fulfilled tt, p4) →
           Activation.exec svc (Activation.overlapping channel)
             (Activation.start p)
           = Some (Activation.mkCalls (push p4) [])
           ∧ activeDMChannels (push p4)
             = activeDMChannels p ++ [channel; channel]).
Proof.
  intros replay push.
  assert (Hlink : DiscordInterface.activateDMChannel svc channel p
    = match Activation.enter svc channel p with
      | (None, p') => (Fulfilled tt, p')
      | (Some messages, p') => Activation.resume svc channel messages p'
      end).
  { unfold DiscordInterface.activateDMChannel, Activation.enter.
    destruct (bool_decide (channel ∈ activeDMChannels p)); [done|].
    destruct (getLastMessages_run channel 30 p) as (messages & w & Hrun & _).
    rewrite Hrun. unfold Activation.resume, tryCatch. unfold bind at 1.
    by rewrite Hrun. }
  split; [exact Hlink|]. split; [|split].
  - intros messages out. subst out.
    destruct (grows_replay channel (reverse messages) p) as (Hs & Ha & _).
    destruct (forEach (DiscordInterface.addMessageToBotThread svc channel)
                (reverse messages) p) as [[[]|e] p'] eqn:Hreplay.
    + destruct (resume_replayed channel messages p p' Hreplay) as [-> _].
      simpl in *. split; [done|]. split; [done|].
      split; [right; by rewrite Ha|]. intros p'' _. by rewrite Ha.
    + unfold Activation.resume, tryCatch, bind. rewrite Hreplay. simpl in *.
      split; [done|]. split; [done|]. split; [by left|].
      intros p''. subst replay. rewrite Hreplay. discriminate.
  - intros e w Hnot Hfetch. rewrite Hlink.
    destruct (enter_unlisted channel p Hnot) as (messages & w' & -> & Hrun).
    destruct (getLastMessages_run channel 30 p)
      as (messages' & w'' & Hrun' & Hempty).
    rewrite Hrun in Hrun'. injection Hrun' as <- Hw.
    destruct (Hempty e w Hfetch) as [-> <-].
    subst w''. done.
  - intros Hnot.
    destruct (enter_unlisted channel p Hnot) as (first & w1 & Hfirst & _).
    set (p1 := setWorld w1 (FetchMessages channel 30) p).
    assert (Hnot1 : channel ∉ activeDMChannels p1) by done.
    destruct (enter_unlisted channel p1 Hnot1) as (second & w2 & Hsecond & _).
    exists (setWorld w2 (FetchMessages channel 30) p1), first, second.
    assert (Hcalls : Activation.exec svc
                       [Activation.Call channel; Activation.Call channel]
                       (Activation.start p)
                     = Some (Activation.mkCalls
                               (setWorld w2 (FetchMessages channel 30) p1)
                               [(channel, first); (channel, second)])).
    { simpl. rewrite Hfirst. simpl. fold p1. by rewrite Hsecond. }
    split; [exact Hcalls|].
    intros p3 p4 Hreplay1 Hreplay2.
    destruct (resume_replayed channel first _ p3 Hreplay1) as [Hr1 Ha1].
    destruct (resume_replayed channel second _ p4 Hreplay2) as [Hr2 Ha2].
    split.
    + unfold Activation.overlapping.
      change [Activation.Call channel; Activation.Call channel;
              Activation.Resume 0; Activation.Resume 0]
        with ([Activation.Call channel; Activation.Call channel]
              ++ [Activation.Resume 0; Activation.Resume 0]).
      assert (Happ : ∀ js1 js2 c c1,
                Activation.exec svc js1 c = Some c1 →
                Activation.exec svc (js1 ++ js2) c
                = Activation.exec svc js2 c1).
      { induction js1 as [|j js1 IH]; intros js2 c c1; simpl.
        - by intros [= <-].
        - destruct (Activation.step svc j c); [apply IH|done]. }
      rewrite (Happ _ _ _ _ Hcalls).
      unfold Activation.exec, Activation.step.
      cbn [lookup list_lookup Activation.suspended Activation.process
           delete list_delete fst snd].
      rewrite Hr1.
      cbn [lookup list_lookup Activation.suspended Activation.process
           delete list_delete fst snd].
      fold (push p3). by rewrite Hr2.
    + subst push. simpl. rewrite Ha2. simpl. rewrite Ha1. simpl.
      by rewrite <- app_assoc.
Qed.

(** [intializeSubscribers]: when the table of channels cannot be read the
    call throws and the list is as it was; when it is read, the list is the
    one read, however the replays that follow end, and the list of active
    channels is as before. *)
Theorem subscribers_are_those_of_the_table (p : Process) :
  (∀ e w,
     db_getSubscribedChannelIds svc (world p) = (Rejected e, w) →
     DiscordInterface.intializeSubscribers svc p
     = (Rejected e, setWorld w GetSubscribedChannelIds p))
  ∧ (∀ ids w,
       db_getSubscribedChannelIds svc (world p) = (Fulfilled ids, w) →
       subscriberChannels (DiscordInterface.intializeSubscribers svc p).2 = ids
       ∧ activeDMChannels (DiscordInterface.intializeSubscribers svc p).2
         = activeDMChannels p).
Proof.
  split.
  - intros e w Hget. unfold DiscordInterface.intializeSubscribers.
    unfold bind at 1. unfold request. by rewrite Hget.
  - intros ids w Hget.
    set (p1 := DiscordInterface.setSubscriberChannels ids
                 (setWorld w GetSubscribedChannelIds p)).
    set (replays :=
      (let! _ := promiseAll
                   (λ channelId,
                      let! messages :=
                        DiscordInterface.getLastMessages svc channelId 30 in
                      forEach
                        (DiscordInterface.addMessageToBotThread svc channelId)
                        (reverse messages)) ids in
       (ret tt : M Process unit)) : M Process unit).
    assert (Hg : grows replays).
    { apply grows_bind; [|intros; apply grows_ret].
      apply grows_promiseAll. intros c.
      apply grows_bind; [apply grows_getLastMessages|].
      intros messages. apply grows_replay. }
    assert (Hrun : DiscordInterface.intializeSubscribers svc p = replays p1).
    { subst replays p1. unfold DiscordInterface.intializeSubscribers, bind,
        request. by rewrite Hget. }
    rewrite Hrun. destruct (Hg p1) as (Hs & Ha & _). by rewrite Hs, Ha.
Qed.

End DiscordMore.

Lemma unsubscribe_undoes_subscribe_witness :
  let p' := (DiscordInterface.unsubscribe Demo.service "chan_1"
               (DiscordInterface.subscribe Demo.service "chan_1"
                  Scenes.twoChannels).2).2 in
  subscriberChannels p'
  = filter (λ id, id ≠ "chan_1") (subscriberChannels Scenes.twoChannels)
  ∧ (("chan_1" ∉ subscriberChannels Scenes.twoChannels) →
     subscriberChannels p' = subscriberChannels Scenes.twoChannels)
  ∧ log p' = log Scenes.twoChannels
             ++ [UpsertChannel "chan_1" true; UpsertChannel "chan_1" false].
Proof.
  eapply (unsubscribe_undoes_subscribe Demo.service "chan_1"
            Scenes.twoChannels); vm_compute; reflexivity.
Defined.

(** A channel subscribed, subscribed again and unsubscribed is off the
    list, and the other channel stays. *)
Example unsubscribed_channel_is_off_the_list :
  subscriberChannels
    (DiscordInterface.unsubscribe Demo.service "chan_1"
       (DiscordInterface.subscribe Demo.service "chan_1"
          Scenes.twoChannels).2).2 = ["chan_2"].
Proof. vm_compute. reflexivity. Qed.

Lemma failed_upsert_leaves_the_list_witness :
  (DiscordInterface.subscribe Scenes.noDatabase "chan_3" Scenes.twoChannels).2
  = setWorld (world Scenes.twoChannels) (UpsertChannel "chan_3" true)
      Scenes.twoChannels
  ∧ (DiscordInterface.unsubscribe Scenes.noDatabase "chan_1"
       Scenes.twoChannels).2
    = setWorld (world Scenes.twoChannels) (UpsertChannel "chan_1" false)
        Scenes.twoChannels.
Proof.
  split.
  - apply (proj1 (failed_upsert_leaves_the_list Scenes.noDatabase "chan_3"
                    Scenes.twoChannels) Demo.connectionError).
    reflexivity.
  - apply (proj2 (failed_upsert_leaves_the_list Scenes.noDatabase "chan_1"
                    Scenes.twoChannels) Demo.connectionError).
    reflexivity.
Defined.

Lemma broadcast_sends_one_text_to_listed_channels_witness :
  ∃ n,
    DiscordInterface.sentTo "chan_9"
      (log (DiscordInterface.broadcastBrainteaserOfTheDay Demo.service
              Scenes.twoChannels).2)
    = DiscordInterface.sentTo "chan_9" (log Scenes.twoChannels)
      ++ replicate n (Broadcast.text Demo.service Scenes.twoChannels)
    ∧ n = 0.
Proof.
  destruct (broadcast_sends_one_text_to_listed_channels Demo.service
              Scenes.twoChannels) as (_ & _ & Hsent).
  destruct (Hsent "chan_9") as (n & Hlog & _ & Hnone).
  exists n. split; [exact Hlog|]. apply Hnone.
  vm_compute. intros Hin.
  repeat (apply elem_of_cons in Hin as [Hin|Hin]; [discriminate Hin|]).
  by apply elem_of_nil in Hin.
Defined.

(** With the database out of reach the text is the error of the selection,
    and the listed channels are sent it. *)
Example failed_selection_is_broadcast :
  DiscordInterface.sentTo "chan_2"
    (log (DiscordInterface.broadcastBrainteaserOfTheDay Scenes.noDatabase
            Scenes.twoChannels).2)
  = ["Error selecting next brainteaser of the day: Error: Connection error."].
Proof. vm_compute. reflexivity. Qed.

Lemma activation_reads_the_list_on_entry_only_witness :
  ∃ c,
    Activation.exec Demo.service (Activation.overlapping "dm_1")
      (Activation.start (Demo.fresh Scenes.patient)) = Some c
    ∧ activeDMChannels (Activation.process c) = [] ++ ["dm_1"; "dm_1"].
Proof.
  assert (Hnot : "dm_1" ∉ activeDMChannels (Demo.fresh Scenes.patient)).
  { vm_compute. intros Hin. by apply elem_of_nil in Hin. }
  pose proof (proj2 (proj2 (proj2 (activation_reads_the_list_on_entry_only
                Demo.service "dm_1" (Demo.fresh Scenes.patient)))) Hnot)
    as (p2 & first & second & Hcalls & Hboth).
  assert (Hp2 : p2 = (DiscordInterface.getLastMessages Demo.service "dm_1" 30
                        (DiscordInterface.getLastMessages Demo.service "dm_1"
                           30 (Demo.fresh Scenes.patient)).2).2
                ∧ first = [Demo.riddle; Demo.hello]
                ∧ second = [Demo.riddle; Demo.hello]).
  { vm_compute in Hcalls. injection Hcalls as <- <- <-. done. }
  destruct Hp2 as (-> & -> & ->).
  eexists. exact (Hboth _ _ eq_refl eq_refl).
Defined.

(** The two overlapping calls replay the history twice into the thread of
    the channel. *)
Example overlapping_activations_replay_twice :
  ∃ c,
    Activation.exec Demo.service (Activation.overlapping "dm_1")
      (Activation.start (Demo.fresh Scenes.patient)) = Some c
    ∧ log (Activation.process c)
      = [ FetchMessages "dm_1" 30; FetchMessages "dm_1" 30; CreateThread;
          CreateMessage (Some "thread_1") (Bot.toParams Demo.hello);
          CreateMessage (Some "thread_1") (Bot.toParams Demo.riddle);
          CreateMessage (Some "thread_1") (Bot.toParams Demo.hello);
          CreateMessage (Some "thread_1") (Bot.toParams Demo.riddle) ].
Proof. eexists. split; reflexivity. Qed.

Lemma subscribers_are_those_of_the_table_witness :
  DiscordInterface.intializeSubscribers Scenes.noDatabase Scenes.twoChannels
  = (Rejected Demo.connectionError,
     setWorld (world Scenes.twoChannels) GetSubscribedChannelIds
       Scenes.twoChannels)
  ∧ subscriberChannels
      (DiscordInterface.intializeSubscribers Demo.service
         Demo.subscribedTwice).2 = ["chan_1"].
Proof.
  split.
  - apply (proj1 (subscribers_are_those_of_the_table Scenes.noDatabase
                    Scenes.twoChannels) Demo.connectionError).
    reflexivity.
  - apply (proj2 (subscribers_are_those_of_the_table Demo.service
                    Demo.subscribedTwice) ["chan_1"]
             (world Demo.subscribedTwice)).
    vm_compute. reflexivity.
Defined.

(** * Properties of the gateway handlers *)

Section GatewayFacts.

Context {W json : Type}.
Variable svc : Service W json.
Variable desk : Gateway.Desk W.
Variable tools : gmap string (Handler W json).
Variable assistants : gmap string (Settled string).
Variable fuel : nat.

Local Abbreviation Process := (Process W).
Local Abbreviation Gateway := (Gateway.Gateway W).
Local Abbreviation messageCreate :=
  (Gateway.messageCreate svc tools assistants fuel).
Local Abbreviation Timed := (Timeline.Timed W).
Local Abbreviation timedMessageCreate :=
  (Timeline.messageCreate svc tools assistants fuel).

Lemma lift_eq {A} (m : M Process A) (g : Gateway) :
  Gateway.lift m g
  = ((m (Gateway.process g)).1,
     Gateway.mkGateway (m (Gateway.process g)).2 (Gateway.outbox g)).
Proof. unfold Gateway.lift. by destruct (m (Gateway.process g)). Qed.

Lemma lift_run {A} (m : M Process A) (g : Gateway) r p :
  m (Gateway.process g) = (r, p) →
  Gateway.lift m g = (r, Gateway.mkGateway p (Gateway.outbox g)).
Proof. intros Hm. unfold Gateway.lift. by rewrite Hm. Qed.

Lemma lift_at {A} (m : M Process A) (p : Process) calls r p' :
  m p = (r, p') →
  Gateway.lift m (Gateway.mkGateway p calls) = (r, Gateway.mkGateway p' calls).
Proof. intros Hm. unfold Gateway.lift. simpl. by rewrite Hm. Qed.

(** The handler ends having sent nothing back. *)
Local Ltac silent :=
  do 2 eexists; exists []; split; [done|]; rewrite app_nil_r;
  split; [done|]; split; [by left|by left].

(** What [addMessage] sends: at most a thread and a message, never a run. *)
Lemma addMessage_requests chatId message (p : Process) :
  subscriberChannels (Bot.addMessage svc chatId message p).2
  = subscriberChannels p
  ∧ activeDMChannels (Bot.addMessage svc chatId message p).2
    = activeDMChannels p
  ∧ ∃ rqs, log (Bot.addMessage svc chatId message p).2 = log p ++ rqs
           ∧ Forall (λ rq, Gateway.isCreateRun rq = false) rqs.
Proof.
  unfold Bot.addMessage, bind, Bot.getThreadId, Bot.getThreadId_enter.
  destruct (Bot.cachedThread chatId p) as [t|].
  - unfold LLM.addMessage, LLM.enqueueOperation, request.
    destruct (messages_create svc (Some t) (Bot.toParams message) (world p))
      as [r w]. simpl. repeat split. eexists. split; [done|].
    by repeat constructor.
  - unfold LLM.createThread, request.
    destruct (threads_create svc (world p)) as [[t|e] w]; simpl.
    + unfold LLM.addMessage, LLM.enqueueOperation, request. simpl.
      destruct (messages_create svc (Some t) (Bot.toParams message) w)
        as [r w']. simpl. repeat split. eexists. split.
      * by rewrite <- app_assoc.
      * by repeat constructor.
    + repeat split. eexists. split; [done|]. by repeat constructor.
Qed.

(** The bot answers neither its own messages nor the messages of a channel
    it does not serve: a message of a channel that is neither a direct
    message channel nor subscribed is dropped, and a message of the bot
    itself is at most added to the thread of its channel; no run is
    created, nothing is sent back and no channel is activated. *)
Theorem own_and_foreign_messages_are_not_answered
    (incoming : Gateway.Incoming) (g : Gateway) :
  fromMe (Gateway.received incoming) = true
  ∨ Gateway.listens incoming g = false →
  let out := messageCreate incoming g in
  Gateway.outbox out.2 = Gateway.outbox g
  ∧ subscriberChannels (Gateway.process out.2)
    = subscriberChannels (Gateway.process g)
  ∧ activeDMChannels (Gateway.process out.2)
    = activeDMChannels (Gateway.process g)
  ∧ (∃ rqs, log (Gateway.process out.2) = log (Gateway.process g) ++ rqs
            ∧ Forall (λ rq, Gateway.isCreateRun rq = false) rqs)
  ∧ (Gateway.listens incoming g = false → out = (Fulfilled tt, g)).
Proof.
  intros Hwhy out. subst out. unfold Gateway.messageCreate.
  destruct (Gateway.listens incoming g) eqn:Hlistens.
  - destruct Hwhy as [Hme|Hno]; [|discriminate Hno].
    unfold bind. rewrite lift_eq. rewrite Hme.
    destruct (addMessage_requests
                (channelId (Gateway.received incoming))
                (Gateway.received incoming) (Gateway.process g))
      as (Hs & Ha & rqs & Hl & Hruns).
    destruct (Bot.addMessage svc (channelId (Gateway.received incoming))
                (Gateway.received incoming) (Gateway.process g))
      as [[[]|e] p1]; simpl in *;
      (split; [done|]); (split; [done|]); (split; [done|]);
      (split; [by exists rqs|done]).
  - simpl. repeat split; try done. exists []. by rewrite app_nil_r.
Qed.

(** When the message cannot be added to the thread, the handler throws the
    error and does nothing more. *)
Theorem unstored_message_is_not_answered
    (incoming : Gateway.Incoming) (g : Gateway) e p1 :
  Gateway.listens incoming g = true →
  Bot.addMessage svc (channelId (Gateway.received incoming))
    (Gateway.received incoming) (Gateway.process g) = (Rejected e, p1) →
  messageCreate incoming g
  = (Rejected e, Gateway.mkGateway p1 (Gateway.outbox g))
  ∧ activeDMChannels p1 = activeDMChannels (Gateway.process g)
  ∧ ∃ rqs, log p1 = log (Gateway.process g) ++ rqs
           ∧ Forall (λ rq, Gateway.isCreateRun rq = false) rqs.
Proof.
  intros Hlistens Hadd.
  destruct (addMessage_requests
              (channelId (Gateway.received incoming))
              (Gateway.received incoming) (Gateway.process g))
    as (_ & Ha & rqs & Hl & Hruns).
  rewrite Hadd in Ha, Hl. simpl in *.
  split; [|split; [done|by exists rqs]].
  unfold Gateway.messageCreate. rewrite Hlistens. unfold bind at 1.
  rewrite lift_eq. by rewrite Hadd.
Qed.

Lemma dispatch_outbox (to : MockMessage) response (g : Gateway) :
  (Gateway.dispatch to response g).1 = Fulfilled tt
  ∧ Gateway.process (Gateway.dispatch to response g).2 = Gateway.process g
  ∧ (Gateway.outbox (Gateway.dispatch to response g).2 = Gateway.outbox g
     ∨ (∃ content,
          Gateway.outbox (Gateway.dispatch to response g).2
          = Gateway.outbox g ++ [Gateway.MessageReply to content])
     ∨ (∃ emoji,
          Gateway.outbox (Gateway.dispatch to response g).2
          = Gateway.outbox g ++ [Gateway.MessageReact to emoji])).
Proof.
  destruct response as [[| emoji | content]|]; simpl; repeat split;
    eauto.
Qed.

(** One message gets at most one answer: what the handler sends back is
    nothing, or the typing indicator of a direct message channel, followed
    or not by one reply or one reaction to the message; a handler that
    throws has sent no reply and no reaction. *)
Theorem one_message_gets_at_most_one_answer
    (incoming : Gateway.Incoming) (g : Gateway) :
  let out := messageCreate incoming g in
  ∃ calls,
    Gateway.outbox out.2 = Gateway.outbox g ++ calls
    ∧ Gateway.answersAtMostOnce incoming calls
    ∧ (isRejected out.1 = true →
       calls = [] ∨ calls = Gateway.typing incoming).
Proof.
  intros out.
  assert (Hrun : ∃ r g' calls,
            messageCreate incoming g = (r, g')
            ∧ Gateway.outbox g' = Gateway.outbox g ++ calls
            ∧ Gateway.answersAtMostOnce incoming calls
            ∧ (isRejected r = true →
               calls = [] ∨ calls = Gateway.typing incoming)).
  { unfold Gateway.messageCreate.
    destruct (Gateway.listens incoming g) eqn:Hlistens; cbn -[Gateway.lift]; [|silent].
    unfold bind.
    destruct (Bot.addMessage svc (channelId (Gateway.received incoming))
                (Gateway.received incoming) (Gateway.process g))
      as [[[]|e] p1] eqn:Hadd; rewrite (lift_run _ _ _ _ Hadd); [|silent].
    destruct (fromMe (Gateway.received incoming)); cbn -[Gateway.lift]; [silent|].
    unfold Gateway.answersAtMostOnce, Gateway.typing.
    destruct (Gateway.isDM incoming); cbn -[Gateway.lift].
    - destruct (DiscordInterface.activateDMChannel svc
                  (channelId (Gateway.received incoming)) p1)
        as [[[]|e] p2] eqn:Hactivate; rewrite (lift_at _ _ _ _ _ Hactivate);
        [|silent].
      cbn -[Gateway.lift].
      destruct (Bot.response svc tools assistants fuel
                  (channelId (Gateway.received incoming)) "DM_assistant" p2)
        as [[response|e] p3] eqn:Hresponse;
        rewrite (lift_at _ _ _ _ _ Hresponse); cbn -[Gateway.lift].
      + destruct response as [[| emoji | content]|]; cbn -[Gateway.lift];
          do 3 eexists; (split; [done|]); cbn -[Gateway.lift].
        * split; [done|]. split; [right; by left|done].
        * split; [by rewrite <- app_assoc|].
          split; [|done]. right. right. right. by exists emoji.
        * split; [by rewrite <- app_assoc|].
          split; [|done]. right. right. left. by exists content.
        * split; [done|]. split; [right; by left|done].
      + do 3 eexists. split; [done|]. cbn -[Gateway.lift]. split; [done|].
        split; [right; by left|by right].
    - destruct (bool_decide (channelId (Gateway.received incoming)
                             ∈ subscriberChannels p1)); cbn -[Gateway.lift]; [|silent].
      destruct (Bot.response svc tools assistants fuel
                  (channelId (Gateway.received incoming)) "moderator" p1)
        as [[response|e] p3] eqn:Hresponse;
        rewrite (lift_at _ _ _ _ _ Hresponse); cbn -[Gateway.lift]; [|silent].
      destruct response as [[| emoji | content]|]; cbn -[Gateway.lift]; [silent| | |silent].
      + do 3 eexists. split; [done|]. cbn -[Gateway.lift]. split; [done|].
        split; [|done]. right. right. right. by exists emoji.
      + do 3 eexists. split; [done|]. cbn -[Gateway.lift]. split; [done|].
        split; [|done]. right. right. left. by exists content. }
  destruct Hrun as (r & g' & calls & Hrun & Hout & Hcalls & Hthrown).
  subst out. rewrite Hrun. by exists calls.
Qed.

Lemma replay_requests channel messages (p : Process) :
  ∃ rqs,
    log (forEach (DiscordInterface.addMessageToBotThread svc channel)
           messages p).2 = log p ++ rqs
    ∧ Forall (λ rq, Gateway.isCreateRun rq = false) rqs.
Proof.
  revert p. induction messages as [|m messages IH]; intros p.
  - exists []. simpl. by rewrite app_nil_r.
  - simpl. unfold bind. unfold DiscordInterface.addMessageToBotThread at 1.
    destruct (addMessage_requests (channelId m) m p) as (_ & _ & rqs & Hl & Hr).
    destruct (Bot.addMessage svc (channelId m) m p) as [[[]|e] p1];
      simpl in *.
    + destruct (IH p1) as (rqs' & Hl' & Hr').
      exists (rqs ++ rqs'). rewrite Hl', Hl. rewrite app_assoc.
      split; [done|]. by apply Forall_app.
    + by exists rqs.
Qed.

(** A channel that is not active is activated by fetching its history and
    replaying it; no run is created on the way. *)
Lemma activation_requests (channel : string) (p : Process) :
  channel ∉ activeDMChannels p →
  ∃ p2 replay,
    DiscordInterface.activateDMChannel svc channel p = (Fulfilled tt, p2)
    ∧ log p2 = log p ++ FetchMessages channel 30 :: replay
    ∧ Forall (λ rq, Gateway.isCreateRun rq = false) replay.
Proof.
  intros Hnot. unfold DiscordInterface.activateDMChannel.
  rewrite bool_decide_eq_false_2 by done.
  unfold tryCatch, bind.
  assert (Hfetch : ∃ messages w,
            DiscordInterface.getLastMessages svc channel 30 p
            = (Fulfilled messages, setWorld w (FetchMessages channel 30) p)).
  { unfold DiscordInterface.getLastMessages, tryCatch, request.
    destruct (channel_messages_fetch svc channel 30 (world p))
      as [[messages|e] w]; simpl; eauto. }
  destruct Hfetch as (messages & w & ->).
  destruct (replay_requests channel (reverse messages)
              (setWorld w (FetchMessages channel 30) p))
    as (replay & Hl & Hr).
  destruct (forEach (DiscordInterface.addMessageToBotThread svc channel)
              (reverse messages) (setWorld w (FetchMessages channel 30) p))
    as [[[]|e] p2]; simpl in *.
  - eexists. exists replay. split; [done|]. simpl. rewrite Hl.
    by rewrite <- app_assoc.
  - eexists. exists replay. split; [done|]. rewrite Hl.
    by rewrite <- app_assoc.
Qed.

Lemma tracks_lift {A} (m : M Process A) :
  Timeline.tracks (Timeline.lift m) (Gateway.lift m).
Proof.
  intros t. unfold Timeline.lift.
  by destruct (Gateway.lift m (Timeline.gateway t)).
Qed.

Lemma tracks_post c : Timeline.tracks (W:=W) (Timeline.post c) (Gateway.post c).
Proof. intros t. done. Qed.

Lemma tracks_ret {A} (a : A) :
  Timeline.tracks (W:=W) (ret a) (ret a).
Proof. intros t. done. Qed.

Lemma tracks_bind {A B} (m : M Timed A) (m' : M Gateway A)
    (k : A → M Timed B) (k' : A → M Gateway B) :
  Timeline.tracks m m' →
  (∀ a, Timeline.tracks (k a) (k' a)) →
  Timeline.tracks (bind m k) (bind m' k').
Proof.
  intros Hm Hk t. unfold bind. destruct (Hm t) as [Hr Hg].
  destruct (m t) as [[a|e] t1], (m' (Timeline.gateway t)) as [[a'|e'] g1];
    simpl in *; try discriminate.
  - injection Hr as ->. subst g1. apply Hk.
  - injection Hr as ->. by subst g1.
Qed.

Lemma tracks_dispatch (to : MockMessage) response :
  Timeline.tracks (W:=W) (Timeline.dispatch to response)
                  (Gateway.dispatch to response).
Proof.
  destruct response as [[|emoji|content]|]; simpl;
    auto using tracks_post, tracks_ret.
Qed.

(** The handler read with one list does to the gateway what the handler
    read with two lists does. *)
Lemma tracks_messageCreate (incoming : Gateway.Incoming) :
  Timeline.tracks (timedMessageCreate incoming) (messageCreate incoming).
Proof.
  intros t. unfold Timeline.messageCreate, Gateway.messageCreate.
  destruct (Gateway.listens incoming (Timeline.gateway t)); [|done].
  refine (tracks_bind _ _ _ _ (tracks_lift _) _ t). intros [].
  destruct (fromMe (Gateway.received incoming)); [apply tracks_ret|].
  destruct (Gateway.isDM incoming).
  - apply tracks_bind; [apply tracks_lift|]. intros [].
    apply tracks_bind; [apply tracks_post|]. intros [].
    apply tracks_bind; [apply tracks_lift|]. intros response.
    apply tracks_dispatch.
  - intros t'.
    destruct (bool_decide
                (channelId (Gateway.received incoming)
                 ∈ subscriberChannels
                     (Gateway.process (Timeline.gateway t')))); [|done].
    refine (tracks_bind _ _ _ _ (tracks_lift _) _ t'). intros response.
    apply tracks_dispatch.
Qed.

Lemma timed_lift_at {A} (m : M Process A) (p : Process) calls events r p'
    rqs :
  m p = (r, p') →
  log p' = log p ++ rqs →
  Timeline.lift m (Timeline.mkTimed (Gateway.mkGateway p calls) events)
  = (r, Timeline.mkTimed (Gateway.mkGateway p' calls)
          (events ++ (Timeline.Asked <$> rqs))).
Proof.
  intros Hm Hlog. unfold Timeline.lift, Gateway.lift, Timeline.since. simpl.
  rewrite Hm. simpl. by rewrite Hlog, drop_app_length.
Qed.

Lemma timed_dispatch (to : MockMessage) response (p : Process) calls events :
  ∃ sent,
    Timeline.dispatch to response
      (Timeline.mkTimed (Gateway.mkGateway p calls) events)
    = (Fulfilled tt,
       Timeline.mkTimed (Gateway.mkGateway p (calls ++ sent))
         (events ++ (Timeline.Sent <$> sent))).
Proof.
  destruct response as [[|emoji|content]|]; simpl.
  - exists []. unfold ret. simpl. by rewrite !app_nil_r.
  - by exists [Gateway.MessageReact to emoji].
  - by exists [Gateway.MessageReply to content].
  - exists []. unfold ret. simpl. by rewrite !app_nil_r.
Qed.

(** The first message of a user in a direct message channel, its requests
    and calls in the order they are made: the message is added to the
    thread; then the history of the channel is fetched and replayed, with
    no run created so far; then the typing indicator is sent; then the run
    of the direct-message assistant is created and followed; what is sent
    back for the message comes last.  The gateway ends as the handler with
    two lists leaves it, whose log and outbox hold these requests and
    these calls. *)
Theorem direct_message_is_answered_after_the_replay
    (incoming : Gateway.Incoming) (t : Timed) p1 assistantId :
  let m := Gateway.received incoming in
  let g := Timeline.gateway t in
  Gateway.isDM incoming = true →
  fromMe m = false →
  (channelId m ∉ activeDMChannels (Gateway.process g)) →
  Bot.addMessage svc (channelId m) m (Gateway.process g)
  = (Fulfilled tt, p1) →
  assistants !! "DM_assistant" = Some (Fulfilled assistantId) →
  ∃ p2 added replay rqs calls,
    DiscordInterface.activateDMChannel svc (channelId m) p1
    = (Fulfilled tt, p2)
    ∧ log p1 = log (Gateway.process g) ++ added
    ∧ Timeline.events (timedMessageCreate incoming t).2
      = Timeline.events t
        ++ (Timeline.Asked <$> added)
        ++ Timeline.Asked (FetchMessages (channelId m) 30)
           :: (Timeline.Asked <$> replay)
        ++ Timeline.Sent (Gateway.SendTyping (channelId m))
           :: Timeline.Asked
                (CreateRun (threadIds p2 !! channelId m) (Some assistantId) 50)
           :: (Timeline.Asked <$> rqs)
        ++ (Timeline.Sent <$> calls)
    ∧ Forall (λ rq, Gateway.isCreateRun rq = false) (added ++ replay)
    ∧ Timeline.gateway (timedMessageCreate incoming t).2
      = (messageCreate incoming g).2
    ∧ log (Gateway.process (messageCreate incoming g).2)
      = log p1 ++ FetchMessages (channelId m) 30 :: replay
        ++ CreateRun (threadIds p2 !! channelId m) (Some assistantId) 50
           :: rqs
    ∧ Gateway.outbox (messageCreate incoming g).2
      = Gateway.outbox g ++ Gateway.SendTyping (channelId m) :: calls.
Proof.
  intros m g Hdm Hme Hnot Hadd Hassistant. subst m g.
  destruct t as [[p calls0] events0]. simpl in *.
  destruct (addMessage_requests (channelId (Gateway.received incoming))
              (Gateway.received incoming) p)
    as (_ & Ha & added & Hlog1 & Hadded).
  rewrite Hadd in Ha, Hlog1. simpl in Ha, Hlog1.
  destruct (activation_requests (channelId (Gateway.received incoming)) p1)
    as (p2 & replay & Hactivate & Hlog2 & Hreplay); [by rewrite Ha|].
  destruct (response_first_request svc tools assistants fuel
              (channelId (Gateway.received incoming)) "DM_assistant"
              assistantId p2 Hassistant) as (rqs & Hlog3).
  destruct (Bot.response svc tools assistants fuel
              (channelId (Gateway.received incoming)) "DM_assistant" p2)
    as [response p3] eqn:Hresponse. simpl in Hlog3.
  assert (Hrun : ∃ r calls,
    timedMessageCreate incoming
      (Timeline.mkTimed (Gateway.mkGateway p calls0) events0)
    = (r, Timeline.mkTimed
            (Gateway.mkGateway p3
               (calls0
                ++ Gateway.SendTyping (channelId (Gateway.received incoming))
                   :: calls))
            (events0
             ++ (Timeline.Asked <$> added)
             ++ Timeline.Asked
                  (FetchMessages (channelId (Gateway.received incoming)) 30)
                :: (Timeline.Asked <$> replay)
             ++ Timeline.Sent
                  (Gateway.SendTyping (channelId (Gateway.received incoming)))
                :: Timeline.Asked
                     (CreateRun
                        (threadIds p2 !! channelId (Gateway.received incoming))
                        (Some assistantId) 50)
                :: (Timeline.Asked <$> rqs)
             ++ (Timeline.Sent <$> calls)))).
  { unfold Timeline.messageCreate, Gateway.listens. simpl.
    rewrite Hdm, Hme. cbn -[Timeline.lift]. unfold bind.
    rewrite (timed_lift_at _ _ _ _ _ _ _ Hadd Hlog1).
    rewrite (timed_lift_at _ _ _ _ _ _ _ Hactivate Hlog2).
    cbn -[Timeline.lift].
    rewrite (timed_lift_at _ _ _ _ _ _ _ Hresponse Hlog3).
    destruct response as [response|e].
    - match goal with
      | |- context [Timeline.dispatch ?to ?r
                      (Timeline.mkTimed (Gateway.mkGateway ?q ?c) ?e)] =>
          destruct (timed_dispatch to r q c e) as (sent & Hsent)
      end.
      rewrite Hsent. exists (Fulfilled tt), sent. f_equal. f_equal.
      + f_equal. by rewrite <- app_assoc.
      + rewrite !fmap_cons. rewrite <- !app_assoc. simpl.
        by rewrite <- ?app_assoc.
    - exists (Rejected e), []. f_equal. f_equal.
      rewrite !fmap_cons. simpl. rewrite <- !app_assoc. simpl.
      by rewrite <- ?app_assoc, ?app_nil_r. }
  destruct Hrun as (r & calls & Hrun).
  destruct (tracks_messageCreate incoming
              (Timeline.mkTimed (Gateway.mkGateway p calls0) events0))
    as [_ Hlink].
  rewrite Hrun in Hlink. simpl in Hlink.
  exists p2, added, replay, rqs, calls.
  rewrite Hrun, <- Hlink. simpl.
  split; [done|]. split; [done|]. split; [done|].
  split; [by apply Forall_app|]. split; [done|].
  split; [|done].
  rewrite Hlog3, Hlog2. by rewrite <- app_assoc.
Qed.

(** A message of a user in a subscribed channel is added to the thread of
    the channel and answered by the moderator: its run is the next
    request; nothing is fetched, no channel is activated and the map of
    threads is as the addition left it. *)
Theorem channel_message_goes_to_the_moderator
    (incoming : Gateway.Incoming) (g : Gateway) p1 assistantId :
  let m := Gateway.received incoming in
  Gateway.isDM incoming = false →
  fromMe m = false →
  channelId m ∈ subscriberChannels (Gateway.process g) →
  Bot.addMessage svc (channelId m) m (Gateway.process g)
  = (Fulfilled tt, p1) →
  assistants !! "moderator" = Some (Fulfilled assistantId) →
  let g' := (messageCreate incoming g).2 in
  (∃ rqs,
     log (Gateway.process g')
     = log p1 ++ CreateRun (threadIds p1 !! channelId m) (Some assistantId) 50
                 :: rqs)
  ∧ threadIds (Gateway.process g') = threadIds p1
  ∧ activeDMChannels (Gateway.process g')
    = activeDMChannels (Gateway.process g)
  ∧ ∃ calls,
      Gateway.outbox g' = Gateway.outbox g ++ calls
      ∧ length calls ≤ 1
      ∧ (Gateway.SendTyping (channelId m) ∉ calls).
Proof.
  intros m Hdm Hme Hin Hadd Hassistant g'. subst m g'.
  destruct (addMessage_requests (channelId (Gateway.received incoming))
              (Gateway.received incoming) (Gateway.process g))
    as (Hs & Ha & _). rewrite Hadd in Hs, Ha. simpl in Hs, Ha.
  destruct (response_first_request svc tools assistants fuel
              (channelId (Gateway.received incoming)) "moderator"
              assistantId p1 Hassistant) as (rqs & Hlog).
  destruct (keeps_response svc tools assistants fuel
              (channelId (Gateway.received incoming)) "moderator" p1)
    as (Ht & _ & Ha' & _).
  unfold Gateway.messageCreate, Gateway.listens. rewrite Hdm, Hme.
  rewrite bool_decide_eq_true_2 by done.
  cbn -[Gateway.lift]. unfold bind.
  rewrite (lift_run _ _ _ _ Hadd). cbn -[Gateway.lift].
  rewrite bool_decide_eq_true_2 by (by rewrite Hs).
  destruct (Bot.response svc tools assistants fuel
              (channelId (Gateway.received incoming)) "moderator" p1)
    as [[response|e] p3] eqn:Hresponse; simpl in Hlog, Ht, Ha';
    rewrite (lift_at _ _ _ _ _ Hresponse); cbn -[Gateway.lift].
  - destruct (dispatch_outbox (Gateway.received incoming) response
                (Gateway.mkGateway p3 (Gateway.outbox g)))
      as (_ & Hp & Ho).
    rewrite Hp. simpl.
    split; [by exists rqs|]. split; [done|]. split; [congruence|].
    destruct Ho as [Ho|[[x Ho]|[x Ho]]]; rewrite Ho; simpl.
    + exists []. rewrite app_nil_r. split; [done|]. split; [simpl; lia|].
      apply not_elem_of_nil.
    + eexists. split; [done|]. split; [simpl; lia|].
      intros Hx. apply list_elem_of_singleton in Hx. discriminate Hx.
    + eexists. split; [done|]. split; [simpl; lia|].
      intros Hx. apply list_elem_of_singleton in Hx. discriminate Hx.
  - simpl. split; [by exists rqs|]. split; [done|]. split; [congruence|].
    exists []. rewrite app_nil_r. split; [done|]. split; [simpl; lia|].
    apply not_elem_of_nil.
Qed.

Local Abbreviation interactionCreate :=
  (Gateway.interactionCreate svc desk tools assistants fuel).

Lemma bind_ret_tt {St} (m : M St unit) (s : St) : (m ;; ret tt) s = m s.
Proof. unfold bind. by destruct (m s) as [[[]|e] s']. Qed.

Lemma ret_bind {St A} (k : M St A) (s : St) : (ret tt ;; k) s = k s.
Proof. done. Qed.

(** The tests on the name of the command, settled for a given name. *)
Local Ltac decide_names :=
  repeat match goal with
         | |- context [decide (?a = ?b)] =>
             destruct (decide (a = b)) as [Heq|Hne];
             [try discriminate Heq; clear Heq
             |try (by destruct Hne); clear Hne]
         end.

Local Ltac one_block handler :=
  unfold Gateway.interactionCreate, Gateway.when; decide_names;
  unfold bind, ret;
  match goal with
  | |- context [handler ?g] => by destruct (handler g) as [[[]|?] ?]
  end.

Lemma interaction_test channel (g : Gateway) :
  interactionCreate true "test" channel g = Gateway.test desk g.
Proof. one_block (Gateway.test desk). Qed.

Lemma interaction_subscribe channel (g : Gateway) :
  interactionCreate true "subscribe" channel g
  = Gateway.subscribe svc desk channel g.
Proof. one_block (Gateway.subscribe svc desk channel). Qed.

Lemma interaction_unsubscribe channel (g : Gateway) :
  interactionCreate true "unsubscribe" channel g
  = Gateway.unsubscribe svc desk channel g.
Proof. one_block (Gateway.unsubscribe svc desk channel). Qed.

Lemma interaction_get_current_botd channel (g : Gateway) :
  interactionCreate true "get_current_botd" channel g
  = Gateway.get_current_botd desk g.
Proof. one_block (Gateway.get_current_botd desk). Qed.

Lemma interaction_select_next_botd channel (g : Gateway) :
  interactionCreate true "select_next_botd" channel g
  = Gateway.select_next_botd svc desk g.
Proof. one_block (Gateway.select_next_botd svc desk). Qed.

Lemma interaction_motivate channel (g : Gateway) :
  interactionCreate true "motivate" channel g
  = Gateway.motivate svc desk tools assistants fuel channel g.
Proof.
  one_block (Gateway.motivate svc desk tools assistants fuel channel).
Qed.

Lemma interaction_get_leaderboard channel (g : Gateway) :
  interactionCreate true "get_leaderboard" channel g
  = Gateway.get_leaderboard desk channel g.
Proof. one_block (Gateway.get_leaderboard desk channel). Qed.

Lemma interaction_brainteasers_left channel (g : Gateway) :
  interactionCreate true "brainteasers_left" channel g
  = Gateway.brainteasers_left desk g.
Proof. one_block (Gateway.brainteasers_left desk). Qed.

Lemma interaction_leaderboard channel (g : Gateway) :
  interactionCreate true "leaderboard" channel g = (Fulfilled tt, g).
Proof.
  unfold Gateway.interactionCreate, Gateway.when. decide_names. done.
Qed.

Lemma unanswered_appends {A} (m : M Gateway A) :
  Gateway.unanswered m → Gateway.appends m.
Proof. intros Hm g. destruct (Hm g) as (calls & Ho & _). by exists calls. Qed.

Lemma unanswered_ret {A} (a : A) : Gateway.unanswered (ret a : M Gateway A).
Proof. intros g. exists []. simpl. by rewrite app_nil_r. Qed.

Lemma unanswered_lift {A} (m : M Process A) :
  Gateway.unanswered (Gateway.lift m).
Proof. intros g. exists []. rewrite lift_eq. simpl. by rewrite app_nil_r. Qed.

Lemma unanswered_call {A} c (f : W → Settled A * W) :
  Gateway.onInteraction c = false → Gateway.unanswered (Gateway.call c f).
Proof.
  intros Hc g. exists [c]. unfold Gateway.call.
  destruct (f (world (Gateway.process g))) as [r w]. simpl.
  split; [done|]. rewrite filter_cons. rewrite Hc. simpl. done.
Qed.

Lemma unanswered_bind {A B} (m : M Gateway A) (k : A → M Gateway B) :
  Gateway.unanswered m → (∀ a, Gateway.unanswered (k a)) →
  Gateway.unanswered (bind m k).
Proof.
  intros Hm Hk g. unfold bind. destruct (Hm g) as (calls & Ho & Hf).
  destruct (m g) as [[a|e] g1]; simpl in *; [|by exists calls].
  destruct (Hk a g1) as (calls' & Ho' & Hf').
  exists (calls ++ calls'). rewrite Ho', Ho, <- app_assoc. split; [done|].
  by rewrite filter_app, Hf, Hf'.
Qed.

Lemma unanswered_guard (b : Gateway → bool) e :
  Gateway.unanswered
    ((λ g, if b g then (Fulfilled tt, g) else (Rejected e, g))
     : M Gateway unit).
Proof.
  intros g. exists []. rewrite app_nil_r. by destruct (b g).
Qed.

Lemma appends_call {A} c (f : W → Settled A * W) :
  Gateway.appends (Gateway.call c f).
Proof.
  intros g. exists [c]. unfold Gateway.call.
  by destruct (f (world (Gateway.process g))) as [r w].
Qed.

Lemma appends_bind {A B} (m : M Gateway A) (k : A → M Gateway B) :
  Gateway.appends m → (∀ a, Gateway.appends (k a)) →
  Gateway.appends (bind m k).
Proof.
  intros Hm Hk g. unfold bind. destruct (Hm g) as (calls & Ho).
  destruct (m g) as [[a|e] g1]; simpl in *; [|by exists calls].
  destruct (Hk a g1) as (calls' & Ho').
  exists (calls ++ calls'). by rewrite Ho', Ho, <- app_assoc.
Qed.

Lemma appends_tryCatch {A} (m : M Gateway A) (h : string → M Gateway A) :
  Gateway.appends m → (∀ e, Gateway.appends (h e)) →
  Gateway.appends (tryCatch m h).
Proof.
  intros Hm Hh g. unfold tryCatch. destruct (Hm g) as (calls & Ho).
  destruct (m g) as [[a|e] g1]; simpl in *; [by exists calls|].
  destruct (Hh e g1) as (calls' & Ho').
  exists (calls ++ calls'). by rewrite Ho', Ho, <- app_assoc.
Qed.

(** A computation that starts with an awaited call. *)
Lemma starts_with {A B} c (f : W → Settled A * W) (k : A → M Gateway B)
    (g : Gateway) :
  (∀ a, Gateway.appends (k a)) →
  ∃ rest,
    Gateway.outbox (bind (Gateway.call c f) k g).2
    = Gateway.outbox g ++ c :: rest.
Proof.
  intros Hk. unfold bind, Gateway.call.
  destruct (f (world (Gateway.process g))) as [[a|e] w]; simpl.
  - match goal with
    | |- context [k a ?g1] => destruct (Hk a g1) as (calls & Ho)
    end.
    exists calls. rewrite Ho. simpl. by rewrite <- app_assoc.
  - by exists [].
Qed.

Local Ltac appends_steps :=
  repeat first
    [ apply appends_bind; [|intros ?]
    | apply appends_tryCatch; [|intros ?]
    | apply appends_call
    | apply unanswered_appends, unanswered_lift
    | apply unanswered_appends, unanswered_ret
    | apply unanswered_appends, unanswered_guard
    | match goal with
      | |- Gateway.appends (match ?x with _ => _ end) => destruct x
      | |- Gateway.appends (if ?x then _ else _) => destruct x
      end ].

(** A handler that starts with an awaited call on the interaction. *)
Local Ltac starts_with_call :=
  match goal with
  | |- ∃ x y, Gateway.outbox (bind (Gateway.call ?c ?f) ?k ?g).2 = _ ∧ _ =>
      let rest := fresh "rest" in
      let Ho := fresh "Ho" in
      destruct (starts_with c f k g) as (rest & Ho);
      [ intros ?; unfold Gateway.edit; appends_steps
      | exists c, rest; split; [exact Ho|done] ]
  end.

(** The command [leaderboard] is registered but the handler serves the
    name [get_leaderboard], which is not: an interaction with the
    registered name is left without any reply and changes nothing, while
    every other registered command starts by replying to the interaction
    or deferring the reply. *)
Theorem leaderboard_command_is_not_served (channel : string) (g : Gateway) :
  "leaderboard" ∈ Gateway.commands
  ∧ ("get_leaderboard" ∉ Gateway.commands)
  ∧ interactionCreate true "leaderboard" channel g = (Fulfilled tt, g)
  ∧ ∀ name,
      name ∈ Gateway.commands → name ≠ "leaderboard" →
      ∃ c rest,
        Gateway.outbox (interactionCreate true name channel g).2
        = Gateway.outbox g ++ c :: rest
        ∧ Gateway.onInteraction c = true.
Proof.
  split; [unfold Gateway.commands; repeat first [by left | right]|].
  split.
  { unfold Gateway.commands. intros Hin.
    repeat (apply elem_of_cons in Hin as [Hin|Hin]; [discriminate Hin|]).
    by apply elem_of_nil in Hin. }
  split; [apply interaction_leaderboard|].
  intros name Hin Hne. unfold Gateway.commands in Hin.
  repeat (apply elem_of_cons in Hin as [->|Hin]);
    [..|by apply elem_of_nil in Hin].
  - rewrite interaction_test. unfold Gateway.test, Gateway.call.
    destruct (Gateway.interaction_reply desk "Pong!" true
                (world (Gateway.process g))) as [r w]. simpl.
    by exists (Gateway.Reply "Pong!" true), [].
  - rewrite interaction_subscribe.
    unfold Gateway.subscribe, Gateway.defer. starts_with_call.
  - rewrite interaction_unsubscribe.
    unfold Gateway.unsubscribe, Gateway.defer. starts_with_call.
  - rewrite interaction_get_current_botd.
    unfold Gateway.get_current_botd, Gateway.defer. starts_with_call.
  - rewrite interaction_select_next_botd.
    unfold Gateway.select_next_botd, Gateway.defer. starts_with_call.
  - rewrite interaction_motivate.
    unfold Gateway.motivate, Gateway.defer. starts_with_call.
  - by destruct Hne.
  - rewrite interaction_brainteasers_left.
    unfold Gateway.brainteasers_left, Gateway.defer. starts_with_call.
Qed.

Lemma edit_run content (g : Gateway) :
  Gateway.repliesGoThrough desk →
  ∃ g', Gateway.edit desk content g = (Fulfilled tt, g')
        ∧ Gateway.outbox g' = Gateway.outbox g ++ [Gateway.EditReply content]
        ∧ log (Gateway.process g') = log (Gateway.process g)
        ∧ subscriberChannels (Gateway.process g')
          = subscriberChannels (Gateway.process g).
Proof.
  intros (_ & _ & Hedit). unfold Gateway.edit, Gateway.call.
  specialize (Hedit content (world (Gateway.process g))).
  destruct (Gateway.interaction_editReply desk content
              (world (Gateway.process g))) as [r w].
  simpl in Hedit. subst r. by eexists.
Qed.

Lemma defer_run ephemeral (g : Gateway) :
  Gateway.repliesGoThrough desk →
  ∃ g', Gateway.defer desk ephemeral g = (Fulfilled tt, g')
        ∧ Gateway.outbox g'
          = Gateway.outbox g ++ [Gateway.DeferReply ephemeral]
        ∧ log (Gateway.process g') = log (Gateway.process g)
        ∧ subscriberChannels (Gateway.process g')
          = subscriberChannels (Gateway.process g).
Proof.
  intros (_ & Hdefer & _). unfold Gateway.defer, Gateway.call.
  specialize (Hdefer ephemeral (world (Gateway.process g))).
  destruct (Gateway.interaction_deferReply desk ephemeral
              (world (Gateway.process g))) as [r w].
  simpl in Hdefer. subst r. by eexists.
Qed.

(** A block [try { pre; edit } catch (error) { edit }] edits the reply
    once when [pre] leaves the interaction alone. *)
Lemma try_edits_once {A} (body : M Gateway unit) (pre : M Gateway A)
    (text : A → string) (h : string → string) (g : Gateway) :
  Gateway.repliesGoThrough desk →
  Gateway.unanswered pre →
  body g = (let! x := pre in Gateway.edit desk (text x)) g →
  ∃ calls content,
    (tryCatch body (λ error, Gateway.edit desk (h error)) g).1 = Fulfilled tt
    ∧ Gateway.outbox
        (tryCatch body (λ error, Gateway.edit desk (h error)) g).2
      = Gateway.outbox g ++ calls
    ∧ filter Gateway.onInteraction calls = [Gateway.EditReply content].
Proof.
  intros Hgo Hpre Hbody. unfold tryCatch. rewrite Hbody. unfold bind.
  destruct (Hpre g) as (calls & Ho & Hf).
  destruct (pre g) as [[x|e] g1]; simpl in Ho.
  - destruct (edit_run (text x) g1 Hgo) as (g2 & -> & Ho2 & _).
    exists (calls ++ [Gateway.EditReply (text x)]), (text x). simpl.
    split; [done|]. split; [by rewrite Ho2, Ho, <- app_assoc|].
    by rewrite filter_app, Hf.
  - destruct (edit_run (h e) g1 Hgo) as (g2 & -> & Ho2 & _).
    exists (calls ++ [Gateway.EditReply (h e)]), (h e). simpl.
    split; [done|]. split; [by rewrite Ho2, Ho, <- app_assoc|].
    by rewrite filter_app, Hf.
Qed.

(** A handler [deferReply; try { pre; edit } catch (error) { edit }]. *)
Lemma deferred_try_edits_once {A} ephemeral (body : M Gateway unit)
    (pre : M Gateway A) (text : A → string) (h : string → string)
    (g : Gateway) :
  Gateway.repliesGoThrough desk →
  Gateway.unanswered pre →
  (∀ g1, body g1 = (let! x := pre in Gateway.edit desk (text x)) g1) →
  let m := Gateway.defer desk ephemeral ;;
           tryCatch body (λ error, Gateway.edit desk (h error)) in
  ∃ calls ephemeral' content,
    (m g).1 = Fulfilled tt
    ∧ Gateway.outbox (m g).2 = Gateway.outbox g ++ calls
    ∧ filter Gateway.onInteraction calls
      = [Gateway.DeferReply ephemeral'; Gateway.EditReply content].
Proof.
  intros Hgo Hpre Hbody m.
  destruct (defer_run ephemeral g Hgo) as (g1 & Hdefer & Ho1 & _).
  assert (Hm : m g
               = tryCatch body (λ error, Gateway.edit desk (h error)) g1).
  { subst m. unfold bind. by rewrite Hdefer. }
  rewrite Hm.
  destruct (try_edits_once body pre text h g1 Hgo Hpre (Hbody g1))
    as (calls & content & Hr & Ho & Hf).
  exists (Gateway.DeferReply ephemeral :: calls), ephemeral, content.
  split; [done|]. split.
  - rewrite Ho, Ho1. by rewrite <- app_assoc.
  - rewrite filter_cons. simpl. by rewrite Hf.
Qed.

Local Ltac unanswered_steps :=
  repeat first
    [ apply unanswered_bind; [|intros ?]
    | apply unanswered_lift
    | apply unanswered_ret
    | apply unanswered_guard
    | by apply unanswered_call ].

(** Every command that defers its reply edits it exactly once, whatever
    the database and Discord answer, as long as the calls on the
    interaction go through: the handler returns normally and what it
    sends on the interaction is the deferral followed by one edit. *)
Theorem deferred_reply_is_edited_once (name channel : string) (g : Gateway) :
  name ∈ Gateway.deferring →
  Gateway.repliesGoThrough desk →
  ∃ calls ephemeral content,
    (interactionCreate true name channel g).1 = Fulfilled tt
    ∧ Gateway.outbox (interactionCreate true name channel g).2
      = Gateway.outbox g ++ calls
    ∧ filter Gateway.onInteraction calls
      = [Gateway.DeferReply ephemeral; Gateway.EditReply content].
Proof.
  intros Hin Hgo. unfold Gateway.deferring in Hin.
  repeat (apply elem_of_cons in Hin as [->|Hin]);
    [..|by apply elem_of_nil in Hin].
  - rewrite interaction_subscribe. unfold Gateway.subscribe.
    apply (deferred_try_edits_once false _
             (Gateway.lift (request (UpsertChannel channel true)
                              (db_upsertChannel svc channel true)) ;;
              Gateway.lift
                (λ p, (Fulfilled tt,
                       DiscordInterface.setSubscriberChannels
                         (subscriberChannels p ++ [channel]) p)))
             (λ _, "You have subscribed to Brainteaser of the Day in this channel!")
             (λ error,
                "Error subscribing to Brainteaser of the Day: " +:+ error)
             g Hgo).
    + unanswered_steps.
    + intros g1. unfold bind.
      by destruct (Gateway.lift _ g1) as [[[]|e] g2].
  - rewrite interaction_unsubscribe. unfold Gateway.unsubscribe.
    apply (deferred_try_edits_once false _
             (Gateway.lift (request (UpsertChannel channel false)
                              (db_upsertChannel svc channel false)) ;;
              Gateway.lift
                (λ p, (Fulfilled tt,
                       DiscordInterface.setSubscriberChannels
                         (filter (λ id, id ≠ channel) (subscriberChannels p))
                         p)))
             (λ _, "You have unsubscribed from Brainteaser of the Day in this channel!")
             (λ error,
                "Error unsubscribing from Brainteaser of the Day: " +:+ error)
             g Hgo).
    + unanswered_steps.
    + intros g1. unfold bind.
      by destruct (Gateway.lift _ g1) as [[[]|e] g2].
  - rewrite interaction_get_current_botd. unfold Gateway.get_current_botd.
    destruct (defer_run true g Hgo) as (g1 & Hdefer & Ho1 & _).
    unfold bind, tryCatch. rewrite Hdefer.
    assert (Hread : ∃ botd g2,
              Gateway.call Gateway.GetCurrentBrainteaser
                (Gateway.bot_getCurrentBrainteaserOfTheDay desk) g1
              = (botd, g2)
              ∧ Gateway.outbox g2
                = Gateway.outbox g1 ++ [Gateway.GetCurrentBrainteaser]).
    { unfold Gateway.call.
      destruct (Gateway.bot_getCurrentBrainteaserOfTheDay desk
                  (world (Gateway.process g1))) as [r w]. by do 2 eexists. }
    destruct Hread as (botd & g2 & -> & Ho2).
    destruct botd as [botd|e]; simpl.
    + destruct (edit_run botd g2 Hgo) as (g3 & -> & Ho3 & _).
      exists [Gateway.DeferReply true; Gateway.GetCurrentBrainteaser;
              Gateway.EditReply botd], true, botd. simpl.
      split; [done|]. split; [|done].
      rewrite Ho3, Ho2, Ho1. by rewrite <- !app_assoc.
    + destruct (edit_run
                  ("Error getting current brainteaser of the day: " +:+ e)
                  g2 Hgo) as (g3 & -> & Ho3 & _).
      exists [Gateway.DeferReply true; Gateway.GetCurrentBrainteaser;
              Gateway.EditReply
                ("Error getting current brainteaser of the day: " +:+ e)],
             true,
             ("Error getting current brainteaser of the day: " +:+ e). simpl.
      split; [done|]. split; [|done].
      rewrite Ho3, Ho2, Ho1. by rewrite <- !app_assoc.
  - rewrite interaction_select_next_botd. unfold Gateway.select_next_botd.
    apply (deferred_try_edits_once true _
             (Gateway.lift (DiscordInterface.broadcastBrainteaserOfTheDay svc))
             (λ _, "Selected next Brainteaser of the Day!")
             (λ error,
                "Error selecting next brainteaser of the day: " +:+ error)
             g Hgo).
    + unanswered_steps.
    + done.
  - rewrite interaction_get_leaderboard. unfold Gateway.get_leaderboard.
    apply (deferred_try_edits_once true _
             ((λ g, if bool_decide
                         (channel ∈ subscriberChannels (Gateway.process g))
                    then (Fulfilled tt, g)
                    else (Rejected Gateway.noLeaderboard, g)) ;;
              Gateway.call (Gateway.GetLeaderboard channel)
                (Gateway.db_getLeaderboard desk channel))
             (λ leaderboard, leaderboard)
             (λ error, "Error getting leaderboard: " +:+ error)
             g Hgo).
    + unanswered_steps.
    + intros g1. unfold bind.
      destruct (bool_decide _); [|done].
      by destruct (Gateway.call _ _ g1) as [[x|e] g2].
  - rewrite interaction_brainteasers_left. unfold Gateway.brainteasers_left.
    apply (deferred_try_edits_once true _
             (Gateway.call Gateway.GetBrainteasersLeft
                (Gateway.db_getBrainteasersLeft desk))
             (λ brainteasersLeft, brainteasersLeft)
             (λ error, "Error getting brainteasers left: " +:+ error)
             g Hgo).
    + unanswered_steps.
    + done.
Qed.

Lemma deliveries_return botd (l : list string) (p : Process) :
  (forEach (DiscordInterface.deliver svc botd) l p).1 = Fulfilled tt.
Proof.
  revert p. induction l as [|c l IH]; intros p; [done|].
  simpl. unfold bind.
  assert (Hd : (DiscordInterface.deliver svc botd c p).1 = Fulfilled tt).
  { unfold DiscordInterface.deliver, tryCatch, bind, request.
    destruct (channel_isSendable svc c (world p)) as [[[]|e] w]; simpl;
      [|done|done].
    by destruct (channel_send svc c botd w) as [[[]|e] w']. }
  destruct (DiscordInterface.deliver svc botd c p) as [r p1].
  simpl in Hd. subst r. apply IH.
Qed.

Lemma broadcast_returns (p : Process) :
  (DiscordInterface.broadcastBrainteaserOfTheDay svc p).1 = Fulfilled tt.
Proof.
  unfold DiscordInterface.broadcastBrainteaserOfTheDay, bind, tryCatch,
    request.
  destruct (db_selectNextBrainteaserOfTheDay svc (world p)) as [[botd|e] w];
    simpl; apply deliveries_return.
Qed.

(** The command [select_next_botd] reports a selection whatever the
    selection did: the broadcast never throws, so when the calls on the
    interaction go through the reply is always the text of success, also
    when no brainteaser could be selected and the channels were sent the
    error instead. *)
Theorem selection_is_reported_even_when_it_failed (g : Gateway) w1 :
  Gateway.interaction_deferReply desk true (world (Gateway.process g))
  = (Fulfilled tt, w1) →
  (∀ content w,
     (Gateway.interaction_editReply desk content w).1 = Fulfilled tt) →
  let p := Gateway.process g in
  let p1 := mkProcess w1 (log p) (threadIds p) (subscriberChannels p)
              (activeDMChannels p) in
  let out := Gateway.select_next_botd svc desk g in
  out.1 = Fulfilled tt
  ∧ Gateway.outbox out.2
    = Gateway.outbox g
      ++ [ Gateway.DeferReply true;
           Gateway.EditReply "Selected next Brainteaser of the Day!" ]
  ∧ log (Gateway.process out.2)
    = log (DiscordInterface.broadcastBrainteaserOfTheDay svc p1).2
  ∧ ∀ e w,
      db_selectNextBrainteaserOfTheDay svc w1 = (Rejected e, w) →
      Broadcast.text svc p1
      = "Error selecting next brainteaser of the day: " +:+ e.
Proof.
  intros Hdefer Hedit p p1 out. subst p.
  assert (Hrun : ∃ w2,
            out = (Fulfilled tt,
                   Gateway.mkGateway
                     (mkProcess w2
                        (log (DiscordInterface.broadcastBrainteaserOfTheDay
                                svc p1).2)
                        (threadIds (DiscordInterface.broadcastBrainteaserOfTheDay
                                      svc p1).2)
                        (subscriberChannels
                           (DiscordInterface.broadcastBrainteaserOfTheDay
                              svc p1).2)
                        (activeDMChannels
                           (DiscordInterface.broadcastBrainteaserOfTheDay
                              svc p1).2))
                     (Gateway.outbox g
                      ++ [ Gateway.DeferReply true;
                           Gateway.EditReply
                             "Selected next Brainteaser of the Day!" ]))).
  { subst out. unfold Gateway.select_next_botd, Gateway.defer.
    unfold bind at 1. unfold Gateway.call at 1. rewrite Hdefer.
    cbn -[Gateway.lift Gateway.edit]. fold p1.
    unfold tryCatch, bind.
    pose proof (broadcast_returns p1) as Hreturns.
    rewrite (lift_at _ p1 _ _ _
               (surjective_pairing
                  (DiscordInterface.broadcastBrainteaserOfTheDay svc p1))).
    rewrite Hreturns. unfold Gateway.edit, Gateway.call.
    cbn -[DiscordInterface.broadcastBrainteaserOfTheDay].
    specialize (Hedit "Selected next Brainteaser of the Day!"
                  (world (DiscordInterface.broadcastBrainteaserOfTheDay
                            svc p1).2)).
    destruct (Gateway.interaction_editReply desk
                "Selected next Brainteaser of the Day!"
                (world (DiscordInterface.broadcastBrainteaserOfTheDay
                          svc p1).2)) as [r w2].
    simpl in Hedit. subst r. exists w2. by rewrite <- app_assoc. }
  destruct Hrun as (w2 & ->). simpl.
  split; [done|]. split; [done|]. split; [done|].
  intros e w Hselect. unfold Broadcast.text. subst p1. simpl.
  by rewrite Hselect.
Qed.

(** The commands [motivate] and [get_leaderboard] in a channel that is not
    subscribed: the reply is deferred and then edited to the error of the
    command; no run is created, the leaderboard is not read and nothing is
    sent to the channel. *)
Theorem commands_need_a_subscription (channel : string) (g : Gateway) :
  (channel ∉ subscriberChannels (Gateway.process g)) →
  Gateway.repliesGoThrough desk →
  let surveyed := Gateway.motivate svc desk tools assistants fuel channel g in
  let ranked := Gateway.get_leaderboard desk channel g in
  (surveyed.1 = Fulfilled tt
   ∧ log (Gateway.process surveyed.2) = log (Gateway.process g)
   ∧ Gateway.outbox surveyed.2
     = Gateway.outbox g
       ++ [ Gateway.DeferReply true;
            Gateway.EditReply
              ("Error sending motivation: " +:+ Gateway.notSurveyed) ])
  ∧ (ranked.1 = Fulfilled tt
     ∧ log (Gateway.process ranked.2) = log (Gateway.process g)
     ∧ Gateway.outbox ranked.2
       = Gateway.outbox g
         ++ [ Gateway.DeferReply true;
              Gateway.EditReply
                ("Error getting leaderboard: " +:+ Gateway.noLeaderboard) ]).
Proof.
  intros Hnot Hgo surveyed ranked.
  destruct (defer_run true g Hgo) as (g1 & Hdefer & Ho1 & Hl1 & Hs1).
  assert (Hguard : bool_decide
                     (channel ∈ subscriberChannels (Gateway.process g1))
                   = false).
  { apply bool_decide_eq_false_2. by rewrite Hs1. }
  split.
  - destruct (edit_run ("Error sending motivation: " +:+ Gateway.notSurveyed)
                g1 Hgo) as (g2 & Hedit & Ho2 & Hl2 & _).
    assert (Hrun : surveyed = (Fulfilled tt, g2)).
    { subst surveyed. unfold Gateway.motivate. unfold bind at 1.
      rewrite Hdefer. unfold tryCatch. unfold bind at 1.
      by rewrite Hguard. }
    rewrite Hrun. simpl. split; [done|]. split; [congruence|].
    rewrite Ho2, Ho1. by rewrite <- app_assoc.
  - destruct (edit_run
                ("Error getting leaderboard: " +:+ Gateway.noLeaderboard)
                g1 Hgo) as (g2 & Hedit & Ho2 & Hl2 & _).
    assert (Hrun : ranked = (Fulfilled tt, g2)).
    { subst ranked. unfold Gateway.get_leaderboard. unfold bind at 1.
      rewrite Hdefer. unfold tryCatch. unfold bind at 1.
      by rewrite Hguard. }
    rewrite Hrun. simpl. split; [done|]. split; [congruence|].
    rewrite Ho2, Ho1. by rewrite <- app_assoc.
Qed.

End GatewayFacts.

Lemma own_and_foreign_messages_are_not_answered_witness :
  Gateway.messageCreate Demo.service Demo.tools Demo.assistants 5
    Scenes.attempt (Scenes.idle (Demo.fresh Demo.quiet))
  = (Fulfilled tt, Scenes.idle (Demo.fresh Demo.quiet)).
Proof.
  destruct (own_and_foreign_messages_are_not_answered Demo.service Demo.tools
              Demo.assistants 5 Scenes.attempt
              (Scenes.idle (Demo.fresh Demo.quiet)) (or_intror eq_refl))
    as (_ & _ & _ & _ & Hdropped).
  apply Hdropped. reflexivity.
Defined.

(** A message of the bot itself in a direct message channel is added to
    the thread as the assistant's and nothing more is done. *)
Example own_message_is_only_recorded :
  let out := Gateway.messageCreate Demo.service Demo.tools Demo.assistants 5
               Scenes.echo (Scenes.idle (Demo.fresh Scenes.firstContact)) in
  log (Gateway.process out.2)
  = [ CreateThread;
      CreateMessage (Some "thread_1")
        (mkMessageCreateParams "assistant"
           (mkMessageInChat "dm_1" "bot_1" "Brian" "Welcome")) ]
  ∧ Gateway.outbox out.2 = []
  ∧ activeDMChannels (Gateway.process out.2) = [].
Proof. vm_compute. done. Qed.

Lemma unstored_message_is_not_answered_witness :
  Gateway.messageCreate Demo.service Demo.tools Demo.assistants 5
    Scenes.greeting (Scenes.idle (Demo.fresh Demo.quiet))
  = (Rejected Demo.connectionError,
     Gateway.mkGateway
       (setWorld Demo.quiet CreateThread (Demo.fresh Demo.quiet)) []).
Proof.
  apply (unstored_message_is_not_answered Demo.service Demo.tools
           Demo.assistants 5 Scenes.greeting
           (Scenes.idle (Demo.fresh Demo.quiet)) Demo.connectionError
           (setWorld Demo.quiet CreateThread (Demo.fresh Demo.quiet)));
    reflexivity.
Defined.

Lemma one_message_gets_at_most_one_answer_witness :
  ∃ calls,
    Gateway.outbox
      (Gateway.messageCreate Demo.service Demo.tools Demo.assistants 5
         Scenes.greeting (Scenes.idle (Demo.fresh Demo.quiet))).2
    = [] ++ calls
    ∧ (calls = [] ∨ calls = Gateway.typing Scenes.greeting).
Proof.
  destruct (one_message_gets_at_most_one_answer Demo.service Demo.tools
              Demo.assistants 5 Scenes.greeting
              (Scenes.idle (Demo.fresh Demo.quiet)))
    as (calls & Hout & _ & Hthrown).
  exists calls. split; [exact Hout|]. apply Hthrown. reflexivity.
Defined.

(** A first direct message that the assistant answers with a reply: the
    typing indicator, then the reply to the message. *)
Example direct_message_is_replied_to :
  Gateway.outbox
    (Gateway.messageCreate Demo.service Demo.tools Demo.assistants 5
       Scenes.greeting (Scenes.idle (Demo.fresh Scenes.replying))).2
  = [ Gateway.SendTyping "dm_1"; Gateway.MessageReply Demo.hello "reply" ].
Proof. vm_compute. reflexivity. Qed.

(** The same message, its requests and calls in the order they are made:
    the typing indicator follows the fetch of the history and comes before
    the run. *)
Example direct_message_in_order :
  Timeline.events
    (Timeline.messageCreate Demo.service Demo.tools Demo.assistants 5
       Scenes.greeting
       (Timeline.mkTimed (Scenes.idle (Demo.fresh Scenes.replying)) [])).2
  = [ Timeline.Asked CreateThread;
      Timeline.Asked (CreateMessage (Some "thread_1") (Bot.toParams Demo.hello));
      Timeline.Asked (FetchMessages "dm_1" 30);
      Timeline.Sent (Gateway.SendTyping "dm_1");
      Timeline.Asked (CreateRun (Some "thread_1") (Some "asst_2") 50);
      Timeline.Asked (RetrieveRun (Some "thread_1") "run_1");
      Timeline.Asked (ListMessages (Some "thread_1"));
      Timeline.Sent (Gateway.MessageReply Demo.hello "reply") ].
Proof. vm_compute. reflexivity. Qed.

Lemma direct_message_is_answered_after_the_replay_witness :
  let t := Timeline.mkTimed (Scenes.idle (Demo.fresh Scenes.firstContact)) [] in
  let p1 := (Bot.addMessage Demo.service "dm_1" Demo.hello
               (Demo.fresh Scenes.firstContact)).2 in
  ∃ p2 added replay rqs calls,
    DiscordInterface.activateDMChannel Demo.service "dm_1" p1
    = (Fulfilled tt, p2)
    ∧ log p1 = log (Demo.fresh Scenes.firstContact) ++ added
    ∧ Timeline.events
        (Timeline.messageCreate Demo.service Demo.tools Demo.assistants 5
           Scenes.greeting t).2
      = [] ++ (Timeline.Asked <$> added)
        ++ Timeline.Asked (FetchMessages "dm_1" 30)
           :: (Timeline.Asked <$> replay)
        ++ Timeline.Sent (Gateway.SendTyping "dm_1")
           :: Timeline.Asked
                (CreateRun (threadIds p2 !! "dm_1") (Some "asst_2") 50)
           :: (Timeline.Asked <$> rqs)
        ++ (Timeline.Sent <$> calls)
    ∧ Forall (λ rq, Gateway.isCreateRun rq = false) (added ++ replay)
    ∧ Timeline.gateway
        (Timeline.messageCreate Demo.service Demo.tools Demo.assistants 5
           Scenes.greeting t).2
      = (Gateway.messageCreate Demo.service Demo.tools Demo.assistants 5
           Scenes.greeting (Scenes.idle (Demo.fresh Scenes.firstContact))).2
    ∧ log (Gateway.process
             (Gateway.messageCreate Demo.service Demo.tools Demo.assistants 5
                Scenes.greeting
                (Scenes.idle (Demo.fresh Scenes.firstContact))).2)
      = log p1 ++ FetchMessages "dm_1" 30 :: replay
        ++ CreateRun (threadIds p2 !! "dm_1") (Some "asst_2") 50 :: rqs
    ∧ Gateway.outbox
        (Gateway.messageCreate Demo.service Demo.tools Demo.assistants 5
           Scenes.greeting (Scenes.idle (Demo.fresh Scenes.firstContact))).2
      = [] ++ Gateway.SendTyping "dm_1" :: calls.
Proof.
  apply (direct_message_is_answered_after_the_replay Demo.service Demo.tools
           Demo.assistants 5 Scenes.greeting
           (Timeline.mkTimed
              (Scenes.idle (Demo.fresh Scenes.firstContact)) [])
           (Bot.addMessage Demo.service "dm_1" Demo.hello
              (Demo.fresh Scenes.firstContact)).2 "asst_2").
  - reflexivity.
  - reflexivity.
  - vm_compute. intros Hin. by apply elem_of_nil in Hin.
  - reflexivity.
  - reflexivity.
Defined.

Lemma channel_message_goes_to_the_moderator_witness :
  let m := Gateway.received Scenes.attempt in
  let p1 := (Bot.addMessage Demo.service "chan_1" m Scenes.serving).2 in
  let g' := (Gateway.messageCreate Demo.service Demo.tools Demo.assistants 5
               Scenes.attempt (Scenes.idle Scenes.serving)).2 in
  (∃ rqs,
     log (Gateway.process g')
     = log p1 ++ CreateRun (threadIds p1 !! "chan_1") (Some "asst_1") 50
                 :: rqs)
  ∧ threadIds (Gateway.process g') = threadIds p1
  ∧ activeDMChannels (Gateway.process g') = []
  ∧ ∃ calls,
      Gateway.outbox g' = [] ++ calls
      ∧ length calls ≤ 1
      ∧ (Gateway.SendTyping "chan_1" ∉ calls).
Proof.
  apply (channel_message_goes_to_the_moderator Demo.service Demo.tools
           Demo.assistants 5 Scenes.attempt (Scenes.idle Scenes.serving)
           (Bot.addMessage Demo.service "chan_1"
              (Gateway.received Scenes.attempt) Scenes.serving).2 "asst_1").
  - reflexivity.
  - reflexivity.
  - vm_compute. by left.
  - reflexivity.
  - reflexivity.
Defined.

Lemma leaderboard_command_is_not_served_witness :
  ∃ c rest,
    Gateway.outbox
      (Gateway.interactionCreate Demo.service Scenes.desk Demo.tools
         Demo.assistants 5 true "motivate" "chan_1"
         (Scenes.idle Scenes.twoChannels)).2
    = [] ++ c :: rest
    ∧ Gateway.onInteraction c = true.
Proof.
  destruct (leaderboard_command_is_not_served Demo.service Scenes.desk
              Demo.tools Demo.assistants 5 "chan_1"
              (Scenes.idle Scenes.twoChannels)) as (_ & _ & _ & Hserved).
  apply (Hserved "motivate").
  - vm_compute. repeat first [by left | right].
  - discriminate.
Defined.

Lemma desk_repliesGoThrough : Gateway.repliesGoThrough Scenes.desk.
Proof. repeat split. Qed.

Lemma deferred_reply_is_edited_once_witness :
  ∃ calls ephemeral content,
    (Gateway.interactionCreate Scenes.noDatabase Scenes.desk Demo.tools
       Demo.assistants 5 true "subscribe" "chan_3"
       (Scenes.idle Scenes.twoChannels)).1 = Fulfilled tt
    ∧ Gateway.outbox
        (Gateway.interactionCreate Scenes.noDatabase Scenes.desk Demo.tools
           Demo.assistants 5 true "subscribe" "chan_3"
           (Scenes.idle Scenes.twoChannels)).2
      = [] ++ calls
    ∧ filter Gateway.onInteraction calls
      = [Gateway.DeferReply ephemeral; Gateway.EditReply content].
Proof.
  apply (deferred_reply_is_edited_once Scenes.noDatabase Scenes.desk
           Demo.tools Demo.assistants 5 "subscribe" "chan_3"
           (Scenes.idle Scenes.twoChannels)).
  - vm_compute. by left.
  - exact desk_repliesGoThrough.
Defined.

(** With the database out of reach the command [subscribe] answers with
    the error and the channel is not listed. *)
Example failed_subscription_is_reported :
  let out := Gateway.interactionCreate Scenes.noDatabase Scenes.desk
               Demo.tools Demo.assistants 5 true "subscribe" "chan_3"
               (Scenes.idle Scenes.twoChannels) in
  Gateway.outbox out.2
  = [ Gateway.DeferReply false;
      Gateway.EditReply
        "Error subscribing to Brainteaser of the Day: Error: Connection error." ]
  ∧ subscriberChannels (Gateway.process out.2) = ["chan_1"; "chan_2"].
Proof. vm_compute. done. Qed.

Lemma selection_is_reported_even_when_it_failed_witness :
  let g := Scenes.idle Scenes.twoChannels in
  let out := Gateway.select_next_botd Scenes.noDatabase Scenes.desk g in
  out.1 = Fulfilled tt
  ∧ Gateway.outbox out.2
    = [] ++ [ Gateway.DeferReply true;
              Gateway.EditReply "Selected next Brainteaser of the Day!" ]
  ∧ log (Gateway.process out.2)
    = log (DiscordInterface.broadcastBrainteaserOfTheDay Scenes.noDatabase
             Scenes.twoChannels).2
  ∧ ∀ e w,
      db_selectNextBrainteaserOfTheDay Scenes.noDatabase
        (world Scenes.twoChannels) = (Rejected e, w) →
      Broadcast.text Scenes.noDatabase Scenes.twoChannels
      = "Error selecting next brainteaser of the day: " +:+ e.
Proof.
  apply (selection_is_reported_even_when_it_failed Scenes.noDatabase
           Scenes.desk (Scenes.idle Scenes.twoChannels)
           (world Scenes.twoChannels)).
  - reflexivity.
  - intros content w. reflexivity.
Defined.

(** With the database out of reach the channels are sent the error of the
    selection and the command still answers that a brainteaser was
    selected. *)
Example failed_selection_is_reported_as_selected :
  let out := Gateway.interactionCreate Scenes.noDatabase Scenes.desk
               Demo.tools Demo.assistants 5 true "select_next_botd" "chan_1"
               (Scenes.idle Scenes.twoChannels) in
  DiscordInterface.sentTo "chan_1" (log (Gateway.process out.2))
  = ["Error selecting next brainteaser of the day: Error: Connection error."]
  ∧ Gateway.outbox out.2
    = [ Gateway.DeferReply true;
        Gateway.EditReply "Selected next Brainteaser of the Day!" ].
Proof. vm_compute. done. Qed.

Lemma commands_need_a_subscription_witness :
  let surveyed := Gateway.motivate Demo.service Scenes.desk Demo.tools
                    Demo.assistants 5 "chan_9"
                    (Scenes.idle Scenes.twoChannels) in
  let ranked := Gateway.get_leaderboard Scenes.desk "chan_9"
                  (Scenes.idle Scenes.twoChannels) in
  (surveyed.1 = Fulfilled tt
   ∧ log (Gateway.process surveyed.2) = log Scenes.twoChannels
   ∧ Gateway.outbox surveyed.2
     = [] ++ [ Gateway.DeferReply true;
               Gateway.EditReply
                 ("Error sending motivation: " +:+ Gateway.notSurveyed) ])
  ∧ (ranked.1 = Fulfilled tt
     ∧ log (Gateway.process ranked.2) = log Scenes.twoChannels
     ∧ Gateway.outbox ranked.2
       = [] ++ [ Gateway.DeferReply true;
                 Gateway.EditReply
                   ("Error getting leaderboard: " +:+ Gateway.noLeaderboard) ]).
Proof.
  apply (commands_need_a_subscription Demo.service Scenes.desk Demo.tools
           Demo.assistants 5 "chan_9" (Scenes.idle Scenes.twoChannels)).
  - vm_compute. intros Hin.
    repeat (apply elem_of_cons in Hin as [Hin|Hin]; [discriminate Hin|]).
    by apply elem_of_nil in Hin.
  - exact desk_repliesGoThrough.
Defined.

(** * Properties of the database interface and of the pipelines *)

Section DatabaseFacts.

Context {W : Type}.
Variable sql : Database.Sql W.
Variable typeError : string → string.

Local Abbreviation Store := (Database.Store W).
Local Abbreviation submitBrainteaserPipeline :=
  (Database.submitBrainteaserPipeline sql typeError).
Local Abbreviation submitSolutionPipeline :=
  (Database.submitSolutionPipeline sql typeError).

Local Ltac run_queries :=
  unfold Database.submitBrainteaserPipeline, Database.submitSolutionPipeline,
    Database.insertSolutionToBotd, Database.createUser,
    Database.insertBrainteaser, Database.insertSolution, Database.firstRow,
    Database.nextBrainteaserOfTheDay, Database.selectNextBrainteaserOfTheDay,
    Database.query, tryCatch, bind, ret, throw.

(** The queries sent after the first one. *)
Local Ltac exists_rest :=
  simpl; rewrite <- ?app_assoc; simpl;
  split; [reflexivity|];
  split; [simpl; lia|];
  first [ discriminate | intros _; by repeat constructor ].

(** The tool [submitBrainteaser] never throws: it returns the text of
    success with the identifier assigned, or the text of failure with the
    error.  The first query creates the user, at most two more follow, and
    no solution is inserted when none was given or the one given is
    empty. *)
Theorem brainteaser_submission_never_throws title question solution category
    user_id user_name (s : Store) :
  let out := submitBrainteaserPipeline title question solution category
               user_id user_name s in
  ∃ text rest,
    out.1 = Fulfilled text
    ∧ ((∃ brainteaser_id, text = Database.submitted brainteaser_id)
       ∨ (∃ error, text = Database.notSubmitted error))
    ∧ Database.queries out.2
      = Database.queries s ++ Database.InsertUser user_id user_name :: rest
    ∧ length rest ≤ 2
    ∧ (Database.given solution = None →
       Forall (λ q, Database.isInsertSolution q = false) rest).
Proof.
  intros out.
  assert (Hrun : ∃ text rest s',
            submitBrainteaserPipeline title question solution category
              user_id user_name s = (Fulfilled text, s')
            ∧ ((∃ brainteaser_id, text = Database.submitted brainteaser_id)
               ∨ (∃ error, text = Database.notSubmitted error))
            ∧ Database.queries s'
              = Database.queries s
                ++ Database.InsertUser user_id user_name :: rest
            ∧ length rest ≤ 2
            ∧ (Database.given solution = None →
               Forall (λ q, Database.isInsertSolution q = false) rest)).
  { run_queries.
    destruct (Database.sql_insertUser sql user_id user_name (Database.db s))
      as [[[]|e] w1]; simpl.
    2:{ do 3 eexists. split; [done|]. split; [right; by eexists|].
        exists_rest. }
    destruct (Database.sql_insertBrainteaser sql title question user_id
                category w1) as [[[|brainteaser_id more]|e] w2]; simpl.
    1,3: do 3 eexists; (split; [done|]); (split; [right; by eexists|]);
         exists_rest.
    destruct (Database.given solution) as [submitted_solution|]; simpl.
    2:{ do 3 eexists. split; [done|]. split; [left; by eexists|].
        exists_rest. }
    destruct (Database.sql_insertSolution sql brainteaser_id
                submitted_solution user_id w2) as [[[|solution_id more']|e] w3];
      simpl.
    2:{ do 3 eexists. split; [done|]. split; [left; by eexists|].
        exists_rest. }
    all: do 3 eexists; (split; [done|]); (split; [right; by eexists|]);
         exists_rest. }
  destruct Hrun as (text & rest & s' & Hrun & Hmore).
  subst out. rewrite Hrun. by exists text, rest.
Qed.

(** The pipeline is not a transaction: when the brainteaser has been
    inserted and the insertion of its solution fails, the tool reports that
    the brainteaser could not be submitted, with the error of the solution,
    while the insertion of the brainteaser stands. *)
Theorem failed_solution_leaves_the_brainteaser_stored title question solution
    category user_id user_name (s : Store) w1 brainteaser_id more w2
    submitted_solution e w3 :
  Database.sql_insertUser sql user_id user_name (Database.db s)
  = (Fulfilled tt, w1) →
  Database.sql_insertBrainteaser sql title question user_id category w1
  = (Fulfilled (brainteaser_id :: more), w2) →
  Database.given solution = Some submitted_solution →
  Database.sql_insertSolution sql brainteaser_id submitted_solution user_id w2
  = (Rejected e, w3) →
  submitBrainteaserPipeline title question solution category user_id
    user_name s
  = (Fulfilled
       (Database.notSubmitted
          (Database.couldNotInsertSolution brainteaser_id e)),
     Database.mkStore w3
       (Database.queries s
        ++ [ Database.InsertUser user_id user_name;
             Database.InsertBrainteaser title question user_id category;
             Database.InsertSolution brainteaser_id submitted_solution
               user_id ])).
Proof.
  intros Huser Hbrainteaser Hgiven Hsolution. run_queries.
  rewrite Huser. simpl. rewrite Hbrainteaser. simpl. rewrite Hgiven. simpl.
  rewrite Hsolution. simpl. by rewrite <- !app_assoc.
Qed.

(** The tool [submitSolution]: when the user cannot be created the error
    names the user and carries the cause, and nothing else is asked of the
    database.  Once the user is created, the call returns the text of
    success or throws one fixed message, which names the brainteaser of
    the day and not the cause; and for a number that belongs to no
    brainteaser of the day no solution is inserted. *)
Theorem solution_submission_reports_one_error botd_id solution user_id
    user_name (s : Store) :
  let out := submitSolutionPipeline botd_id solution user_id user_name s in
  (∀ e w1,
     Database.sql_insertUser sql user_id user_name (Database.db s)
     = (Rejected e, w1) →
     out = (Rejected (Database.couldNotCreateUser user_id e),
            Database.mkStore w1
              (Database.queries s
               ++ [Database.InsertUser user_id user_name])))
  ∧ (∀ w1,
       Database.sql_insertUser sql user_id user_name (Database.db s)
       = (Fulfilled tt, w1) →
       (out.1 = Rejected (Database.couldNotInsertSolutionToBotd botd_id)
        ∨ ∃ solution_id : Z,
            out.1 = Fulfilled ("Successfully submitted solution! Assigned ID: "
                               +:+ pretty.pretty solution_id))
       ∧ (∀ w2,
            Database.sql_selectBrainteaserOfBotd sql botd_id w1
            = (Fulfilled [], w2) →
            out = (Rejected (Database.couldNotInsertSolutionToBotd botd_id),
                   Database.mkStore w2
                     (Database.queries s
                      ++ [ Database.InsertUser user_id user_name;
                           Database.SelectBrainteaserOfBotd botd_id ])))).
Proof.
  intros out. split.
  - intros e w1 Huser. subst out. run_queries. by rewrite Huser.
  - intros w1 Huser. split.
    + subst out. run_queries. rewrite Huser. simpl.
      destruct (Database.sql_selectBrainteaserOfBotd sql botd_id w1)
        as [[[|brainteaser_id more]|e] w2]; simpl; [by left| |by left].
      destruct (Database.sql_insertSolution sql brainteaser_id solution
                  user_id w2) as [[[|solution_id more']|e] w3]; simpl;
        [by left| |by left].
      right. by exists solution_id.
    + intros w2 Hselect. subst out. run_queries. rewrite Huser. simpl.
      rewrite Hselect. simpl. by rewrite <- !app_assoc.
Qed.

(** The selection of the next brainteaser of the day.  When no brainteaser
    is left unused the call throws the error that says so and has only
    read the table.  When every query goes through, the brainteaser drawn
    is entered into the table of brainteasers of the day, then marked as
    used for the new entry, then the name of its author is read, and the
    text returned names the new entry, the title, the question and that
    name. *)
Theorem next_brainteaser_is_drawn_entered_and_marked (s : Store) :
  (∀ w1,
     Database.sql_selectUnused sql (Database.db s) = (Fulfilled [], w1) →
     Database.nextBrainteaserOfTheDay sql typeError s
     = (Rejected Database.noneEligible,
        Database.mkStore w1 (Database.queries s ++ [Database.SelectUnused])))
  ∧ (∀ brainteaser others w1 botd more w2 w3 name names w4,
       Database.sql_selectUnused sql (Database.db s)
       = (Fulfilled (brainteaser :: others), w1) →
       Database.sql_insertBotd sql (Database.id brainteaser) w1
       = (Fulfilled (botd :: more), w2) →
       Database.sql_markUsed sql (Database.botd_id botd)
         (Database.id brainteaser) w2 = (Fulfilled tt, w3) →
       Database.sql_selectUserName sql (Database.submitted_by brainteaser) w3
       = (Fulfilled (name :: names), w4) →
       Database.nextBrainteaserOfTheDay sql typeError s
       = (Fulfilled
            (Database.formatBrainteaserOfTheDay
               (Database.mkBrainteaserOfTheDay botd
                  (Database.title brainteaser) (Database.question brainteaser)
                  name (Database.category brainteaser))),
          Database.mkStore w4
            (Database.queries s
             ++ [ Database.SelectUnused;
                  Database.InsertBotd (Database.id brainteaser);
                  Database.MarkUsed (Database.botd_id botd)
                    (Database.id brainteaser);
                  Database.SelectUserName
                    (Database.submitted_by brainteaser) ]))).
Proof.
  split.
  - intros w1 Hunused. run_queries. by rewrite Hunused.
  - intros brainteaser others w1 botd more w2 w3 name names w4
      Hunused Hbotd Hmark Hname.
    run_queries. rewrite Hunused. simpl. rewrite Hbotd. simpl.
    rewrite Hmark. simpl. rewrite Hname. simpl. by rewrite <- !app_assoc.
Qed.

End DatabaseFacts.

Lemma brainteaser_submission_never_throws_witness :
  ∃ text rest,
    (Database.submitBrainteaserPipeline Ledger.sql Ledger.typeError
       "Two doors" "Which door leads out?" (Some "") None "user_1" "Ada"
       (Ledger.store Ledger.empty)).1 = Fulfilled text
    ∧ Database.queries
        (Database.submitBrainteaserPipeline Ledger.sql Ledger.typeError
           "Two doors" "Which door leads out?" (Some "") None "user_1" "Ada"
           (Ledger.store Ledger.empty)).2
      = [] ++ Database.InsertUser "user_1" "Ada" :: rest
    ∧ Forall (λ q, Database.isInsertSolution q = false) rest.
Proof.
  destruct (brainteaser_submission_never_throws Ledger.sql Ledger.typeError
              "Two doors" "Which door leads out?" (Some "") None "user_1"
              "Ada" (Ledger.store Ledger.empty))
    as (text & rest & Htext & _ & Hqueries & _ & Hnone).
  exists text, rest. split; [exact Htext|]. split; [exact Hqueries|].
  apply Hnone. reflexivity.
Defined.

(** A title is taken once: the second submission of a brainteaser is
    reported as failed, with the error of the insertion. *)
Example second_submission_fails :
  let once := (Database.submitBrainteaserPipeline Ledger.sql Ledger.typeError
                 "Two doors" "Which door leads out?" None None "user_1" "Ada"
                 (Ledger.store Ledger.empty)) in
  let twice := (Database.submitBrainteaserPipeline Ledger.sql
                  Ledger.typeError "Two doors" "Which door leads out?" None
                  None "user_1" "Ada" once.2) in
  once.1 = Fulfilled (Database.submitted 1)
  ∧ twice.1
    = Fulfilled
        (Database.notSubmitted
           (Database.couldNotInsertBrainteaser "Two doors"
              Ledger.duplicateTitle)).
Proof. vm_compute. done. Qed.

Lemma failed_solution_leaves_the_brainteaser_stored_witness :
  ∃ w3,
    Database.submitBrainteaserPipeline Ledger.sql Ledger.typeError
      "Two doors" "Which door leads out?" (Some "The left one") None
      "user_1" "Ada" (Ledger.store Ledger.solutionsDown)
    = (Fulfilled
         (Database.notSubmitted
            (Database.couldNotInsertSolution 1 Demo.connectionError)),
       Database.mkStore w3
         ([] ++ [ Database.InsertUser "user_1" "Ada";
                  Database.InsertBrainteaser "Two doors"
                    "Which door leads out?" "user_1" None;
                  Database.InsertSolution 1 "The left one" "user_1" ]))
    ∧ Database.title <$> (Ledger.brainteasers w3).*1 = ["Two doors"].
Proof.
  eexists. split.
  - eapply (failed_solution_leaves_the_brainteaser_stored Ledger.sql
              Ledger.typeError "Two doors" "Which door leads out?"
              (Some "The left one") None "user_1" "Ada"
              (Ledger.store Ledger.solutionsDown)); reflexivity.
  - reflexivity.
Defined.

Lemma solution_submission_reports_one_error_witness :
  Database.submitSolutionPipeline Ledger.sql Ledger.typeError 13
    "The left one" "user_2" "Bob" (Ledger.store Ledger.oneLeft)
  = (Rejected (Database.couldNotInsertSolutionToBotd 13),
     Database.mkStore
       (Ledger.mkWorld [("user_1", "Ada"); ("user_2", "Bob")]
          (Ledger.brainteasers Ledger.oneLeft) [] [] true)
       ([] ++ [ Database.InsertUser "user_2" "Bob";
                Database.SelectBrainteaserOfBotd 13 ])).
Proof.
  destruct (solution_submission_reports_one_error Ledger.sql Ledger.typeError
              13 "The left one" "user_2" "Bob" (Ledger.store Ledger.oneLeft))
    as (_ & Hcreated).
  destruct (Hcreated
              (Ledger.mkWorld [("user_1", "Ada"); ("user_2", "Bob")]
                 (Ledger.brainteasers Ledger.oneLeft) [] [] true) eq_refl)
    as (_ & Hunknown).
  apply Hunknown. reflexivity.
Defined.

Lemma next_brainteaser_is_drawn_entered_and_marked_witness :
  Database.nextBrainteaserOfTheDay Ledger.sql Ledger.typeError
    (Ledger.store Ledger.empty)
  = (Rejected Database.noneEligible,
     Database.mkStore Ledger.empty ([] ++ [Database.SelectUnused]))
  ∧ ∃ w4,
      Database.nextBrainteaserOfTheDay Ledger.sql Ledger.typeError
        (Ledger.store Ledger.oneLeft)
      = (Fulfilled
           (Database.formatBrainteaserOfTheDay
              (Database.mkBrainteaserOfTheDay
                 (Database.mkBotd 1 "2024-11-05") "Two doors"
                 "Which door leads out?" "Ada" (Some "logic"))),
         Database.mkStore w4
           ([] ++ [ Database.SelectUnused; Database.InsertBotd 1;
                    Database.MarkUsed 1 1;
                    Database.SelectUserName "user_1" ])).
Proof.
  split.
  - apply (proj1 (next_brainteaser_is_drawn_entered_and_marked Ledger.sql
                    Ledger.typeError (Ledger.store Ledger.empty))).
    reflexivity.
  - eexists.
    eapply (proj2 (next_brainteaser_is_drawn_entered_and_marked Ledger.sql
                     Ledger.typeError (Ledger.store Ledger.oneLeft))
              (Database.mkBrainteaser 1 "Two doors" "Which door leads out?"
                 (Some "logic") "user_1") [] _
              (Database.mkBotd 1 "2024-11-05") [] _ _ "Ada" []);
      reflexivity.
Defined.

(** The one brainteaser left is drawn and announced; a second selection
    finds none. *)
Example last_brainteaser_is_used_once :
  let first := Database.nextBrainteaserOfTheDay Ledger.sql Ledger.typeError
                 (Ledger.store Ledger.oneLeft) in
  let second := Database.nextBrainteaserOfTheDay Ledger.sql Ledger.typeError
                  first.2 in
  first.1 = Fulfilled "**Brainteaser of the Day #1: Two doors**

Which door leads out?

*Submitted by Ada*"
  ∧ second.1 = Rejected Database.noneEligible.
Proof. vm_compute. done. Qed.

(** Before the first selection there is no brainteaser of the day, and the
    bot passes on the error of the database as it is. *)
Example no_brainteaser_of_the_day_yet :
  (Database.currentBrainteaserOfTheDay Ledger.sql
     (Ledger.store Ledger.oneLeft)).1
  = Rejected (Database.couldNotGetCurrent Database.noneSet).
Proof. reflexivity. Qed.

(** * Properties of the broadcast of the motivation *)

Section MotivationFacts.

Context {W json : Type}.
Variable svc : Service W json.
Variable tools : gmap string (Handler W json).
Variable assistants : gmap string (Settled string).
Variable fuel : nat.

Local Abbreviation Process := (Process W).
Local Abbreviation runsOnly := (Motivation.runsOnly (W := W)).

Lemma runsOnly_ret {A} (a : A) : runsOnly (ret a : M Process A).
Proof. intros p. exists []. simpl. by rewrite app_nil_r. Qed.

Lemma runsOnly_throw {A} e : runsOnly (@throw Process A e).
Proof. intros p. exists []. simpl. by rewrite app_nil_r. Qed.

Lemma runsOnly_settled {A} (r : Settled A) :
  runsOnly (settled r : M Process A).
Proof. destruct r; [apply runsOnly_ret | apply runsOnly_throw]. Qed.

Lemma runsOnly_request {A} rq (f : W → Settled A * W) :
  Motivation.fromRun rq = true → runsOnly (request rq f).
Proof.
  intros Hrq p. unfold request. destruct (f (world p)) as [r w]. simpl.
  exists [rq]. split; [done|]. by constructor.
Qed.

Lemma runsOnly_bind {A B} (m : M Process A) (f : A → M Process B) :
  runsOnly m → (∀ a, runsOnly (f a)) → runsOnly (bind m f).
Proof.
  intros Hm Hf p. unfold bind. destruct (Hm p) as (rqs & Hl & Hr).
  destruct (m p) as [[a|e] p1]; simpl in *; [|by exists rqs].
  destruct (Hf a p1) as (rqs' & Hl' & Hr').
  exists (rqs ++ rqs'). rewrite Hl', Hl, <- app_assoc. split; [done|].
  by apply Forall_app.
Qed.

Lemma runsOnly_tryCatch {A} (m : M Process A) (h : string → M Process A) :
  runsOnly m → (∀ e, runsOnly (h e)) → runsOnly (tryCatch m h).
Proof.
  intros Hm Hh p. unfold tryCatch. destruct (Hm p) as (rqs & Hl & Hr).
  destruct (m p) as [[a|e] p1]; simpl in *; [by exists rqs|].
  destruct (Hh e p1) as (rqs' & Hl' & Hr').
  exists (rqs ++ rqs'). rewrite Hl', Hl, <- app_assoc. split; [done|].
  by apply Forall_app.
Qed.

Lemma runsOnly_promiseAll {A B} (f : A → M Process B) (l : list A) :
  (∀ a, runsOnly (f a)) → runsOnly (promiseAll f l).
Proof.
  intros Hf. induction l as [|a l IH]; simpl; [apply runsOnly_ret|].
  apply runsOnly_bind; [done|]. intros b.
  apply runsOnly_bind; [done|]. intros bs. apply runsOnly_ret.
Qed.

Lemma runsOnly_callTool c : runsOnly (LLM.callTool svc tools c).
Proof.
  unfold LLM.callTool. apply runsOnly_tryCatch; [|intros; apply runsOnly_ret].
  apply runsOnly_bind; [apply runsOnly_settled|]. intros args.
  destruct (tools !! name c).
  { apply runsOnly_bind; [by apply runsOnly_request|].
    intros; apply runsOnly_ret. }
  destruct (Object_prototype svc !! name c); [|apply runsOnly_throw].
  apply runsOnly_bind; [apply runsOnly_settled|]. intros; apply runsOnly_ret.
Qed.

Lemma runsOnly_turn threadId run :
  runsOnly (LLM.turn svc threadId tools run).
Proof.
  unfold LLM.turn. apply runsOnly_bind; [by apply runsOnly_request|].
  intros r.
  destruct (decide (status r = "requires_action"));
    [|destruct (decide (status r = "completed"));
      [|destruct (decide (status r = "failed"));
        [apply runsOnly_throw
        |destruct (decide (status r = "queued" ∨ status r = "in_progress"));
         [|destruct (decide (status r = "incomplete"));
           apply runsOnly_throw]]]].
  - unfold LLM.requiresAction. destruct (required_action r) as [r0|];
      [|apply runsOnly_throw].
    destruct (decide (type r0 = "submit_tool_outputs"));
      [|apply runsOnly_ret].
    apply runsOnly_tryCatch; [|intros; apply runsOnly_ret].
    apply runsOnly_bind; [apply runsOnly_promiseAll, runsOnly_callTool|].
    intros outs.
    apply runsOnly_bind; [by apply runsOnly_request|].
    intros; apply runsOnly_ret.
  - unfold LLM.completed. apply runsOnly_bind; [by apply runsOnly_request|].
    intros [|[[|block ?]] ?]; simpl; try apply runsOnly_throw.
    destruct (decide (contentType block = "text")); [|apply runsOnly_throw].
    destruct block; try apply runsOnly_throw. apply runsOnly_ret.
  - apply runsOnly_bind; [by apply runsOnly_request|].
    intros; apply runsOnly_ret.
Qed.

Lemma runsOnly_poll n threadId run :
  runsOnly (LLM.poll svc n threadId tools run).
Proof.
  revert run. induction n as [|n IH]; intros run; simpl.
  - apply runsOnly_ret.
  - apply runsOnly_bind; [apply runsOnly_turn|].
    intros [run'|text]; [apply IH|]. apply runsOnly_ret.
Qed.

Lemma runsOnly_response chatId assistantName :
  runsOnly (Bot.response svc tools assistants fuel chatId assistantName).
Proof.
  unfold Bot.response. apply runsOnly_bind.
  { intros p. exists []. simpl. by rewrite app_nil_r. }
  intros threadId. apply runsOnly_bind.
  { unfold Bot.awaitAssistant.
    destruct (assistants !! assistantName) as [[]|];
      try apply runsOnly_ret. apply runsOnly_throw. }
  intros assistantId. apply runsOnly_bind.
  { unfold LLM.runAssistant, LLM.enqueueOperation.
    apply runsOnly_bind; [by apply runsOnly_request|].
    intros; apply runsOnly_poll. }
  intros [text|]; [|apply runsOnly_ret]. simpl.
  apply runsOnly_bind; [apply runsOnly_settled|]. intros response.
  apply runsOnly_bind; [apply runsOnly_settled|]. intros action.
  destruct (decide (action = "do_nothing")); [apply runsOnly_ret|].
  destruct (decide (action = "react")).
  { apply runsOnly_bind; [apply runsOnly_settled|].
    intros; apply runsOnly_ret. }
  destruct (decide (action = "reply")); [|apply runsOnly_throw].
  apply runsOnly_bind; [apply runsOnly_settled|]. intros; apply runsOnly_ret.
Qed.

Lemma sentTo_app c l1 l2 :
  DiscordInterface.sentTo c (l1 ++ l2)
  = DiscordInterface.sentTo c l1 ++ DiscordInterface.sentTo c l2.
Proof. apply omap_app. Qed.

(** The requests of a run send nothing to a channel. *)
Lemma sentTo_fromRun c rqs :
  Forall (λ rq, Motivation.fromRun rq = true) rqs →
  DiscordInterface.sentTo c rqs = [].
Proof.
  induction 1 as [|rq rqs Hrq _ IH]; [done|].
  change (rq :: rqs) with ([rq] ++ rqs). rewrite sentTo_app, IH.
  by destruct rq.
Qed.

Local Abbreviation motivateChannel :=
  (Motivation.motivateChannel svc tools assistants fuel).

Lemma keeps_motivateChannel channel : keeps (motivateChannel channel).
Proof.
  unfold Motivation.motivateChannel.
  apply keeps_tryCatch; [|intros; apply keeps_ret].
  apply keeps_bind; [by apply keeps_request|]. intros [|]; [|apply keeps_ret].
  apply keeps_bind; [apply keeps_response|].
  intros [[| content | content]|]; try apply keeps_ret;
    (apply keeps_tryCatch; [by apply keeps_request|intros; apply keeps_ret]).
Qed.

(** What one channel is sent while the channel [served] is served. *)
Lemma motivateChannel_sentTo c served (p : Process) :
  ∃ p1 texts,
    motivateChannel served p = (Fulfilled tt, p1)
    ∧ DiscordInterface.sentTo c (log p1)
      = DiscordInterface.sentTo c (log p) ++ texts
    ∧ length texts ≤ length (filter (λ id, id = c) [served]).
Proof.
  unfold Motivation.motivateChannel, tryCatch, bind. unfold request at 1.
  destruct (channel_isSendable svc served (world p)) as [[[]|e] w]; simpl.
  2,3: eexists; exists []; split; [done|]; simpl;
       rewrite sentTo_app, !app_nil_r; split; [done|lia].
  remember (setWorld w (FetchChannel served) p) as p0 eqn:Ep0.
  assert (Hp0 : DiscordInterface.sentTo c (log p0)
                = DiscordInterface.sentTo c (log p)).
  { rewrite Ep0. simpl. by rewrite sentTo_app, app_nil_r. }
  clear Ep0.
  destruct (runsOnly_response served "motivator" p0) as (rqs & Hl & Hr).
  destruct (Bot.response svc tools assistants fuel served "motivator" p0)
    as [[response|e] p2]; simpl in Hl.
  2:{ eexists. exists []. split; [done|].
      rewrite Hl, sentTo_app, (sentTo_fromRun c rqs Hr), Hp0, !app_nil_r.
      split; [done|simpl; lia]. }
  assert (Hp2 : DiscordInterface.sentTo c (log p2)
                = DiscordInterface.sentTo c (log p)).
  { by rewrite Hl, sentTo_app, (sentTo_fromRun c rqs Hr), Hp0, app_nil_r. }
  assert (Hsend : ∀ content, ∃ p3 texts,
            Motivation.send svc served content p2 = (Fulfilled tt, p3)
            ∧ DiscordInterface.sentTo c (log p3)
              = DiscordInterface.sentTo c (log p) ++ texts
            ∧ length texts ≤ length (filter (λ id, id = c) [served])).
  { intros content. unfold Motivation.send, tryCatch, request.
    assert (Hone : ∃ texts,
              DiscordInterface.sentTo c [Send served content] = texts
              ∧ length texts ≤ length (filter (λ id, id = c) [served])).
    { unfold DiscordInterface.sentTo. simpl. rewrite filter_cons.
      destruct (decide (served = c)); simpl; eexists; (split; [done|]);
        rewrite ?filter_nil; simpl; lia. }
    destruct Hone as (texts & Hone & Hlen).
    destruct (channel_send svc served content (world p2)) as [[[]|e] w'];
      simpl; eexists; exists texts; (split; [done|]); simpl;
      rewrite sentTo_app, Hp2, Hone; done. }
  destruct response as [[| content | content]|]; simpl.
  - exists p2, []. rewrite Hp2, app_nil_r. split; [done|].
    split; [done|simpl; lia].
  - destruct (Hsend content) as (p3 & texts & -> & Hsent & Hlen).
    by exists p3, texts.
  - destruct (Hsend content) as (p3 & texts & -> & Hsent & Hlen).
    by exists p3, texts.
  - exists p2, []. rewrite Hp2, app_nil_r. split; [done|].
    split; [done|simpl; lia].
Qed.

Lemma motivations_sentTo c (l : list string) (p : Process) :
  ∃ p1 texts,
    forEach motivateChannel l p = (Fulfilled tt, p1)
    ∧ DiscordInterface.sentTo c (log p1)
      = DiscordInterface.sentTo c (log p) ++ texts
    ∧ length texts ≤ length (filter (λ id, id = c) l).
Proof.
  revert p. induction l as [|served l IH]; intros p.
  - exists p, []. simpl. rewrite app_nil_r. split; [done|]. split; [done|lia].
  - simpl. unfold bind.
    destruct (motivateChannel_sentTo c served p)
      as (p1 & texts & -> & Hl & Hlen).
    destruct (IH p1) as (p2 & texts' & Hrun & Hl' & Hlen').
    exists p2, (texts ++ texts'). split; [done|].
    split; [by rewrite Hl', Hl, <- app_assoc|].
    rewrite length_app. rewrite filter_cons in *.
    destruct (decide (served = c)); simpl in *; lia.
Qed.

(** The broadcast of the motivation returns normally whatever Discord and
    the runs do.  It creates no thread and leaves the chat-to-thread map
    and the two lists of the interface as they were; a channel is sent at
    most one text for each time it is listed and a channel that is not
    listed is sent nothing; and for a channel that cannot be sent to, the
    motivator is not run. *)
Theorem motivation_reaches_listed_channels_only (p : Process) :
  let out := Motivation.broadcastMotivation svc tools assistants fuel p in
  out.1 = Fulfilled tt
  ∧ threadIds out.2 = threadIds p
  ∧ subscriberChannels out.2 = subscriberChannels p
  ∧ activeDMChannels out.2 = activeDMChannels p
  ∧ Bot.allocations out.2 = Bot.allocations p
  ∧ (∀ c, ∃ texts,
       DiscordInterface.sentTo c (log out.2)
       = DiscordInterface.sentTo c (log p) ++ texts
       ∧ length texts ≤ length (filter (λ id, id = c) (subscriberChannels p))
       ∧ ((c ∉ subscriberChannels p) → texts = []))
  ∧ (∀ c (p0 : Process) w,
       channel_isSendable svc c (world p0) = (Fulfilled false, w) →
       motivateChannel c p0 = (Fulfilled tt, setWorld w (FetchChannel c) p0)).
Proof.
  intros out. subst out. unfold Motivation.broadcastMotivation.
  assert (Hkeeps : keeps (forEach motivateChannel (subscriberChannels p))).
  { induction (subscriberChannels p) as [|c l IH]; simpl; [apply keeps_ret|].
    apply keeps_bind; [apply keeps_motivateChannel|]. by intros _. }
  destruct (Hkeeps p) as (Ht & Hs & Ha & rqs & Hl & Hno).
  destruct (motivations_sentTo "" (subscriberChannels p) p)
    as (p1 & _ & Hrun & _).
  rewrite Hrun in *. simpl in *.
  split; [done|]. split; [done|]. split; [done|]. split; [done|]. split.
  { unfold Bot.allocations. rewrite Hl, filter_app, length_app.
    assert (Hnil : filter Bot.isCreateThread rqs = []).
    { clear -Hno. induction Hno as [|rq rqs Hrq _ IH]; [done|].
      rewrite filter_cons, IH. by rewrite Hrq. }
    rewrite Hnil. simpl. lia. }
  split.
  - intros c.
    destruct (motivations_sentTo c (subscriberChannels p) p)
      as (p2 & texts & Hrun' & Hsent & Hlen).
    rewrite Hrun in Hrun'. injection Hrun' as <-.
    exists texts. split; [done|]. split; [done|]. intros Hnot.
    rewrite (filter_same_absent c _ Hnot) in Hlen.
    by destruct texts; [|simpl in Hlen; lia].
  - intros c p0 w Hsendable.
    unfold Motivation.motivateChannel, tryCatch, bind, request.
    by rewrite Hsendable.
Qed.

End MotivationFacts.

Lemma motivation_reaches_listed_channels_only_witness :
  (∃ texts,
     DiscordInterface.sentTo "chan_9"
       (log (Motivation.broadcastMotivation Demo.service Demo.tools
               Demo.assistants 5 Scenes.coached).2)
     = DiscordInterface.sentTo "chan_9" (log Scenes.coached) ++ texts
     ∧ texts = [])
  ∧ Motivation.motivateChannel Scenes.muted Demo.tools Demo.assistants 5
      "chan_1" Scenes.coached
    = (Fulfilled tt,
       setWorld (world Scenes.coached) (FetchChannel "chan_1") Scenes.coached).
Proof.
  split.
  - destruct (motivation_reaches_listed_channels_only Demo.service Demo.tools
                Demo.assistants 5 Scenes.coached)
      as (_ & _ & _ & _ & _ & Hsent & _).
    destruct (Hsent "chan_9") as (texts & Hlog & _ & Hnone).
    exists texts. split; [exact Hlog|]. apply Hnone.
    vm_compute. intros Hin.
    repeat (apply elem_of_cons in Hin as [Hin|Hin]; [discriminate Hin|]).
    by apply elem_of_nil in Hin.
  - destruct (motivation_reaches_listed_channels_only Scenes.muted Demo.tools
                Demo.assistants 5 Scenes.coached)
      as (_ & _ & _ & _ & _ & _ & Hmuted).
    apply Hmuted. reflexivity.
Defined.

(** The motivator replies and the reply is sent to the subscribed
    channel, on a run created without a thread since the channel has
    none. *)
Example motivation_is_sent :
  let out := Motivation.broadcastMotivation Demo.service Demo.tools
               Demo.assistants 5 Scenes.coached in
  DiscordInterface.sentTo "chan_1" (log out.2) = ["reply"]
  ∧ log out.2
    = [ FetchChannel "chan_1"; CreateRun None (Some "asst_3") 50;
        RetrieveRun None "run_1"; ListMessages None; Send "chan_1" "reply" ].
Proof. vm_compute. done. Qed.
